(** * Tunnel lifecycle core of libi2pd (Tunnel.cpp): a shallow embedding

    The development follows [src/libi2pd/Tunnel.cpp].  Machine integers are
    [Z] with the wrap-around of their C++ type written out, byte buffers are
    lists of [byte], the doubly linked hop chain of a tunnel configuration is
    the list of its hops in traversal order (first hop first), objects held
    through [std::shared_ptr] and mutated through it live in a store
    ([gmap positive Tunnel], the key being the address), and a dereference the C++ leaves undefined (null or
    dangling pointer, index past a vector) is the result [None]. *)

From Stdlib Require Import ZArith List Lia Bool Permutation.
From Stdlib Require Import Strings.Byte Lists.Finite.
From stdpp Require Import base option list gmap.

Local Open Scope Z_scope.

(** ** Machine integers *)

Definition uint8 (x : Z) : Z := x mod 2 ^ 8.
Definition uint32 (x : Z) : Z := x mod 2 ^ 32.
Definition uint64 (x : Z) : Z := x mod 2 ^ 64.

Definition byte_to_Z (b : byte) : Z := Z.of_N (Byte.to_N b).

Definition byte_of_Z (x : Z) : byte :=
  match Byte.of_N (Z.to_N (uint8 x)) with
  | Some b => b
  | None => x00
  end.

(** Closed comparisons of integer constants. *)
Ltac compute_bounds :=
  vm_compute; repeat split; first [reflexivity | discriminate].

(** ** Data model *)

(** Modelled from the spec: Tunnel.h is not among the sources; the spec lists
    the six tunnel states. *)
Inductive TunnelState :=
| eTunnelStatePending
| eTunnelStateBuildReplyReceived
| eTunnelStateBuildFailed
| eTunnelStateEstablished
| eTunnelStateFailed
| eTunnelStateExpiring.

#[global] Instance TunnelState_eq_dec : EqDecision TunnelState.
Proof. solve_decision. Defined.

(** A router identity, seen through its identity hash. *)
Definition IdentHash := N.
Record IdentityEx := { GetIdentHash : IdentHash }.

(** Modelled from the spec: TunnelConfig.h is not among the sources.  A hop of
    a build configuration: its identity ([std::shared_ptr], possibly null),
    the layer and iv keys, the reply key material, the next-hop id and hash
    and the build-record slot index ([int recordIndex]).  The [next]/[prev]
    pointers are the position of the hop in the chain. *)
Record TunnelHopConfig := {
  ident : option IdentityEx;
  nextIdent : IdentHash;
  nextTunnelID : Z;
  layerKey : list byte;
  ivKey : list byte;
  replyKey : list byte;
  recordIndex : Z
}.

Definition set_recordIndex (hop : TunnelHopConfig) (idx : Z) : TunnelHopConfig :=
  {| ident := ident hop; nextIdent := nextIdent hop;
     nextTunnelID := nextTunnelID hop; layerKey := layerKey hop;
     ivKey := ivKey hop; replyKey := replyKey hop; recordIndex := idx |}.

(** Modelled from the spec: the ordered hop chain, the short/long variant
    and the far-end transport hint of a build configuration. *)
Record TunnelConfig := {
  hops : list TunnelHopConfig;
  IsShort : bool;
  GetFarEndTransports : Z
}.

Definition GetNumHops (cfg : TunnelConfig) : Z := Z.of_nat (length (hops cfg)).

Definition set_hops (cfg : TunnelConfig) (hs : list TunnelHopConfig) : TunnelConfig :=
  {| hops := hs; IsShort := IsShort cfg;
     GetFarEndTransports := GetFarEndTransports cfg |}.

(** The layer cipher of a runtime hop: [SetKeys] stores both keys. *)
Record TunnelDecryption := { dec_layerKey : list byte; dec_ivKey : list byte }.

Definition SetKeys (d : TunnelDecryption) (lk ik : list byte) : TunnelDecryption :=
  {| dec_layerKey := lk; dec_ivKey := ik |}.

Record TunnelHop := {
  hop_ident : option IdentityEx;
  decryption : TunnelDecryption
}.

Definition default_TunnelHop : TunnelHop :=
  {| hop_ident := None;
     decryption := {| dec_layerKey := []; dec_ivKey := [] |} |}.

Definition eAllTransports : Z := 255.

Record Tunnel := {
  m_Config : option TunnelConfig;
  m_Hops : list TunnelHop;
  m_IsShortBuildMessage : bool;
  m_State : TunnelState;
  m_FarEndTransports : Z;
  m_CreationTime : Z
}.

Definition GetState (t : Tunnel) : TunnelState := m_State t.
Definition GetCreationTime (t : Tunnel) : Z := m_CreationTime t.
Definition GetTunnelConfig (t : Tunnel) : option TunnelConfig := m_Config t.

Definition IsEstablished (t : Tunnel) : bool :=
  bool_decide (m_State t = eTunnelStateEstablished).

(** [Tunnel::SetState] *)
Definition SetState (t : Tunnel) (state : TunnelState) : Tunnel :=
  {| m_Config := m_Config t; m_Hops := m_Hops t;
     m_IsShortBuildMessage := m_IsShortBuildMessage t;
     m_State := state; m_FarEndTransports := m_FarEndTransports t;
     m_CreationTime := m_CreationTime t |}.

(** Peer-profile events sent to the profile store through
    [UpdateRouterProfile (hash, fn)]. *)
Inductive ProfileUpdate :=
| TunnelBuildResponse (ret : byte)
| TunnelNonReplied.

Definition ProfileEvent : Type := IdentHash * ProfileUpdate.

(** ** Tunnel::GetInvertedPeers and Tunnel::GetPeers *)

(** The [for] loop with [push_back] over [m_Hops]. *)
Definition GetInvertedPeers (t : Tunnel) : list (option IdentityEx) :=
  fold_left (fun ret it => ret ++ [hop_ident it]) (m_Hops t) [].

(** [std::reverse (first, last)]: swap the outer elements and move inwards. *)
Fixpoint std_reverse_aux {A} (fuel : nat) (i j : nat) (v : list A) : list A :=
  match fuel with
  | O => v
  | S fuel' =>
      if (i <? j)%nat then
        match v !! i, v !! j with
        | Some x, Some y => std_reverse_aux fuel' (S i) (pred j) (<[i:=y]> (<[j:=x]> v))
        | _, _ => v
        end
      else v
  end.

Definition std_reverse {A} (v : list A) : list A :=
  std_reverse_aux (length v) 0 (pred (length v)) v.

Definition GetPeers (t : Tunnel) : list (option IdentityEx) :=
  let peers := GetInvertedPeers t in
  std_reverse peers.

(** ** Constants and external collaborators *)

(** Modelled from the spec: Tunnel.h is not among the sources; the spec gives
    [STANDARD_NUM_RECORDS] as 4 and [MAX_NUM_RECORDS] as 8. *)
Definition STANDARD_NUM_RECORDS : Z := 4.
Definition MAX_NUM_RECORDS : Z := 8.

(** A build message as [Tunnel.cpp] sees it: the length field [len] of the
    I2NP message, the first payload byte and the record area behind it
    ([GetPayload () + 1]) as an array of slots of one record each. *)
Record I2NPMessage := {
  len : Z;
  payload0 : byte;
  records : list (list byte)
}.

(** A slot index of type [int] addresses a slot of the record area; an index
    outside the area is a read or write outside the buffer. *)
Definition slot_index (recs : list (list byte)) (idx : Z) : option nat :=
  if (0 <=? idx) && (idx <? Z.of_nat (length recs)) then Some (Z.to_nat idx) else None.

(** The four bytes of a [uint32_t] written by [RAND_bytes], least significant
    byte first. *)
Definition uint32_of_bytes (bs : list byte) : Z :=
  fold_right (fun b acc => byte_to_Z b + 256 * acc) 0 bs.

Section TunnelModel.

(** Record sizes and timing constants of the missing headers (Tunnel.h,
    I2NPProtocol.h); the spec gives no values for them. *)
Variable SHORT_TUNNEL_BUILD_RECORD_SIZE : Z.
Variable TUNNEL_BUILD_RECORD_SIZE : Z.
Variable TUNNEL_CREATION_TIMEOUT : Z.
Variable TUNNEL_MANAGE_INTERVAL : Z.
Variable TUNNEL_POOLS_MANAGE_INTERVAL : Z.
Variable TUNNEL_MEMORY_POOL_MANAGE_INTERVAL : Z.

(** The record transformations of [TunnelHopConfig] (TunnelConfig.cpp, not
    among the sources), each acting on one record: the encrypted request
    record of a hop for a reply message id, the layer transform a hop
    applies to a record of another hop, the decryption of a hop's own reply
    record ([None] when the record does not verify) and the return code read
    from a hop's own decrypted reply record.  Key material and padding a
    record needs are taken to be part of the hop. *)
Variable RequestRecord : TunnelHopConfig -> Z -> list byte.
Variable LayerDecrypt : TunnelHopConfig -> list byte -> list byte.
Variable ResponseDecrypt : TunnelHopConfig -> list byte -> option (list byte).
Variable RetCode : TunnelHopConfig -> list byte -> byte.

(** Fresh messages of I2NPProtocol.cpp, the bytes [RAND_bytes] delivers (the
    n-th byte drawn is [entropy n]) and [std::shuffle] with a generator
    state. *)
Variable NewI2NPShortMessage : I2NPMessage.
Variable NewI2NPMessage : I2NPMessage.
Variable entropy : nat -> byte.
Variable std_shuffle : Z -> list Z -> list Z.

Set Default Proof Using "Type".

Definition RAND_bytes (pos num : nat) : list byte := map entropy (seq pos num).

Definition GetRecordSize (cfg : TunnelConfig) : Z :=
  if IsShort cfg then SHORT_TUNNEL_BUILD_RECORD_SIZE else TUNNEL_BUILD_RECORD_SIZE.

(** *** TunnelHopConfig methods *)

(** Modelled from the spec: [createBuildRequestRecord (buf, msgId)] writes
    the hop's request into its slot. *)
Definition CreateBuildRequestRecord (hop : TunnelHopConfig)
    (recs : list (list byte)) (msgID : Z) : option (list (list byte)) :=
  i ← slot_index recs (recordIndex hop);
  Some (<[i := RequestRecord hop msgID]> recs).

(** Modelled from the spec: [decryptRecord (buf, otherIdx)] applies this
    hop's layer keys to another slot. *)
Definition DecryptRecord (hop : TunnelHopConfig)
    (recs : list (list byte)) (idx : Z) : option (list (list byte)) :=
  i ← slot_index recs idx;
  r ← recs !! i;
  Some (<[i := LayerDecrypt hop r]> recs).

(** Modelled from the spec: [decryptBuildResponseRecord (buf)] verifies and
    decodes this hop's own reply slot. *)
Definition DecryptBuildResponseRecord (hop : TunnelHopConfig)
    (recs : list (list byte)) : option (bool * list (list byte)) :=
  i ← slot_index recs (recordIndex hop);
  r ← recs !! i;
  match ResponseDecrypt hop r with
  | Some r' => Some (true, <[i := r']> recs)
  | None => Some (false, recs)
  end.

(** Modelled from the spec: [retCode (buf)] extracts the accept/decline
    code of this hop's reply slot. *)
Definition GetRetCode (hop : TunnelHopConfig) (recs : list (list byte)) : option byte :=
  i ← slot_index recs (recordIndex hop);
  r ← recs !! i;
  Some (RetCode hop r).

(** *** Tunnel::Build (up to the filled message) *)

(** The [while (hop)] loop that creates the real records: [hs] is the chain
    from the current hop on, [i] the running index into [recordIndicies]. *)
Fixpoint create_records (hs : list TunnelHopConfig) (i : nat)
    (recordIndicies : list Z) (replyMsgID : Z) (recs : list (list byte))
    (pos : nat)
  : option (list TunnelHopConfig * list (list byte) * list (TunnelHopConfig * Z) * nat) :=
  match hs with
  | [] => Some ([], recs, [], pos)
  | hop :: rest =>
      let '(msgID, pos1) :=
        match rest with
        | _ :: _ => (uint32_of_bytes (RAND_bytes pos 4), (pos + 4)%nat)
        | [] => (replyMsgID, pos)
        end in
      idx ← recordIndicies !! i;
      let hop' := set_recordIndex hop idx in
      recs1 ← CreateBuildRequestRecord hop' recs msgID;
      '(hs', recs2, reqs, pos2) ←
        create_records rest (S i) recordIndicies replyMsgID recs1 pos1;
      Some (hop' :: hs', recs2, (hop', msgID) :: reqs, pos2)
  end.

(** The [for] loop that fills the fake records: [n] iterations from [i]. *)
Fixpoint fill_fake_records (n : nat) (i : nat) (recordIndicies : list Z)
    (recordSize : nat) (recs : list (list byte)) (pos : nat)
  : option (list (list byte) * nat) :=
  match n with
  | O => Some (recs, pos)
  | S n' =>
      idx ← recordIndicies !! i;
      j ← slot_index recs idx;
      fill_fake_records n' (S i) recordIndicies recordSize
        (<[j := RAND_bytes pos recordSize]> recs) (pos + recordSize)%nat
  end.

(** The inner loop over [hop1 = hop->next, ...]. *)
Fixpoint decrypt_following (hop : TunnelHopConfig) (nexts : list TunnelHopConfig)
    (recs : list (list byte)) : option (list (list byte)) :=
  match nexts with
  | [] => Some recs
  | hop1 :: rest =>
      recs1 ← DecryptRecord hop recs (recordIndex hop1);
      decrypt_following hop rest recs1
  end.

(** The outer loop from the hop before the last back to the first: [prevs]
    is the chain walked through [prev], [after] the hops behind the current
    one in traversal order. *)
Fixpoint decrypt_real_records (prevs after : list TunnelHopConfig)
    (recs : list (list byte)) : option (list (list byte)) :=
  match prevs with
  | [] => Some recs
  | hop :: rest =>
      recs1 ← decrypt_following hop after recs;
      decrypt_real_records rest (hop :: after) recs1
  end.

Record BuildOutput := {
  out_msg : I2NPMessage;
  out_numRecords : Z;
  out_recordIndicies : list Z;
  out_requests : list (TunnelHopConfig * Z);
  out_filled : list (list byte);
  out_pos : nat
}.

Definition set_config (t : Tunnel) (cfg : option TunnelConfig) : Tunnel :=
  {| m_Config := cfg; m_Hops := m_Hops t;
     m_IsShortBuildMessage := m_IsShortBuildMessage t;
     m_State := m_State t; m_FarEndTransports := m_FarEndTransports t;
     m_CreationTime := m_CreationTime t |}.

(** [Tunnel::Build] up to the call of [FillI2NPMessageHeader]: [rng] is the
    state of the generator handed to [std::shuffle], [pos] the number of
    bytes [RAND_bytes] has delivered so far.  The result holds the tunnel
    (its hops carry their record index), the message, the calls of
    [CreateBuildRequestRecord] in order ([out_requests]) and the record
    area as it was after the fake records were filled ([out_filled]). *)
Definition Build (t : Tunnel) (replyMsgID : Z) (rng : Z) (pos : nat)
  : option (Tunnel * BuildOutput) :=
  cfg ← m_Config t;
  let numHops := GetNumHops cfg in
  let numRecords :=
    if numHops <=? STANDARD_NUM_RECORDS then STANDARD_NUM_RECORDS else MAX_NUM_RECORDS in
  let msg :=
    if numRecords <=? STANDARD_NUM_RECORDS then NewI2NPShortMessage else NewI2NPMessage in
  let recordSize :=
    if IsShort cfg then SHORT_TUNNEL_BUILD_RECORD_SIZE else TUNNEL_BUILD_RECORD_SIZE in
  let len1 := uint64 (len msg + uint64 (numRecords * recordSize + 1)) in
  let recordIndicies :=
    std_shuffle rng (map Z.of_nat (seq 0 (Z.to_nat numRecords))) in
  '(hs, recs1, reqs, pos1) ←
    create_records (hops cfg) 0 recordIndicies replyMsgID (records msg) pos;
  '(recs2, pos2) ←
    fill_fake_records (Z.to_nat (numRecords - numHops)) (Z.to_nat numHops)
      recordIndicies (Z.to_nat recordSize) recs1 pos1;
  recs3 ←
    match rev hs with
    | [] => None
    | last :: prevs => decrypt_real_records prevs [last] recs2
    end;
  Some (set_config t (Some (set_hops cfg hs)),
        {| out_msg := {| len := len1; payload0 := byte_of_Z numRecords; records := recs3 |};
           out_numRecords := numRecords;
           out_recordIndicies := recordIndicies;
           out_requests := reqs;
           out_filled := recs2;
           out_pos := pos2 |}).

(** *** Tunnel::HandleTunnelBuildResponse *)

(** The inner loop over [hop1 = hop->prev, ...] that peels the slots of the
    hops before the current one. *)
Fixpoint decrypt_previous (hop : TunnelHopConfig) (num : Z)
    (prevs : list TunnelHopConfig) (recs : list (list byte))
  : option (list (list byte)) :=
  match prevs with
  | [] => Some recs
  | hop1 :: rest =>
      let idx := recordIndex hop1 in
      recs1 ← (if (0 <=? idx) && (idx <? num)
               then DecryptRecord hop recs idx
               else Some recs);
      decrypt_previous hop num rest recs1
  end.

(** The loop from the last hop back to the first; [chain] is the hop chain
    walked through [prev].  The inner result [None] is [return false]. *)
Fixpoint decrypt_response (num : Z) (chain : list TunnelHopConfig)
    (recs : list (list byte)) : option (option (list (list byte))) :=
  match chain with
  | [] => Some (Some recs)
  | hop :: prevs =>
      if (0 <=? recordIndex hop) && (recordIndex hop <? num) then
        '(ok, recs1) ← DecryptBuildResponseRecord hop recs;
        if ok : bool then
          recs2 ← decrypt_previous hop num prevs recs1;
          decrypt_response num prevs recs2
        else Some None
      else Some None
  end.

Definition response_event (hop : TunnelHopConfig) (ret : byte) : list ProfileEvent :=
  match ident hop with
  | Some i => [(GetIdentHash i, TunnelBuildResponse ret)]
  | None => []
  end.

(** The loop from the first hop to the last that reads the return codes:
    the result is [established], [numHops] and the profile events in the
    order they are sent. *)
Fixpoint read_ret_codes (hs : list TunnelHopConfig) (recs : list (list byte))
    (established : bool) (numHops : nat)
  : option (bool * nat * list ProfileEvent) :=
  match hs with
  | [] => Some (established, numHops, [])
  | hop :: rest =>
      ret ← GetRetCode hop recs;
      let established1 :=
        if negb (byte_to_Z ret =? 0) then false else established in
      '(e, n, evs) ← read_ret_codes rest recs established1 (S numHops);
      Some (e, n, response_event hop ret ++ evs)
  end.

(** The loop that fills [m_Hops] from the last hop back to the first. *)
Fixpoint fill_hops (chain : list TunnelHopConfig) (i : nat)
    (v : list TunnelHop) : option (list TunnelHop) :=
  match chain with
  | [] => Some v
  | hop :: prevs =>
      h ← v !! i;
      fill_hops prevs (S i)
        (<[i := {| hop_ident := ident hop;
                   decryption := SetKeys (decryption h) (layerKey hop) (ivKey hop) |}]> v)
  end.

(** [Tunnel::HandleTunnelBuildResponse (msg, len)]: [msg0] is [msg[0]] and
    [recs] the record area at [msg + 1].  The result is the returned
    [bool], the tunnel afterwards and the profile events sent. *)
Definition HandleTunnelBuildResponse (t : Tunnel) (msg0 : byte)
    (recs : list (list byte)) (len : Z)
  : option (bool * Tunnel * list ProfileEvent) :=
  let num := byte_to_Z msg0 in
  if MAX_NUM_RECORDS <? num then Some (false, t, [])
  else
    cfg ← m_Config t;
    if len <? uint64 (num * GetRecordSize cfg + 1) then Some (false, t, [])
    else
      r ← decrypt_response num (rev (hops cfg)) recs;
      match r with
      | None => Some (false, t, [])
      | Some recs1 =>
          '(established, numHops, evs) ← read_ret_codes (hops cfg) recs1 true O;
          if established : bool then
            v ← fill_hops (rev (hops cfg)) O (resize numHops default_TunnelHop (m_Hops t));
            Some (true,
                  {| m_Config := None; m_Hops := v;
                     m_IsShortBuildMessage := IsShort cfg;
                     m_State := eTunnelStateEstablished;
                     m_FarEndTransports := GetFarEndTransports cfg;
                     m_CreationTime := m_CreationTime t |},
                  evs)
          else Some (false, t, evs)
      end.

(** ** The registry [Tunnels] *)

(** [Tunnels::GetPendingTunnel]: [pendingTunnels] is the [std::map] from
    reply message id to tunnel pointer, as the list of its entries in key
    order; [heap] holds the tunnel objects.  The result is the returned
    pointer ([None] for [nullptr]) and the store afterwards. *)
Definition GetPendingTunnel (replyMsgID : Z) (pendingTunnels : list (Z * positive))
    (heap : gmap positive Tunnel) : option (option positive * gmap positive Tunnel) :=
  match List.find (fun e => fst e =? replyMsgID) pendingTunnels with
  | Some (_, l) =>
      t ← heap !! l;
      if decide (GetState t = eTunnelStatePending) then
        Some (Some l, <[l := SetState t eTunnelStateBuildReplyReceived]> heap)
      else Some (None, heap)
  | None => Some (None, heap)
  end.

(** The [for] loop of [Tunnels::GetNextOutboundTunnel] with its [break]. *)
Fixpoint next_outbound_loop (heap : gmap positive Tunnel) (ind : Z)
    (l : list positive) (tunnel : option positive) (i : Z)
  : option (option positive) :=
  match l with
  | [] => Some tunnel
  | it :: rest =>
      t ← heap !! it;
      let '(tunnel1, i1) :=
        if IsEstablished t then (Some it, uint32 (i + 1)) else (tunnel, i) in
      if (ind <? i1) && bool_decide (is_Some tunnel1) then Some tunnel1
      else next_outbound_loop heap ind rest tunnel1 i1
  end.

(** [Tunnels::GetNextOutboundTunnel]: [r] is the value [m_Rng ()] returns. *)
Definition GetNextOutboundTunnel (heap : gmap positive Tunnel)
    (m_OutboundTunnels : list positive) (r : Z) : option (option positive) :=
  match m_OutboundTunnels with
  | [] => Some None
  | _ =>
      let ind := uint32 (r mod Z.of_nat (length m_OutboundTunnels)) in
      next_outbound_loop heap ind m_OutboundTunnels None 0
  end.

(** The deadline test of a pending tunnel, as written in
    [ManagePendingTunnels]: [ts] is a [uint64_t] and both sums are taken
    modulo 2^64 (TunnelBase.h with the type of the creation time is not
    among the sources; below 2^32 the sums are the same in 32 bits). *)
Definition creation_timed_out (ts : Z) (t : Tunnel) : bool :=
  (uint64 (GetCreationTime t + TUNNEL_CREATION_TIMEOUT) <? ts)
  || (uint64 (ts + TUNNEL_CREATION_TIMEOUT) <? GetCreationTime t).

(** The [while (hop)] loop that reports the hops of a timed out build. *)
Fixpoint non_replied_events (hs : list TunnelHopConfig) : list ProfileEvent :=
  match hs with
  | [] => []
  | hop :: rest =>
      match ident hop with
      | Some i => (GetIdentHash i, TunnelNonReplied) :: non_replied_events rest
      | None => non_replied_events rest
      end
  end.

Record Counters := {
  m_TotalNumSuccesiveTunnelCreations : Z;
  m_TotalNumFailedTunnelCreations : Z
}.

(** Modelled from the spec: [FailedTunnelCreation] and
    [SuccesiveTunnelCreation] (Tunnel.h) increment the failure and the
    success counter. *)
Definition FailedTunnelCreation (c : Counters) : Counters :=
  {| m_TotalNumSuccesiveTunnelCreations := m_TotalNumSuccesiveTunnelCreations c;
     m_TotalNumFailedTunnelCreations := m_TotalNumFailedTunnelCreations c + 1 |}.

Definition SuccesiveTunnelCreation (c : Counters) : Counters :=
  {| m_TotalNumSuccesiveTunnelCreations := m_TotalNumSuccesiveTunnelCreations c + 1;
     m_TotalNumFailedTunnelCreations := m_TotalNumFailedTunnelCreations c |}.

(** [Tunnels::ManagePendingTunnels (pendingTunnels, ts)]: the result is the
    map afterwards, the counters and the profile events sent. *)
Fixpoint ManagePendingTunnels (heap : gmap positive Tunnel)
    (pendingTunnels : list (Z * positive)) (ts : Z) (c : Counters)
  : option (list (Z * positive) * Counters * list ProfileEvent) :=
  match pendingTunnels with
  | [] => Some ([], c, [])
  | it :: rest =>
      tunnel ← heap !! snd it;
      match GetState tunnel with
      | eTunnelStatePending =>
          if creation_timed_out ts tunnel then
            let evs :=
              match GetTunnelConfig tunnel with
              | Some config => non_replied_events (hops config)
              | None => []
              end in
            '(m, c', evs') ← ManagePendingTunnels heap rest ts (FailedTunnelCreation c);
            Some (m, c', evs ++ evs')
          else
            '(m, c', evs') ← ManagePendingTunnels heap rest ts c;
            Some (it :: m, c', evs')
      | eTunnelStateBuildFailed =>
          ManagePendingTunnels heap rest ts (FailedTunnelCreation c)
      | eTunnelStateBuildReplyReceived =>
          '(m, c', evs') ← ManagePendingTunnels heap rest ts c;
          Some (it :: m, c', evs')
      | _ =>
          ManagePendingTunnels heap rest ts (SuccesiveTunnelCreation c)
      end
  end.

(** ** The maintenance schedules of [Tunnels::Run] *)

Inductive MaintenanceTask :=
| ManageTunnels (ts : Z)
| ManageTunnelPools (ts : Z)
| CleanUpMemoryPools.

(** The test [ts - last >= interval || ts + interval < last] on
    [uint64_t] timestamps. *)
Definition schedule_due (interval ts last : Z) : bool :=
  (uint64 interval <=? uint64 (ts - last))
  || (uint64 (ts + uint64 interval) <? last).

Record Schedules := {
  lastTs : Z;
  lastPoolsTs : Z;
  lastMemoryPoolTs : Z
}.

(** The block of [Run] after the queue was served: [online] is
    [transports.IsOnline ()] and [ts] the value of
    [GetSecondsSinceEpoch ()].  The result is the three timestamps
    afterwards and the tasks run, in order. *)
Definition periodic_maintenance (online : bool) (ts : Z) (s : Schedules)
  : Schedules * list MaintenanceTask :=
  if online then
    let '(l1, t1) :=
      if schedule_due TUNNEL_MANAGE_INTERVAL ts (lastTs s)
      then (ts, [ManageTunnels ts]) else (lastTs s, []) in
    let '(l2, t2) :=
      if schedule_due TUNNEL_POOLS_MANAGE_INTERVAL ts (lastPoolsTs s)
      then (ts, [ManageTunnelPools ts]) else (lastPoolsTs s, []) in
    let '(l3, t3) :=
      if schedule_due TUNNEL_MEMORY_POOL_MANAGE_INTERVAL ts (lastMemoryPoolTs s)
      then (ts, [CleanUpMemoryPools]) else (lastMemoryPoolTs s, []) in
    ({| lastTs := l1; lastPoolsTs := l2; lastMemoryPoolTs := l3 |}, t1 ++ t2 ++ t3)
  else (s, []).

(** ** Notions used to state the properties *)

(** The event a hop with return code [c] gives: one for a hop with an
    identity, none for a hop without. *)
Definition hop_response_event (hc : TunnelHopConfig * byte) : option ProfileEvent :=
  i ← ident (fst hc); Some (GetIdentHash i, TunnelBuildResponse (snd hc)).

Definition accepts (c : byte) : bool := byte_to_Z c =? 0.

(** The runtime hop made from a hop of the build configuration. *)
Definition runtime_hop (hop : TunnelHopConfig) : TunnelHop :=
  {| hop_ident := ident hop;
     decryption := {| dec_layerKey := layerKey hop; dec_ivKey := ivKey hop |} |}.

(** The event a hop of a timed out build gives. *)
Definition hop_non_replied (hop : TunnelHopConfig) : option ProfileEvent :=
  i ← ident hop; Some (GetIdentHash i, TunnelNonReplied).

(** The hops a pending tunnel still knows: those of its configuration. *)
Definition config_hops (t : Tunnel) : list TunnelHopConfig :=
  match GetTunnelConfig t with
  | Some config => hops config
  | None => []
  end.

(** The deadline of a pending build on unbounded integers: [ts] is past
    the creation time by more than the timeout, or the clock went back
    before the creation time by more than the timeout. *)
Definition deadline_passed (ts created : Z) : bool :=
  (created + TUNNEL_CREATION_TIMEOUT <? ts)
  || (ts + TUNNEL_CREATION_TIMEOUT <? created).

(** What the sweep of the pending map does with a tunnel. *)
Definition build_timed_out (ts : Z) (t : Tunnel) : bool :=
  bool_decide (GetState t = eTunnelStatePending)
  && deadline_passed ts (GetCreationTime t).

Definition sweep_keeps (ts : Z) (t : Tunnel) : bool :=
  bool_decide (GetState t = eTunnelStateBuildReplyReceived)
  || (bool_decide (GetState t = eTunnelStatePending)
      && negb (deadline_passed ts (GetCreationTime t))).

Definition sweep_fails (ts : Z) (t : Tunnel) : bool :=
  bool_decide (GetState t = eTunnelStateBuildFailed) || build_timed_out ts t.

Definition sweep_succeeds (t : Tunnel) : bool :=
  bool_decide (GetState t <> eTunnelStatePending)
  && bool_decide (GetState t <> eTunnelStateBuildFailed)
  && bool_decide (GetState t <> eTunnelStateBuildReplyReceived).

(** A property of the tunnel a map entry points to. *)
Definition pointee (heap : gmap positive Tunnel) (f : Tunnel -> bool)
    (it : Z * positive) : bool :=
  match heap !! snd it with
  | Some t => f t
  | None => false
  end.

Definition sweep_events (heap : gmap positive Tunnel) (ts : Z)
    (it : Z * positive) : list ProfileEvent :=
  match heap !! snd it with
  | Some t => if build_timed_out ts t then omap hop_non_replied (config_hops t) else []
  | None => []
  end.

(** The established tunnels of the outbound list, in list order. *)
Definition established_tunnels (heap : gmap positive Tunnel)
    (l : list positive) : list positive :=
  List.filter (fun p => match heap !! p with Some t => IsEstablished t | None => false end) l.

(** The number of residues of [m_Rng ()] modulo the size of the outbound
    list for which [GetNextOutboundTunnel] returns the tunnel [p]. *)
Definition residues_selecting (heap : gmap positive Tunnel)
    (l : list positive) (p : positive) : nat :=
  length (List.filter
            (fun r => bool_decide (GetNextOutboundTunnel heap l (Z.of_nat r) = Some (Some p)))
            (seq 0 (length l))).

(** A schedule is due on unbounded integers: the interval has passed since
    [last], or the clock is behind [last]. *)
Definition interval_passed_or_clock_behind (interval ts last : Z) : Prop :=
  ts - last >= interval \/ ts < last.

(** A map entry points to a live tunnel whose creation time is a
    timestamp in range. *)
Definition live_entry (heap : gmap positive Tunnel) (it : Z * positive) : Prop :=
  exists t, heap !! snd it = Some t
            /\ 0 <= GetCreationTime t
            /\ GetCreationTime t + TUNNEL_CREATION_TIMEOUT < 2 ^ 32.

(** The reply message id handed to hop number [k] of [n] (counting from
    0) when [RAND_bytes] has delivered [pos] bytes before: the caller's id
    for the last hop, four fresh bytes for each hop before it. *)
Definition request_id (r : Z) (pos n k : nat) : Z :=
  if (k =? n - 1)%nat then r else uint32_of_bytes (RAND_bytes (pos + 4 * k) 4).

Definition request_ids (r : Z) (pos n : nat) : list Z :=
  map (request_id r pos n) (seq 0 n).

(** Every index of the vector addresses a slot of the record area. *)
Definition indices_in_area (recordIndicies : list Z) (recs : list (list byte)) : Prop :=
  Forall (fun idx => 0 <= idx < Z.of_nat (length recs)) recordIndicies.

(** The hops whose record index addresses a slot of the record area. *)
Definition hops_in_area (hs : list TunnelHopConfig) (recs : list (list byte)) : Prop :=
  Forall (fun hop => 0 <= recordIndex hop < Z.of_nat (length recs)) hs.

(** The number of records of a build message for a configuration, the
    fresh message [Build] takes for it and the shuffled index vector. *)
Definition num_records (cfg : TunnelConfig) : Z :=
  if GetNumHops cfg <=? STANDARD_NUM_RECORDS then STANDARD_NUM_RECORDS else MAX_NUM_RECORDS.

Definition new_message (cfg : TunnelConfig) : I2NPMessage :=
  if num_records cfg <=? STANDARD_NUM_RECORDS then NewI2NPShortMessage else NewI2NPMessage.

Definition shuffled_indices (rng : Z) (cfg : TunnelConfig) : list Z :=
  std_shuffle rng (map Z.of_nat (seq 0 (Z.to_nat (num_records cfg)))).

(** ** Example inputs *)

Definition example_hop (hash : N) (idx : Z) : TunnelHopConfig :=
  {| ident := Some {| GetIdentHash := hash |};
     nextIdent := N.succ hash; nextTunnelID := 100;
     layerKey := [byte_of_Z (Z.of_N hash)]; ivKey := [x02]; replyKey := [x03];
     recordIndex := idx |}.

(** Three hops A, B, C in traversal order with the record indices 1, 0
    and 2. *)
Definition example_config : TunnelConfig :=
  {| hops := [example_hop 10 1; example_hop 11 0; example_hop 12 2];
     IsShort := true; GetFarEndTransports := 3 |}.

Definition example_tunnel (state : TunnelState) (created : Z) : Tunnel :=
  {| m_Config := Some example_config; m_Hops := [];
     m_IsShortBuildMessage := false; m_State := state;
     m_FarEndTransports := eAllTransports; m_CreationTime := created |}.

Definition example_established : Tunnel :=
  {| m_Config := None;
     m_Hops := map runtime_hop (rev (hops example_config));
     m_IsShortBuildMessage := true; m_State := eTunnelStateEstablished;
     m_FarEndTransports := 3; m_CreationTime := 1000 |}.

(** Record transformations for the examples: the request record holds the
    low byte of the reply message id, the layer transform reverses a
    record, every reply record verifies and the return code is the first
    byte of the record. *)
Definition example_RequestRecord (hop : TunnelHopConfig) (msgID : Z) : list byte :=
  [byte_of_Z msgID].
Definition example_LayerDecrypt (hop : TunnelHopConfig) (r : list byte) : list byte :=
  rev r.
Definition example_ResponseDecrypt (hop : TunnelHopConfig) (r : list byte)
  : option (list byte) := Some r.
Definition example_RetCode (hop : TunnelHopConfig) (r : list byte) : byte :=
  match r with b :: _ => b | [] => x00 end.

Definition example_short_message : I2NPMessage :=
  {| len := 16; payload0 := x00; records := [[]; []; []; []] |}.
Definition example_message : I2NPMessage :=
  {| len := 16; payload0 := x00; records := [[]; []; []; []; []; []; []; []] |}.
Definition example_entropy (n : nat) : byte := byte_of_Z (Z.of_nat n).
Definition example_shuffle (g : Z) (l : list Z) : list Z := rev l.

(** Configurations outside the range of hop counts [Build] is written
    for: no hop, and nine hops. *)
Definition example_config_of (n : nat) : TunnelConfig :=
  {| hops := map (fun k => example_hop (N.of_nat k) 0) (seq 0 n);
     IsShort := true; GetFarEndTransports := 3 |}.

Definition example_tunnel_of (n : nat) : Tunnel :=
  {| m_Config := Some (example_config_of n); m_Hops := [];
     m_IsShortBuildMessage := false; m_State := eTunnelStatePending;
     m_FarEndTransports := eAllTransports; m_CreationTime := 1000 |}.

(** A reply of four records in which every hop accepts, and one in which
    hop C declines with code 30. *)
Definition example_accepted : list (list byte) := [[x00]; [x00]; [x00]; [x07]].
Definition example_declined : list (list byte) := [[x00]; [x00]; [x1e]; [x07]].

(** A store of three tunnels, the first two established, and the outbound
    list and a pending map that hold them. *)
Definition example_heap : gmap positive Tunnel :=
  <[1%positive := example_tunnel eTunnelStateEstablished 1000]>
    (<[2%positive := example_tunnel eTunnelStateEstablished 1000]>
       (<[3%positive := example_tunnel eTunnelStatePending 1000]> ∅)).

Definition example_outbound : list positive := [1%positive; 2%positive; 3%positive].

Definition example_pending_heap : gmap positive Tunnel :=
  <[1%positive := example_tunnel eTunnelStatePending 1000]>
    (<[2%positive := example_tunnel eTunnelStateBuildReplyReceived 1000]>
       (<[3%positive := example_tunnel eTunnelStateEstablished 1000]> ∅)).

Definition example_pending : list (Z * positive) :=
  [(7, 1%positive); (8, 2%positive); (9, 3%positive)].

Definition example_counters : Counters :=
  {| m_TotalNumSuccesiveTunnelCreations := 0; m_TotalNumFailedTunnelCreations := 0 |}.

Definition example_schedules : Schedules :=
  {| lastTs := 100; lastPoolsTs := 100; lastMemoryPoolTs := 100 |}.

(** * The rest of Tunnel.cpp: definitions *)

(** ** Tunnel objects in full, pools and the registry *)

(** Constants of Tunnel.h the functions below use; the spec gives no values
    for them. *)
Variable TUNNEL_EXPIRATION_TIMEOUT : Z.
Variable TUNNEL_RECREATION_THRESHOLD : Z.
Variable TUNNEL_EXPIRATION_THRESHOLD : Z.

(** The layer cipher of a runtime hop, [TunnelDecryption::Decrypt] (Crypto.cpp,
    not among the sources), as a function of the keys it holds and the
    payload. *)
Variable Decrypt : TunnelDecryption -> list byte -> list byte.

(** Modelled from the spec: the members of a tunnel object that the record
    [Tunnel] leaves out (TunnelBase.h and Tunnel.h are not among the
    sources): the tunnel id, the direction (the dynamic type, [InboundTunnel]
    or [OutboundTunnel]), the pool back-reference ([None] for [nullptr]), the
    recreated flag and the count of received bytes.  They are kept in a
    second store under the address of the object. *)
Record TunnelMembers := {
  m_TunnelID : Z;
  m_IsInbound : bool;
  m_Pool : option positive;
  m_IsRecreated : bool;
  m_NumReceivedBytes : Z
}.

Definition GetTunnelID (mb : TunnelMembers) : Z := m_TunnelID mb.
Definition GetTunnelPool (mb : TunnelMembers) : option positive := m_Pool mb.
Definition IsRecreated (mb : TunnelMembers) : bool := m_IsRecreated mb.
Definition GetNumReceivedBytes (mb : TunnelMembers) : Z := m_NumReceivedBytes mb.

Definition SetTunnelPool (mb : TunnelMembers) (pool : option positive) : TunnelMembers :=
  {| m_TunnelID := m_TunnelID mb; m_IsInbound := m_IsInbound mb; m_Pool := pool;
     m_IsRecreated := m_IsRecreated mb; m_NumReceivedBytes := m_NumReceivedBytes mb |}.

Definition SetRecreated (mb : TunnelMembers) (recreated : bool) : TunnelMembers :=
  {| m_TunnelID := m_TunnelID mb; m_IsInbound := m_IsInbound mb; m_Pool := m_Pool mb;
     m_IsRecreated := recreated; m_NumReceivedBytes := m_NumReceivedBytes mb |}.

Definition IsFailed (t : Tunnel) : bool :=
  bool_decide (m_State t = eTunnelStateFailed).

(** [Tunnel::GetNumHops]: the size of [m_Hops]. *)
Definition Tunnel_GetNumHops (t : Tunnel) : Z := Z.of_nat (length (m_Hops t)).

(** Modelled from the spec: what [Tunnel.cpp] reads of a pool
    ([IsActive ()], [GetNumInboundHops ()], [GetNumOutboundHops ()] and
    [GetLocalDestination ()], [None] for [nullptr]). *)
Record TunnelPool := {
  IsActive : bool;
  GetNumInboundHops : Z;
  GetNumOutboundHops : Z;
  GetLocalDestination : option positive
}.

(** The calls [Tunnel.cpp] makes into a pool, each with the pool and the
    tunnel it passes, and into the local destination of a pool.
    TunnelPool.cpp is not among the sources: a call is recorded, what the
    pool does in it is outside this development. *)
Inductive PoolCall :=
| TunnelCreated (pool tunnel : positive)
| TunnelExpired (pool tunnel : positive)
| RecreateInboundTunnel (pool tunnel : positive)
| RecreateOutboundTunnel (pool tunnel : positive)
| SetLeaseSetUpdated (dest : positive).

(** The state of [Tunnels] the functions below work on: the stores of
    tunnel objects and pools, the registry [m_Tunnels] from tunnel id to
    tunnel, the two lists and the two pending maps. *)
Record Tunnels := {
  tunnel_store : gmap positive Tunnel;
  member_store : gmap positive TunnelMembers;
  pool_store : gmap positive TunnelPool;
  m_Tunnels : gmap Z positive;
  m_InboundTunnels : list positive;
  m_OutboundTunnels : list positive;
  m_PendingInboundTunnels : list (Z * positive);
  m_PendingOutboundTunnels : list (Z * positive)
}.

Definition set_tunnel_store (s : Tunnels) (h : gmap positive Tunnel) : Tunnels :=
  {| tunnel_store := h; member_store := member_store s; pool_store := pool_store s;
     m_Tunnels := m_Tunnels s; m_InboundTunnels := m_InboundTunnels s;
     m_OutboundTunnels := m_OutboundTunnels s;
     m_PendingInboundTunnels := m_PendingInboundTunnels s;
     m_PendingOutboundTunnels := m_PendingOutboundTunnels s |}.

Definition set_member_store (s : Tunnels) (h : gmap positive TunnelMembers) : Tunnels :=
  {| tunnel_store := tunnel_store s; member_store := h; pool_store := pool_store s;
     m_Tunnels := m_Tunnels s; m_InboundTunnels := m_InboundTunnels s;
     m_OutboundTunnels := m_OutboundTunnels s;
     m_PendingInboundTunnels := m_PendingInboundTunnels s;
     m_PendingOutboundTunnels := m_PendingOutboundTunnels s |}.

Definition set_m_Tunnels (s : Tunnels) (m : gmap Z positive) : Tunnels :=
  {| tunnel_store := tunnel_store s; member_store := member_store s;
     pool_store := pool_store s;
     m_Tunnels := m; m_InboundTunnels := m_InboundTunnels s;
     m_OutboundTunnels := m_OutboundTunnels s;
     m_PendingInboundTunnels := m_PendingInboundTunnels s;
     m_PendingOutboundTunnels := m_PendingOutboundTunnels s |}.

Definition set_m_InboundTunnels (s : Tunnels) (l : list positive) : Tunnels :=
  {| tunnel_store := tunnel_store s; member_store := member_store s;
     pool_store := pool_store s;
     m_Tunnels := m_Tunnels s; m_InboundTunnels := l;
     m_OutboundTunnels := m_OutboundTunnels s;
     m_PendingInboundTunnels := m_PendingInboundTunnels s;
     m_PendingOutboundTunnels := m_PendingOutboundTunnels s |}.

Definition set_m_OutboundTunnels (s : Tunnels) (l : list positive) : Tunnels :=
  {| tunnel_store := tunnel_store s; member_store := member_store s;
     pool_store := pool_store s;
     m_Tunnels := m_Tunnels s; m_InboundTunnels := m_InboundTunnels s;
     m_OutboundTunnels := l;
     m_PendingInboundTunnels := m_PendingInboundTunnels s;
     m_PendingOutboundTunnels := m_PendingOutboundTunnels s |}.

Definition set_m_PendingInboundTunnels (s : Tunnels) (m : list (Z * positive)) : Tunnels :=
  {| tunnel_store := tunnel_store s; member_store := member_store s;
     pool_store := pool_store s;
     m_Tunnels := m_Tunnels s; m_InboundTunnels := m_InboundTunnels s;
     m_OutboundTunnels := m_OutboundTunnels s;
     m_PendingInboundTunnels := m;
     m_PendingOutboundTunnels := m_PendingOutboundTunnels s |}.

Definition set_m_PendingOutboundTunnels (s : Tunnels) (m : list (Z * positive)) : Tunnels :=
  {| tunnel_store := tunnel_store s; member_store := member_store s;
     pool_store := pool_store s;
     m_Tunnels := m_Tunnels s; m_InboundTunnels := m_InboundTunnels s;
     m_OutboundTunnels := m_OutboundTunnels s;
     m_PendingInboundTunnels := m_PendingInboundTunnels s;
     m_PendingOutboundTunnels := m |}.

(** An object behind a pointer: both halves of it. *)
Definition object (heap : gmap positive Tunnel) (members : gmap positive TunnelMembers)
    (l : positive) : option (Tunnel * TunnelMembers) :=
  t ← heap !! l; mb ← members !! l; Some (t, mb).

(** ** Tunnels::GetTunnel, AddTunnel, RemoveTunnel *)

Definition GetTunnel (s : Tunnels) (tunnelID : Z) : option positive :=
  m_Tunnels s !! tunnelID.

(** [m_Tunnels.emplace (id, tunnel).second]: nothing is stored when the id
    is taken. *)
Definition AddTunnel (s : Tunnels) (tunnel : option positive) : option (bool * Tunnels) :=
  match tunnel with
  | None => Some (false, s)
  | Some l =>
      mb ← member_store s !! l;
      match m_Tunnels s !! GetTunnelID mb with
      | Some _ => Some (false, s)
      | None => Some (true, set_m_Tunnels s (<[GetTunnelID mb := l]> (m_Tunnels s)))
      end
  end.

Definition RemoveTunnel (s : Tunnels) (tunnelID : Z) : Tunnels :=
  set_m_Tunnels s (delete tunnelID (m_Tunnels s)).

(** ** Tunnels::GetNextInboundTunnel *)

Fixpoint next_inbound_loop (heap : gmap positive Tunnel)
    (members : gmap positive TunnelMembers) (l : list positive)
    (tunnel : option positive) (minReceived : Z) : option (option positive) :=
  match l with
  | [] => Some tunnel
  | it :: rest =>
      '(t, mb) ← object heap members it;
      if negb (IsEstablished t) then next_inbound_loop heap members rest tunnel minReceived
      else if negb (bool_decide (is_Some tunnel)) || (GetNumReceivedBytes mb <? minReceived)
           then next_inbound_loop heap members rest (Some it) (GetNumReceivedBytes mb)
           else next_inbound_loop heap members rest tunnel minReceived
  end.

Definition GetNextInboundTunnel (s : Tunnels) : option (option positive) :=
  next_inbound_loop (tunnel_store s) (member_store s) (m_InboundTunnels s) None 0.

(** ** Tunnels::AddPendingTunnel, GetPendingOutboundTunnel *)

(** [m[k] = v] on a [std::map], the map being the list of its entries in
    key order. *)
Fixpoint map_assign (k : Z) (v : positive) (m : list (Z * positive)) : list (Z * positive) :=
  match m with
  | [] => [(k, v)]
  | (k', v') :: rest =>
      if k <? k' then (k, v) :: m
      else if k =? k' then (k, v) :: rest
      else (k', v') :: map_assign k v rest
  end.

(** The two overloads of [AddPendingTunnel], told apart by the type of the
    tunnel. *)
Definition AddPendingInboundTunnel (s : Tunnels) (replyMsgID : Z) (tunnel : positive) : Tunnels :=
  set_m_PendingInboundTunnels s (map_assign replyMsgID tunnel (m_PendingInboundTunnels s)).

Definition AddPendingOutboundTunnel (s : Tunnels) (replyMsgID : Z) (tunnel : positive) : Tunnels :=
  set_m_PendingOutboundTunnels s (map_assign replyMsgID tunnel (m_PendingOutboundTunnels s)).

Definition GetPendingOutboundTunnel (s : Tunnels) (replyMsgID : Z)
  : option (option positive * Tunnels) :=
  '(tunnel, heap) ← GetPendingTunnel replyMsgID (m_PendingOutboundTunnels s) (tunnel_store s);
  Some (tunnel, set_tunnel_store s heap).

Definition GetPendingInboundTunnel (s : Tunnels) (replyMsgID : Z)
  : option (option positive * Tunnels) :=
  '(tunnel, heap) ← GetPendingTunnel replyMsgID (m_PendingInboundTunnels s) (tunnel_store s);
  Some (tunnel, set_tunnel_store s heap).

(** ** Tunnels::AddOutboundTunnel and HandleTunnelBuildReplyMsg *)

Definition AddOutboundTunnel (s : Tunnels) (newTunnel : positive)
  : option (Tunnels * list PoolCall) :=
  let s1 := set_m_OutboundTunnels s (m_OutboundTunnels s ++ [newTunnel]) in
  mb ← member_store s1 !! newTunnel;
  match GetTunnelPool mb with
  | Some pool =>
      p ← pool_store s1 !! pool;
      if IsActive p then Some (s1, [TunnelCreated pool newTunnel])
      else Some (set_member_store s1 (<[newTunnel := SetTunnelPool mb None]> (member_store s1)), [])
  | None =>
      Some (set_member_store s1 (<[newTunnel := SetTunnelPool mb None]> (member_store s1)), [])
  end.

(** [Tunnels::HandleTunnelBuildReplyMsg (msg, isShort)]: [msgID] is
    [msg->GetMsgID ()], [msg0] and [recs] the payload and [len] its length.
    The result is the state afterwards, the profile events and the calls
    into pools. *)
Definition HandleTunnelBuildReplyMsg (s : Tunnels) (msgID : Z) (msg0 : byte)
    (recs : list (list byte)) (len : Z)
  : option (Tunnels * list ProfileEvent * list PoolCall) :=
  '(tunnel, s1) ← GetPendingOutboundTunnel s msgID;
  match tunnel with
  | Some l =>
      t ← tunnel_store s1 !! l;
      '(ok, t', evs) ← HandleTunnelBuildResponse t msg0 recs len;
      if ok : bool then
        let s2 := set_tunnel_store s1
                    (<[l := SetState t' eTunnelStateEstablished]> (tunnel_store s1)) in
        '(s3, calls) ← AddOutboundTunnel s2 l;
        Some (s3, evs, calls)
      else
        Some (set_tunnel_store s1
                (<[l := SetState t' eTunnelStateBuildFailed]> (tunnel_store s1)), evs, [])
  | None => Some (s1, [], [])
  end.

(** ** Notions used to state the properties of the registry *)

(** The count of received bytes of the tunnel behind a pointer. *)
Definition received_bytes (members : gmap positive TunnelMembers) (l : positive) : Z :=
  match members !! l with
  | Some mb => GetNumReceivedBytes mb
  | None => 0
  end.

(** Every pointer of a list leads to an object. *)
Definition live_tunnels (heap : gmap positive Tunnel)
    (members : gmap positive TunnelMembers) (l : list positive) : Prop :=
  Forall (fun p => is_Some (object heap members p)) l.

(** One step of the choice of the least loaded tunnel: a candidate replaces
    the current choice when there is none or when it has received strictly
    fewer bytes. *)
Definition least_loaded_step (members : gmap positive TunnelMembers)
    (cur : option positive) (q : positive) : option positive :=
  match cur with
  | None => Some q
  | Some p => if received_bytes members q <? received_bytes members p then Some q else cur
  end.

(** The invariant of a [std::map] seen as the list of its entries: the keys
    increase strictly. *)
Fixpoint increasing_keys (m : list (Z * positive)) : Prop :=
  match m with
  | [] => True
  | e :: rest => Forall (fun e' => fst e < fst e') rest /\ increasing_keys rest
  end.

(** The pool a tunnel reports to when it is added to a list: its pool, if it
    has one and the pool is active. *)
Definition active_pool (s : Tunnels) (mb : TunnelMembers) : option positive :=
  match GetTunnelPool mb with
  | Some pool =>
      match pool_store s !! pool with
      | Some p => if IsActive p then Some pool else None
      | None => None
      end
  | None => None
  end.

(** ** Tunnels::ManageOutboundTunnels and ManageInboundTunnels: the sweeps *)

(** The expiry test of both sweeps and their two threshold tests, as
    written: [ts] is a [uint64_t] and the sums are taken modulo 2^64, as
    for [creation_timed_out]. *)
Definition expiration_passed (ts : Z) (t : Tunnel) : bool :=
  (uint64 (GetCreationTime t + TUNNEL_EXPIRATION_TIMEOUT) <? ts)
  || (uint64 (ts + TUNNEL_EXPIRATION_TIMEOUT) <? GetCreationTime t).

Definition threshold_reached (threshold ts : Z) (t : Tunnel) : bool :=
  uint64 (GetCreationTime t + TUNNEL_EXPIRATION_TIMEOUT) <? uint64 (ts + threshold).

(** What a sweep does besides changing the state: the calls into pools
    and, for inbound tunnels, [tunnel->Cleanup ()] (the endpoint it cleans
    is not modelled, the call is recorded). *)
Inductive SweepCall :=
| CallPool (c : PoolCall)
| CallCleanup (tunnel : positive).

(** The number of hops a pool asks for in one direction. *)
Definition pool_hops (inbound : bool) (pl : TunnelPool) : Z :=
  if inbound then GetNumInboundHops pl else GetNumOutboundHops pl.

(** The [for] loop of [ManageOutboundTunnels] ([inbound = false]) and of
    [ManageInboundTunnels] ([inbound = true]) over the rest [l] of the list.
    The two loops are the same text but for three places: the inbound one
    calls [RemoveTunnel] when it erases a tunnel, compares the hops with
    [GetNumInboundHops] and calls [Cleanup] on an established tunnel it
    does not mark.  The result is the state, the tunnels left in the list,
    [toRecreate] and the calls made. *)
Fixpoint sweep_loop (inbound : bool) (ts : Z) (s : Tunnels) (l : list positive)
    (toRecreate : list positive)
  : option (Tunnels * list positive * list positive * list SweepCall) :=
  match l with
  | [] => Some (s, [], toRecreate, [])
  | tunnel :: rest =>
      '(t, mb) ← object (tunnel_store s) (member_store s) tunnel;
      if IsFailed t || expiration_passed ts t then
        let calls :=
          match GetTunnelPool mb with
          | Some pool => [CallPool (TunnelExpired pool tunnel)]
          | None => []
          end in
        let s1 := if inbound then RemoveTunnel s (GetTunnelID mb) else s in
        '(s', kept, toRecreate', calls') ← sweep_loop inbound ts s1 rest toRecreate;
        Some (s', kept, toRecreate', calls ++ calls')
      else if IsEstablished t then
        toRecreate1 ←
          (if negb (IsRecreated mb) && threshold_reached TUNNEL_RECREATION_THRESHOLD ts t
           then match GetTunnelPool mb with
                | Some pool =>
                    pl ← pool_store s !! pool;
                    Some (if Tunnel_GetNumHops t =? pool_hops inbound pl
                          then toRecreate ++ [tunnel] else toRecreate)
                | None => Some toRecreate
                end
           else Some toRecreate);
        let '(s1, calls) :=
          if threshold_reached TUNNEL_EXPIRATION_THRESHOLD ts t
          then (set_tunnel_store s
                  (<[tunnel := SetState t eTunnelStateExpiring]> (tunnel_store s)), [])
          else (s, if inbound then [CallCleanup tunnel] else []) in
        '(s', kept, toRecreate', calls') ← sweep_loop inbound ts s1 rest toRecreate1;
        Some (s', tunnel :: kept, toRecreate', calls ++ calls')
      else
        '(s', kept, toRecreate', calls') ← sweep_loop inbound ts s rest toRecreate;
        Some (s', tunnel :: kept, toRecreate', calls')
  end.

(** [ManageOutboundTunnels], lines 822-851: the loop over
    [m_OutboundTunnels].  What follows it in the function asks the network
    database for a router and is not part of the model. *)
Definition ManageOutboundTunnels_sweep (s : Tunnels) (ts : Z) (toRecreate : list positive)
  : option (Tunnels * list positive * list SweepCall) :=
  '(s', kept, toRecreate', calls) ← sweep_loop false ts s (m_OutboundTunnels s) toRecreate;
  Some (set_m_OutboundTunnels s' kept, toRecreate', calls).

(** [ManageInboundTunnels], lines 871-903: the loop over
    [m_InboundTunnels]. *)
Definition ManageInboundTunnels_sweep (s : Tunnels) (ts : Z) (toRecreate : list positive)
  : option (Tunnels * list positive * list SweepCall) :=
  '(s', kept, toRecreate', calls) ← sweep_loop true ts s (m_InboundTunnels s) toRecreate;
  Some (set_m_InboundTunnels s' kept, toRecreate', calls).

(** ** Tunnel::Recreate and the recreation loop of ManageTunnels *)

(** [InboundTunnel::Recreate] and [OutboundTunnel::Recreate], chosen by
    the dynamic type of the tunnel. *)
Definition Recreate (members : gmap positive TunnelMembers) (tunnel : positive)
  : option (bool * gmap positive TunnelMembers * list PoolCall) :=
  mb ← members !! tunnel;
  if negb (IsRecreated mb) then
    match GetTunnelPool mb with
    | Some pool =>
        Some (true, <[tunnel := SetRecreated mb true]> members,
              [if m_IsInbound mb then RecreateInboundTunnel pool tunnel
               else RecreateOutboundTunnel pool tunnel])
    | None => Some (false, members, [])
    end
  else Some (false, members, []).

(** [for (auto& it: tunnelsToRecreate) it->Recreate ();] *)
Fixpoint recreate_loop (members : gmap positive TunnelMembers) (l : list positive)
  : option (gmap positive TunnelMembers * list PoolCall) :=
  match l with
  | [] => Some (members, [])
  | it :: rest =>
      '(_, members1, calls) ← Recreate members it;
      '(members2, calls') ← recreate_loop members1 rest;
      Some (members2, calls ++ calls')
  end.

(** ** Notions used to state the properties of the sweeps *)

(** The expiry of a tunnel on unbounded integers: [ts] is past the
    creation time by more than [TUNNEL_EXPIRATION_TIMEOUT], or the clock
    went back before the creation time by more than that. *)
Definition expired (ts : Z) (t : Tunnel) : bool :=
  (GetCreationTime t + TUNNEL_EXPIRATION_TIMEOUT <? ts)
  || (ts + TUNNEL_EXPIRATION_TIMEOUT <? GetCreationTime t).

(** The tunnel has less than [threshold] left to live at [ts]. *)
Definition expires_within (threshold ts : Z) (t : Tunnel) : bool :=
  GetCreationTime t + TUNNEL_EXPIRATION_TIMEOUT <? ts + threshold.

Definition swept (ts : Z) (t : Tunnel) : bool := IsFailed t || expired ts t.

Definition marked_expiring (ts : Z) (t : Tunnel) : bool :=
  negb (swept ts t) && IsEstablished t
  && expires_within TUNNEL_EXPIRATION_THRESHOLD ts t.

Definition pool_wants (inbound : bool) (pools : gmap positive TunnelPool)
    (t : Tunnel) (mb : TunnelMembers) : bool :=
  match GetTunnelPool mb with
  | Some pool =>
      match pools !! pool with
      | Some pl => Tunnel_GetNumHops t =? pool_hops inbound pl
      | None => false
      end
  | None => false
  end.

Definition recreation_due (inbound : bool) (ts : Z) (pools : gmap positive TunnelPool)
    (t : Tunnel) (mb : TunnelMembers) : bool :=
  negb (swept ts t) && IsEstablished t && negb (IsRecreated mb)
  && expires_within TUNNEL_RECREATION_THRESHOLD ts t && pool_wants inbound pools t mb.

(** The calls a sweep makes for one tunnel. *)
Definition sweep_calls (inbound : bool) (ts : Z) (tunnel : positive)
    (t : Tunnel) (mb : TunnelMembers) : list SweepCall :=
  if swept ts t then
    match GetTunnelPool mb with
    | Some pool => [CallPool (TunnelExpired pool tunnel)]
    | None => []
    end
  else if inbound && IsEstablished t
          && negb (expires_within TUNNEL_EXPIRATION_THRESHOLD ts t)
       then [CallCleanup tunnel] else [].

(** A property of the object behind a pointer, [d] where there is none. *)
Definition of_object {A : Type} (s : Tunnels) (f : Tunnel -> TunnelMembers -> A) (d : A)
    (p : positive) : A :=
  match object (tunnel_store s) (member_store s) p with
  | Some (t, mb) => f t mb
  | None => d
  end.

(** The objects a sweep may meet: each pointer of the list leads to a
    tunnel whose creation time is a timestamp in range and whose pool, if
    it has one, exists. *)
Definition sweepable (s : Tunnels) (p : positive) : Prop :=
  exists t mb,
    object (tunnel_store s) (member_store s) p = Some (t, mb)
    /\ 0 <= GetCreationTime t
    /\ GetCreationTime t + TUNNEL_EXPIRATION_TIMEOUT < 2 ^ 32
    /\ (forall pool, GetTunnelPool mb = Some pool -> is_Some (pool_store s !! pool)).

(** The tunnel after a sweep. *)
Definition mark_expiring (ts : Z) (t : Tunnel) : Tunnel :=
  if marked_expiring ts t then SetState t eTunnelStateExpiring else t.

(** The outputs of a sweep of the list [l], read off the state [s] before
    it: the tunnels left, the tunnels queued for recreation, the calls, and
    whether the tunnel id [id] belongs to a tunnel the sweep erases. *)
Definition sweep_kept (ts : Z) (s : Tunnels) (l : list positive) : list positive :=
  List.filter (of_object s (fun t _ => negb (swept ts t)) false) l.

Definition sweep_queued (inbound : bool) (ts : Z) (s : Tunnels) (l : list positive)
  : list positive :=
  List.filter (of_object s (recreation_due inbound ts (pool_store s)) false) l.

Definition sweep_called (inbound : bool) (ts : Z) (s : Tunnels) (l : list positive)
  : list SweepCall :=
  flat_map (fun p => of_object s (sweep_calls inbound ts p) [] p) l.

Definition sweep_erases_id (ts : Z) (s : Tunnels) (l : list positive) (id : Z) : bool :=
  existsb (of_object s (fun t mb => swept ts t && (GetTunnelID mb =? id)) false) l.

(** The members of a tunnel after [Recreate] and the call [Recreate]
    makes for the tunnel behind [q]. *)
Definition recreated (mb : TunnelMembers) : TunnelMembers :=
  if negb (IsRecreated mb) && bool_decide (is_Some (GetTunnelPool mb))
  then SetRecreated mb true else mb.

Definition recreate_calls (members : gmap positive TunnelMembers) (q : positive)
  : list PoolCall :=
  match members !! q with
  | Some mb =>
      if IsRecreated mb then []
      else match GetTunnelPool mb with
           | Some pool => [if m_IsInbound mb then RecreateInboundTunnel pool q
                           else RecreateOutboundTunnel pool q]
           | None => []
           end
  | None => []
  end.

(** A tunnel a sweep at [ts] leaves established: not failed, not expired,
    established and with at least [TUNNEL_EXPIRATION_THRESHOLD] left. *)
Definition fresh_at (ts : Z) (t : Tunnel) : bool :=
  negb (swept ts t) && IsEstablished t
  && negb (expires_within TUNNEL_EXPIRATION_THRESHOLD ts t).

(** ** Tunnel::EncryptTunnelMsg, VisitTunnelHops and InboundTunnel::HandleTunnelDataMsg *)

(** The loop of [EncryptTunnelMsg] over the rest of [m_Hops]: the first
    hop reads [inPayload], every later one works on [outPayload] in place.
    A payload is what follows the four bytes of the tunnel id. *)
Fixpoint encrypt_loop (hs : list TunnelHop) (inPayload outPayload : list byte)
  : list byte :=
  match hs with
  | [] => outPayload
  | it :: rest =>
      let outPayload := Decrypt (decryption it) inPayload in
      encrypt_loop rest outPayload outPayload
  end.

(** [Tunnel::EncryptTunnelMsg (in, out)]: the payload of [out] afterwards. *)
Definition EncryptTunnelMsg (t : Tunnel) (inPayload outPayload : list byte) : list byte :=
  encrypt_loop (m_Hops t) inPayload outPayload.

(** [Tunnel::VisitTunnelHops (v)]: the visitor [v] threads a state of its
    own through the calls. *)
Definition VisitTunnelHops {S : Type} (t : Tunnel)
    (v : option IdentityEx -> S -> S) (st : S) : S :=
  fold_left (fun st it => v (hop_ident it) st) (rev (m_Hops t)) st.

(** [InboundTunnel::HandleTunnelDataMsg (msg)].  The result is the state
    afterwards, the calls made and the payload handed to
    [m_Endpoint.HandleDecryptedTunnelDataMsg]. *)
Definition HandleTunnelDataMsg (s : Tunnels) (tunnel : positive) (payload : list byte)
  : option (Tunnels * list PoolCall * list byte) :=
  '(t, mb) ← object (tunnel_store s) (member_store s) tunnel;
  '(t1, calls) ←
    (if negb (IsEstablished t) && negb (bool_decide (GetState t = eTunnelStateExpiring))
     then
       calls ←
         match GetTunnelPool mb with
         | Some pool =>
             pl ← pool_store s !! pool;
             Some (match GetLocalDestination pl with
                   | Some dest => [SetLeaseSetUpdated dest]
                   | None => []
                   end)
         | None => Some []
         end;
       Some (SetState t eTunnelStateEstablished, calls)
     else Some (t, []));
  Some (set_tunnel_store s (<[tunnel := t1]> (tunnel_store s)), calls,
        EncryptTunnelMsg t1 payload payload).

(** The keys of a hop of the build configuration as a layer cipher. *)
Definition hop_keys (hop : TunnelHopConfig) : TunnelDecryption :=
  {| dec_layerKey := layerKey hop; dec_ivKey := ivKey hop |}.

(** ** Sending through zero-hops tunnels and the tunnel gateway *)

(** Header sizes of I2NPProtocol.h, which is not among the sources. *)
Variable I2NP_HEADER_SIZE : Z.
Variable TUNNEL_GATEWAY_HEADER_SIZE : Z.

(** Modelled from the spec: an I2NP message as the functions below see it,
    its window [offset], [len] into the buffer (both [size_t]; [GetLength ()]
    is [len - offset]) and the 16-bit length field that
    [bufbe16toh (payload + TUNNEL_GATEWAY_HEADER_LENGTH_OFFSET)] reads. *)
Record Message := {
  msg_offset : Z;
  msg_len : Z;
  gateway_length : Z
}.

Definition GetLength (msg : Message) : Z := uint64 (msg_len msg - msg_offset msg).

Inductive TunnelDeliveryType :=
| eDeliveryTypeLocal
| eDeliveryTypeTunnel
| eDeliveryTypeRouter.

(** A [TunnelMessageBlock]; a field that was never assigned is [None] (for
    [data] also the null pointer), and reading an unassigned [hash] or
    [tunnelID] is undefined. *)
Record TunnelMessageBlock := {
  deliveryType : TunnelDeliveryType;
  hash : option IdentHash;
  tunnelID : option Z;
  data : option Message
}.

(** What leaves a zero-hops tunnel: a message handled locally, or sent to a
    router as it is or wrapped by [CreateTunnelGatewayMsg]. *)
Inductive Delivery :=
| HandleI2NPMessage (msg : Message)
| SendMessage (to : IdentHash) (msg : Message)
| SendTunnelGatewayMsg (to : IdentHash) (tunnelID : Z) (msg : Message).

(** [OutboundTunnel::SendTunnelDataMsgTo]: the block it hands to
    [SendTunnelDataMsgs]. *)
Definition SendTunnelDataMsgTo_block (gwHash : option IdentHash) (gwTunnel : Z)
    (msg : option Message) : TunnelMessageBlock :=
  match gwHash with
  | Some h =>
      if negb (gwTunnel =? 0)
      then {| deliveryType := eDeliveryTypeTunnel; hash := Some h;
              tunnelID := Some gwTunnel; data := msg |}
      else {| deliveryType := eDeliveryTypeRouter; hash := Some h;
              tunnelID := None; data := msg |}
  | None =>
      {| deliveryType := eDeliveryTypeLocal; hash := None; tunnelID := None; data := msg |}
  end.

(** [ZeroHopsOutboundTunnel::SendTunnelDataMsgs]: the counter
    [m_NumSentBytes] afterwards and the deliveries in order. *)
Fixpoint ZeroHopsOutboundTunnel_SendTunnelDataMsgs (m_NumSentBytes : Z)
    (msgs : list TunnelMessageBlock) : option (Z * list Delivery) :=
  match msgs with
  | [] => Some (m_NumSentBytes, [])
  | msg :: rest =>
      match data msg with
      | None => ZeroHopsOutboundTunnel_SendTunnelDataMsgs m_NumSentBytes rest
      | Some d =>
          let m_NumSentBytes := uint64 (m_NumSentBytes + GetLength d) in
          delivery ←
            match deliveryType msg with
            | eDeliveryTypeLocal => Some (HandleI2NPMessage d)
            | eDeliveryTypeTunnel =>
                h ← hash msg; id ← tunnelID msg; Some (SendTunnelGatewayMsg h id d)
            | eDeliveryTypeRouter =>
                h ← hash msg; Some (SendMessage h d)
            end;
          '(n, ds) ← ZeroHopsOutboundTunnel_SendTunnelDataMsgs m_NumSentBytes rest;
          Some (n, delivery :: ds)
      end
  end.

(** [SendTunnelDataMsgTo] on a zero-hops outbound tunnel. *)
Definition ZeroHopsOutboundTunnel_SendTunnelDataMsgTo (m_NumSentBytes : Z)
    (gwHash : option IdentHash) (gwTunnel : Z) (msg : option Message)
  : option (Z * list Delivery) :=
  ZeroHopsOutboundTunnel_SendTunnelDataMsgs m_NumSentBytes
    [SendTunnelDataMsgTo_block gwHash gwTunnel msg].

(** [ZeroHopsInboundTunnel::SendTunnelDataMsg]: the counter
    [m_NumReceivedBytes] afterwards and the message handled. *)
Definition ZeroHopsInboundTunnel_SendTunnelDataMsg (m_NumReceivedBytes : Z)
    (msg : option Message) : Z * list Delivery :=
  match msg with
  | Some d => (uint64 (m_NumReceivedBytes + GetLength d), [HandleI2NPMessage d])
  | None => (m_NumReceivedBytes, [])
  end.

(** [Tunnels::HandleTunnelGatewayMsg (tunnel, msg)]: the message afterwards
    and, when it is made, the call [tunnel->SendTunnelDataMsg (msg)]. *)
Definition HandleTunnelGatewayMsg (tunnel : option positive) (msg : Message)
  : Message * option (positive * Message) :=
  match tunnel with
  | None => (msg, None)
  | Some tunnel =>
      let len := gateway_length msg in
      let msg1 := {| msg_offset := uint64 (msg_offset msg + uint64 (I2NP_HEADER_SIZE
                                                              + TUNNEL_GATEWAY_HEADER_SIZE));
                     msg_len := msg_len msg; gateway_length := gateway_length msg |} in
      if msg_len msg1 <? uint64 (msg_offset msg1 + len) then (msg1, None)
      else
        let msg2 := {| msg_offset := msg_offset msg1;
                       msg_len := uint64 (msg_offset msg1 + len);
                       gateway_length := gateway_length msg |} in
        (msg2, Some (tunnel, msg2))
  end.

(** The bytes the blocks of a batch carry. *)
Definition batch_bytes (msgs : list TunnelMessageBlock) : Z :=
  fold_right (fun msg acc => match data msg with
                             | Some d => GetLength d + acc
                             | None => acc
                             end) 0 msgs.

(** The blocks of a batch that carry a message. *)
Definition with_data (msgs : list TunnelMessageBlock) : list TunnelMessageBlock :=
  List.filter (fun msg => bool_decide (is_Some (data msg))) msgs.

(** A block as [SendTunnelDataMsgTo] builds it and any block whose
    delivery type has the fields it needs. *)
Definition well_formed_block (msg : TunnelMessageBlock) : Prop :=
  match deliveryType msg with
  | eDeliveryTypeLocal => True
  | eDeliveryTypeTunnel => is_Some (hash msg) /\ is_Some (tunnelID msg)
  | eDeliveryTypeRouter => is_Some (hash msg)
  end.

(** The delivery of a block that carries the message [d]. *)
Definition delivery_of (msg : TunnelMessageBlock) (d : Message) : option Delivery :=
  match deliveryType msg with
  | eDeliveryTypeLocal => Some (HandleI2NPMessage d)
  | eDeliveryTypeTunnel =>
      h ← hash msg; id ← tunnelID msg; Some (SendTunnelGatewayMsg h id d)
  | eDeliveryTypeRouter => h ← hash msg; Some (SendMessage h d)
  end.

(** ** Tunnels::CreateTunnel *)

(** The constructor [Tunnel::Tunnel (config)]; the creation time is set by
    the constructor of [TunnelBase] to the time [now] of the call. *)
Definition Tunnel_ctor (config : TunnelConfig) (now : Z) : Tunnel :=
  {| m_Config := Some config; m_Hops := [];
     m_IsShortBuildMessage := false; m_State := eTunnelStatePending;
     m_FarEndTransports := eAllTransports; m_CreationTime := now |}.

(** [Tunnels::CreateTunnel<TTunnel> (config, pool, outboundTunnel)] up to
    the sending of the build message: [newTunnel] is the address
    [make_shared] returns, [id] the tunnel id the configuration gives,
    [inbound] tells [TTunnel], [rng] and [pos] are as in [Build].  The
    result is the state afterwards and what [Build] made. *)
Definition CreateTunnel (inbound : bool) (s : Tunnels) (newTunnel : positive)
    (config : TunnelConfig) (id now : Z) (pool : option positive) (rng : Z) (pos : nat)
  : option (Tunnels * BuildOutput) :=
  let mb := {| m_TunnelID := id; m_IsInbound := inbound; m_Pool := None;
               m_IsRecreated := false; m_NumReceivedBytes := 0 |} in
  let s1 := set_member_store
              (set_tunnel_store s (<[newTunnel := Tunnel_ctor config now]> (tunnel_store s)))
              (<[newTunnel := SetTunnelPool mb pool]> (member_store s)) in
  let replyMsgID := uint32_of_bytes (RAND_bytes pos 4) in
  let s2 := if inbound then AddPendingInboundTunnel s1 replyMsgID newTunnel
            else AddPendingOutboundTunnel s1 replyMsgID newTunnel in
  t ← tunnel_store s2 !! newTunnel;
  '(t', out) ← Build t replyMsgID rng (pos + 4);
  Some (set_tunnel_store s2 (<[newTunnel := t']> (tunnel_store s2)), out).

(** ** Tunnels::AddInboundTunnel and the build messages of inbound tunnels *)

(** The constructor of [TunnelConfig] that [AddInboundTunnel] calls for the
    symmetric outbound tunnel (TunnelConfig.h, not among the sources), as a
    function of the inbound tunnel, which gives the next tunnel id and the
    next ident hash, and of its inverted peers. *)
Variable symmetric_TunnelConfig : positive -> list (option IdentityEx) -> TunnelConfig.

(** What [AddInboundTunnel] needs for the tunnel it may create: the address
    and the id of the new tunnel, the time, the state of the generator of
    [std::shuffle], the position in the stream of [RAND_bytes] and the
    value [m_Rng ()] gives to [GetNextOutboundTunnel]. *)
Record Creation := {
  new_address : positive;
  new_id : Z;
  new_time : Z;
  shuffle_state : Z;
  rand_pos : nat;
  rng_value : Z
}.

(** [Tunnels::AddInboundTunnel (newTunnel)]: the state afterwards, the
    calls into pools and what [Build] made if a symmetric outbound tunnel
    was created. *)
Definition AddInboundTunnel (s : Tunnels) (newTunnel : positive) (c : Creation)
  : option (Tunnels * list PoolCall * option BuildOutput) :=
  '(added, s1) ← AddTunnel s (Some newTunnel);
  if added : bool then
    let s2 := set_m_InboundTunnels s1 (m_InboundTunnels s1 ++ [newTunnel]) in
    '(t, mb) ← object (tunnel_store s2) (member_store s2) newTunnel;
    match GetTunnelPool mb with
    | None =>
        outboundTunnel ← GetNextOutboundTunnel (tunnel_store s2) (m_OutboundTunnels s2)
                           (rng_value c);
        '(s3, out) ← CreateTunnel false s2 (new_address c)
                       (symmetric_TunnelConfig newTunnel (GetInvertedPeers t))
                       (new_id c) (new_time c) None (shuffle_state c) (rand_pos c);
        Some (s3, [], Some out)
    | Some pool =>
        p ← pool_store s2 !! pool;
        if IsActive p then Some (s2, [TunnelCreated pool newTunnel], None)
        else Some (set_member_store s2
                     (<[newTunnel := SetTunnelPool mb None]> (member_store s2)), [], None)
    end
  else Some (s1, [], None).

(** What a build message does when it is not the reply of a pending
    inbound tunnel: it is passed to the transit tunnels. *)
Inductive BuildMsgRoute :=
| InboundReply
| PostTransitTunnelBuildMsg.

(** [Tunnels::HandleVariableTunnelBuildMsg (msg)]; the message is given as
    in [HandleTunnelBuildReplyMsg]. *)
Definition HandleVariableTunnelBuildMsg (s : Tunnels) (msgID : Z) (msg0 : byte)
    (recs : list (list byte)) (len : Z) (c : Creation)
  : option (Tunnels * list ProfileEvent * list PoolCall * option BuildOutput
            * BuildMsgRoute) :=
  '(tunnel, s1) ← GetPendingInboundTunnel s msgID;
  match tunnel with
  | Some l =>
      t ← tunnel_store s1 !! l;
      '(ok, t', evs) ← HandleTunnelBuildResponse t msg0 recs len;
      if ok : bool then
        let s2 := set_tunnel_store s1
                    (<[l := SetState t' eTunnelStateEstablished]> (tunnel_store s1)) in
        '(s3, calls, out) ← AddInboundTunnel s2 l c;
        Some (s3, evs, calls, out, InboundReply)
      else
        Some (set_tunnel_store s1
                (<[l := SetState t' eTunnelStateBuildFailed]> (tunnel_store s1)),
              evs, [], None, InboundReply)
  | None => Some (s1, [], [], None, PostTransitTunnelBuildMsg)
  end.

(** [Tunnels::HandleShortTunnelBuildMsg (msg)]: the same but for the test
    of [msg]; [None] is the null pointer. *)
Definition HandleShortTunnelBuildMsg (s : Tunnels)
    (msg : option (Z * byte * list (list byte) * Z)) (c : Creation)
  : option (Tunnels * list ProfileEvent * list PoolCall * option BuildOutput
            * option BuildMsgRoute) :=
  match msg with
  | None => Some (s, [], [], None, None)
  | Some (msgID, msg0, recs, len) =>
      '(s', evs, calls, out, route) ← HandleVariableTunnelBuildMsg s msgID msg0 recs len c;
      Some (s', evs, calls, out, Some route)
  end.

(** ** Tunnels::CreateZeroHopsInboundTunnel, CreateZeroHopsOutboundTunnel *)

(** Modelled from the spec: the configuration of a zero-hops tunnel has no
    hops (TunnelConfig.h is not among the sources). *)
Definition ZeroHopsTunnelConfig : TunnelConfig :=
  {| hops := []; IsShort := false; GetFarEndTransports := eAllTransports |}.

(** [inboundTunnel] is the address [make_shared] returns, [id] the tunnel
    id of the new configuration. *)
Definition CreateZeroHopsInboundTunnel (s : Tunnels) (inboundTunnel : positive)
    (id now : Z) (pool : option positive) : option Tunnels :=
  let mb := {| m_TunnelID := id; m_IsInbound := true; m_Pool := None;
               m_IsRecreated := false; m_NumReceivedBytes := 0 |} in
  let t := SetState (Tunnel_ctor ZeroHopsTunnelConfig now) eTunnelStateEstablished in
  let s1 := set_member_store
              (set_tunnel_store s (<[inboundTunnel := t]> (tunnel_store s)))
              (<[inboundTunnel := SetTunnelPool mb pool]> (member_store s)) in
  let s2 := set_m_InboundTunnels s1 (m_InboundTunnels s1 ++ [inboundTunnel]) in
  '(_, s3) ← AddTunnel s2 (Some inboundTunnel);
  Some s3.

Definition CreateZeroHopsOutboundTunnel (s : Tunnels) (outboundTunnel : positive)
    (id now : Z) (pool : option positive) : Tunnels :=
  let mb := {| m_TunnelID := id; m_IsInbound := false; m_Pool := None;
               m_IsRecreated := false; m_NumReceivedBytes := 0 |} in
  let t := SetState (Tunnel_ctor ZeroHopsTunnelConfig now) eTunnelStateEstablished in
  let s1 := set_member_store
              (set_tunnel_store s (<[outboundTunnel := t]> (tunnel_store s)))
              (<[outboundTunnel := SetTunnelPool mb pool]> (member_store s)) in
  set_m_OutboundTunnels s1 (m_OutboundTunnels s1 ++ [outboundTunnel]).

(** ** Tunnels::SetMaxNumTransitTunnels *)

(** The new value of [m_MaxNumTransitTunnels]; the argument is a
    [uint32_t]. *)
Definition SetMaxNumTransitTunnels (m_MaxNumTransitTunnels maxNumTransitTunnels : Z) : Z :=
  if (0 <? maxNumTransitTunnels)
     && negb (m_MaxNumTransitTunnels =? maxNumTransitTunnels)
  then maxNumTransitTunnels else m_MaxNumTransitTunnels.

(** ** Tunnels::ManagePendingTunnels (ts) *)

(** The overload that sweeps both pending maps, the inbound one first. *)
Definition ManagePendingTunnels_both (s : Tunnels) (ts : Z) (c : Counters)
  : option (Tunnels * Counters * list ProfileEvent) :=
  '(inbound, c1, evs1) ←
    ManagePendingTunnels (tunnel_store s) (m_PendingInboundTunnels s) ts c;
  '(outbound, c2, evs2) ←
    ManagePendingTunnels (tunnel_store s) (m_PendingOutboundTunnels s) ts c1;
  Some (set_m_PendingOutboundTunnels (set_m_PendingInboundTunnels s inbound) outbound,
        c2, evs1 ++ evs2).

(** ** Tunnels::Run: the dispatch of queued messages *)

Variable MAX_TUNNEL_MSGS_BATCH_SIZE : Z.

(** Modelled from the spec: the message types the loop tells apart
    (I2NPProtocol.h is not among the sources); [eI2NPOther] stands for every
    other type id. *)
Inductive I2NPMessageType :=
| eI2NPTunnelData
| eI2NPTunnelGateway
| eI2NPShortTunnelBuild
| eI2NPVariableTunnelBuild
| eI2NPShortTunnelBuildReply
| eI2NPVariableTunnelBuildReply
| eI2NPTunnelBuild
| eI2NPTunnelBuildReply
| eI2NPOther (typeID : Z).

(** A queued message: its type, the tunnel id
    [bufbe32toh (msg->GetPayload ())] and a name for the message itself. *)
Record QueuedMessage := {
  GetTypeID : I2NPMessageType;
  payload_tunnelID : Z;
  message_name : positive
}.

(** The calls the loop makes, in order. *)
Inductive DispatchCall :=
| CallGetTunnel (tunnelID : Z)
| CallFlushTunnelDataMsgs (tunnel : positive)
| CallHandleTunnelDataMsg (tunnel : positive) (msg : QueuedMessage)
| CallHandleTunnelGatewayMsg (tunnel : positive) (msg : QueuedMessage)
| CallHandleShortTunnelBuildMsg (msg : QueuedMessage)
| CallHandleVariableTunnelBuildMsg (msg : QueuedMessage)
| CallHandleTunnelBuildReplyMsg (msg : QueuedMessage) (isShort : bool)
| CallGetWholeQueue.

(** The registry [m_Tunnels] after a handler has run; the handlers are
    calls here, whatever they do to the registry is this function. *)
Variable registry_after : DispatchCall -> gmap Z positive -> gmap Z positive.

(** The variables of the loop that live across messages. *)
Record DispatchState := {
  numMsgs : Z;
  prevTunnelID : Z;
  cur_tunnelID : Z;
  prevTunnel : option positive;
  registry : gmap Z positive
}.

(** One message that is not null: the calls made, the state afterwards and
    [tunnel]. *)
Definition dispatch_message (msg : QueuedMessage) (st : DispatchState)
  : list DispatchCall * DispatchState * option positive :=
  let typeID := GetTypeID msg in
  let '(calls, tunnelID, tunnel, reg) :=
    match typeID with
    | eI2NPTunnelData | eI2NPTunnelGateway =>
        let tunnelID := payload_tunnelID msg in
        let '(tunnel, calls1) :=
          if tunnelID =? prevTunnelID st then (prevTunnel st, [])
          else match prevTunnel st with
               | Some p => (None, [CallFlushTunnelDataMsgs p])
               | None => (None, [])
               end in
        let '(tunnel, calls2) :=
          match tunnel with
          | None => (registry st !! tunnelID, [CallGetTunnel tunnelID])
          | Some _ => (tunnel, [])
          end in
        match tunnel with
        | Some t =>
            let call := match typeID with
                        | eI2NPTunnelData => CallHandleTunnelDataMsg t msg
                        | _ => CallHandleTunnelGatewayMsg t msg
                        end in
            (calls1 ++ calls2 ++ [call], tunnelID, tunnel, registry_after call (registry st))
        | None => (calls1 ++ calls2, tunnelID, tunnel, registry st)
        end
    | eI2NPShortTunnelBuild =>
        let call := CallHandleShortTunnelBuildMsg msg in
        ([call], cur_tunnelID st, None, registry_after call (registry st))
    | eI2NPVariableTunnelBuild =>
        let call := CallHandleVariableTunnelBuildMsg msg in
        ([call], cur_tunnelID st, None, registry_after call (registry st))
    | eI2NPShortTunnelBuildReply =>
        let call := CallHandleTunnelBuildReplyMsg msg true in
        ([call], cur_tunnelID st, None, registry_after call (registry st))
    | eI2NPVariableTunnelBuildReply =>
        let call := CallHandleTunnelBuildReplyMsg msg false in
        ([call], cur_tunnelID st, None, registry_after call (registry st))
    | eI2NPTunnelBuild | eI2NPTunnelBuildReply | eI2NPOther _ =>
        ([], cur_tunnelID st, None, registry st)
    end in
  (calls,
   {| numMsgs := numMsgs st + 1; prevTunnelID := tunnelID; cur_tunnelID := tunnelID;
      prevTunnel := tunnel; registry := reg |},
   tunnel).

(** The loop [while (!msgs.empty ())] of [Run], lines 556-611.  [msgs] is
    the list at hand, [None] a null message; [later] lists what the queue
    holds each time the loop looks at it, the empty list when it holds
    nothing.  The result is the calls in order. *)
Fixpoint dispatch_loop (later : list (list (option QueuedMessage)))
    (msgs : list (option QueuedMessage)) (st : DispatchState) {struct later}
  : list DispatchCall :=
  (fix inner (msgs : list (option QueuedMessage)) (st : DispatchState) {struct msgs}
     : list DispatchCall :=
     match msgs with
     | [] => []
     | None :: rest => inner rest st
     | Some msg :: rest =>
         let '(calls, st1, tunnel) := dispatch_message msg st in
         match rest with
         | [] =>
             let flush := match tunnel with
                          | Some t => [CallFlushTunnelDataMsgs t]
                          | None => []
                          end in
             match later with
             | [] => calls ++ flush
             | [] :: _ => calls ++ flush
             | more :: later' =>
                 if numMsgs st1 <? MAX_TUNNEL_MSGS_BATCH_SIZE
                 then calls ++ CallGetWholeQueue :: dispatch_loop later' more st1
                 else calls ++ flush
             end
         | _ :: _ => calls ++ inner rest st1
         end
     end) msgs st.

(** The state at the start of the loop. *)
Definition dispatch_start (reg : gmap Z positive) : DispatchState :=
  {| numMsgs := 0; prevTunnelID := 0; cur_tunnelID := 0; prevTunnel := None;
     registry := reg |}.

(** A run of tunnel messages for one tunnel id, and the calls the loop is
    to make for a run whose id is registered to [tunnel]: one lookup, one
    handler call for each message and one flush. *)
Definition tunnel_message (m : QueuedMessage) : bool :=
  match GetTypeID m with
  | eI2NPTunnelData | eI2NPTunnelGateway => true
  | _ => false
  end.

Definition handler_call (tunnel : positive) (m : QueuedMessage) : DispatchCall :=
  match GetTypeID m with
  | eI2NPTunnelData => CallHandleTunnelDataMsg tunnel m
  | _ => CallHandleTunnelGatewayMsg tunnel m
  end.

Definition run_calls (run : Z * positive * list QueuedMessage) : list DispatchCall :=
  let '(id, tunnel, ms) := run in
  CallGetTunnel id :: map (handler_call tunnel) ms ++ [CallFlushTunnelDataMsgs tunnel].

Definition run_messages (run : Z * positive * list QueuedMessage)
  : list (option QueuedMessage) :=
  map Some (snd run).

(** A run is well formed for a registry: it is not empty, its messages are
    tunnel messages that carry the id of the run, and the id is registered
    to the tunnel of the run. *)
Definition run_ok (reg : gmap Z positive) (run : Z * positive * list QueuedMessage) : Prop :=
  let '(id, tunnel, ms) := run in
  ms <> [] /\ reg !! id = Some tunnel
  /\ Forall (fun m => tunnel_message m = true /\ payload_tunnelID m = id) ms.

(** Neighbouring runs have different ids. *)
Fixpoint ids_change (runs : list (Z * positive * list QueuedMessage)) : Prop :=
  match runs with
  | r1 :: ((r2 :: _) as rest) => fst (fst r1) <> fst (fst r2) /\ ids_change rest
  | _ => True
  end.

(** The rest of the loop after a message that was handed to [tunnel]: the
    flush of the tunnel if no message is left, the loop otherwise. *)
Definition continue_or_flush (tunnel : positive) (msgs : list (option QueuedMessage))
    (st : DispatchState) : list DispatchCall :=
  match msgs with
  | [] => [CallFlushTunnelDataMsgs tunnel]
  | _ :: _ => dispatch_loop [] msgs st
  end.

(** The state inside a run for [id]: the last message had this id and was
    handed to [tunnel]. *)
Definition in_run (reg : gmap Z positive) (id : Z) (tunnel : positive)
    (st : DispatchState) : Prop :=
  prevTunnelID st = id /\ prevTunnel st = Some tunnel /\ registry st = reg.

(** The flush of the tunnel of the last message that a change of id
    causes. *)
Definition prev_flush (st : DispatchState) : list DispatchCall :=
  match prevTunnel st with
  | Some p => [CallFlushTunnelDataMsgs p]
  | None => []
  end.

(** The handlers of tunnel data and tunnel gateway messages leave the
    registry as it is. *)
Definition handlers_keep_registry : Prop :=
  forall (t : positive) (m : QueuedMessage) (r : gmap Z positive),
    registry_after (CallHandleTunnelDataMsg t m) r = r
    /\ registry_after (CallHandleTunnelGatewayMsg t m) r = r.


(** The call the loop makes for a message that is not a tunnel message:
    the handler of a build message or of a build reply, none for a message
    it only logs. *)
Definition other_call (m : QueuedMessage) : list DispatchCall :=
  match GetTypeID m with
  | eI2NPShortTunnelBuild => [CallHandleShortTunnelBuildMsg m]
  | eI2NPVariableTunnelBuild => [CallHandleVariableTunnelBuildMsg m]
  | eI2NPShortTunnelBuildReply => [CallHandleTunnelBuildReplyMsg m true]
  | eI2NPVariableTunnelBuildReply => [CallHandleTunnelBuildReplyMsg m false]
  | _ => []
  end.

(** ** Example inputs for the registry *)

Definition example_members (id : Z) (inbound : bool) (pool : option positive)
    (received : Z) : TunnelMembers :=
  {| m_TunnelID := id; m_IsInbound := inbound; m_Pool := pool;
     m_IsRecreated := false; m_NumReceivedBytes := received |}.

(** An active pool that asks for three inbound hops and for tunnels
    without hops outbound. *)
Definition example_pool : TunnelPool :=
  {| IsActive := true; GetNumInboundHops := 3; GetNumOutboundHops := 0;
     GetLocalDestination := Some 9%positive |}.

(** Seven tunnels created at 1000: 1 outbound and established, 2 inbound
    and established, 3 outbound and pending under the reply id 7, 4 inbound
    and failed, 5 inbound, established and with three runtime hops, 6
    inbound, established and not yet listed, 7 inbound and pending under
    the reply id 8.  All but 4 belong to the pool. *)
Definition example_state : Tunnels :=
  {| tunnel_store :=
       <[1%positive := example_tunnel eTunnelStateEstablished 1000]>
         (<[2%positive := example_tunnel eTunnelStateEstablished 1000]>
            (<[3%positive := example_tunnel eTunnelStatePending 1000]>
               (<[4%positive := example_tunnel eTunnelStateFailed 1000]>
                  (<[5%positive := example_established]>
                     (<[6%positive := example_tunnel eTunnelStateEstablished 1000]>
                        (<[7%positive := example_tunnel eTunnelStatePending 1000]> ∅))))));
     member_store :=
       <[1%positive := example_members 101 false (Some 1%positive) 50]>
         (<[2%positive := example_members 102 true (Some 1%positive) 20]>
            (<[3%positive := example_members 103 false (Some 1%positive) 0]>
               (<[4%positive := example_members 104 true None 0]>
                  (<[5%positive := example_members 105 true (Some 1%positive) 10]>
                     (<[6%positive := example_members 106 true (Some 1%positive) 0]>
                        (<[7%positive := example_members 107 true (Some 1%positive) 0]>
                           ∅))))));
     pool_store := <[1%positive := example_pool]> ∅;
     m_Tunnels := <[102 := 2%positive]> (<[104 := 4%positive]> (<[105 := 5%positive]> ∅));
     m_InboundTunnels := [2%positive; 4%positive; 5%positive];
     m_OutboundTunnels := [1%positive];
     m_PendingInboundTunnels := [(8, 7%positive)];
     m_PendingOutboundTunnels := [(7, 3%positive)] |}.

(** The registry before any tunnel exists. *)
Definition example_empty_state : Tunnels :=
  {| tunnel_store := ∅; member_store := ∅; pool_store := ∅; m_Tunnels := ∅;
     m_InboundTunnels := []; m_OutboundTunnels := [];
     m_PendingInboundTunnels := []; m_PendingOutboundTunnels := [] |}.

(** The events of the accepted reply of the example. *)
Definition example_accepted_events : list ProfileEvent :=
  [(10%N, TunnelBuildResponse x00); (11%N, TunnelBuildResponse x00);
   (12%N, TunnelBuildResponse x00)].

(** A layer cipher for the examples: it puts the layer key in front of the
    payload. *)
Definition example_Decrypt (d : TunnelDecryption) (p : list byte) : list byte :=
  dec_layerKey d ++ p.

Definition example_creation : Creation :=
  {| new_address := 9%positive; new_id := 109; new_time := 1000;
     shuffle_state := 0; rand_pos := 0%nat; rng_value := 0 |}.

Definition example_symmetric_TunnelConfig (tunnel : positive)
    (peers : list (option IdentityEx)) : TunnelConfig := example_config.

(** A gateway message of 100 bytes at offset 2 that announces 50 bytes,
    and a batch of three blocks of which the second carries no message. *)
Definition example_gateway_message : Message :=
  {| msg_offset := 2; msg_len := 100; gateway_length := 50 |}.

Definition example_batch : list TunnelMessageBlock :=
  [ {| deliveryType := eDeliveryTypeLocal; hash := None; tunnelID := None;
       data := Some example_gateway_message |};
    {| deliveryType := eDeliveryTypeTunnel; hash := None; tunnelID := None;
       data := None |};
    {| deliveryType := eDeliveryTypeTunnel; hash := Some 12%N; tunnelID := Some 5;
       data := Some example_gateway_message |} ].

(** Two runs of tunnel messages, for the tunnels registered under 102 and
    105, a build message, and handlers of which only those of build
    messages change the registry. *)
Definition example_queued (type : I2NPMessageType) (id : Z) (name : positive)
  : QueuedMessage :=
  {| GetTypeID := type; payload_tunnelID := id; message_name := name |}.

Definition example_runs : list (Z * positive * list QueuedMessage) :=
  [ (102, 2%positive, [example_queued eI2NPTunnelData 102 1;
                       example_queued eI2NPTunnelGateway 102 2]);
    (105, 5%positive, [example_queued eI2NPTunnelData 105 3]) ].

Definition example_registry_after (call : DispatchCall) (reg : gmap Z positive)
  : gmap Z positive :=
  match call with
  | CallHandleShortTunnelBuildMsg _ | CallHandleVariableTunnelBuildMsg _ =>
      <[200 := 8%positive]> reg
  | _ => reg
  end.

(** * Properties *)

Lemma byte_to_Z_range b : 0 <= byte_to_Z b < 256.
Proof.
  unfold byte_to_Z. pose proof (Byte.to_N_bounded b). lia.
Qed.

Lemma uint8_small x : 0 <= x < 256 -> uint8 x = x.
Proof. intros H. unfold uint8. apply Z.mod_small. lia. Qed.

Lemma byte_to_Z_of_Z x : byte_to_Z (byte_of_Z x) = uint8 x.
Proof.
  unfold byte_of_Z, byte_to_Z.
  assert (Hr : 0 <= uint8 x < 256).
  { unfold uint8. change (2 ^ 8) with 256. apply Z.mod_pos_bound. lia. }
  destruct (Byte.of_N (Z.to_N (uint8 x))) as [b|] eqn:E.
  - apply Byte.to_of_N in E. rewrite E. lia.
  - apply Byte.of_N_None_iff in E. lia.
Qed.

(** ** GetPeers and GetInvertedPeers *)

Lemma swap_ends {A} (pre mid post : list A) (x y : A) :
  <[length pre := y]>
    (<[(length pre + S (length mid))%nat := x]> (pre ++ x :: mid ++ y :: post))
  = pre ++ y :: mid ++ x :: post.
Proof.
  assert (H1 : <[(length pre + S (length mid))%nat := x]> (pre ++ x :: mid ++ y :: post)
               = pre ++ x :: mid ++ x :: post).
  { rewrite insert_app_r. f_equal. change (x :: <[length mid := x]> (mid ++ y :: post) = x :: mid ++ x :: post).
    f_equal. replace (length mid) with (length mid + 0)%nat by lia.
    rewrite insert_app_r. reflexivity. }
  rewrite H1.
  replace (length pre) with (length pre + 0)%nat by lia.
  rewrite insert_app_r. reflexivity.
Qed.

Lemma std_reverse_aux_spec {A} (fuel : nat) :
  forall pre mid post : list A,
    (length mid <= 2 * fuel)%nat ->
    std_reverse_aux fuel (length pre) (pred (length pre + length mid))
      (pre ++ mid ++ post) = pre ++ rev mid ++ post.
Proof.
  induction fuel as [|fuel IH]; intros pre mid post Hlen.
  - destruct mid; [reflexivity | simpl in Hlen; lia].
  - destruct mid as [|x mid].
    + simpl. rewrite Nat.add_0_r.
      destruct (length pre <? pred (length pre))%nat eqn:E; [|reflexivity].
      apply Nat.ltb_lt in E. lia.
    + destruct mid as [|y mid _] using rev_ind.
      * simpl. replace (pred (length pre + 1)) with (length pre) by lia.
        rewrite Nat.ltb_irrefl. reflexivity.
      * cbn [std_reverse_aux].
        assert (Hj : pred (length pre + length (x :: mid ++ [y]))
                     = (length pre + S (length mid))%nat).
        { simpl. rewrite length_app. simpl. lia. }
        rewrite Hj.
        assert (Hlt : (length pre <? length pre + S (length mid))%nat = true)
          by (apply Nat.ltb_lt; lia).
        rewrite Hlt.
        assert (Hv : pre ++ (x :: mid ++ [y]) ++ post
                     = pre ++ x :: mid ++ y :: post).
        { simpl. rewrite <- app_assoc. reflexivity. }
        rewrite Hv.
        assert (Hi : (pre ++ x :: mid ++ y :: post) !! length pre = Some x).
        { rewrite lookup_app_r by lia. rewrite Nat.sub_diag. reflexivity. }
        assert (Hk : (pre ++ x :: mid ++ y :: post) !! (length pre + S (length mid))%nat
                     = Some y).
        { rewrite lookup_app_r by lia.
          replace (length pre + S (length mid) - length pre)%nat
            with (S (length mid)) by lia.
          simpl. rewrite lookup_app_r by lia. rewrite Nat.sub_diag. reflexivity. }
        rewrite Hi, Hk, swap_ends.
        specialize (IH (pre ++ [y]) mid (x :: post)).
        rewrite length_app in IH. simpl in IH.
        replace (S (length pre)) with (length pre + 1)%nat by lia.
        replace (pred (length pre + S (length mid)))
          with (pred (length pre + 1 + length mid)) by lia.
        replace (pre ++ y :: mid ++ x :: post)
          with ((pre ++ [y]) ++ mid ++ x :: post)
          by (rewrite <- app_assoc; reflexivity).
        rewrite IH.
        -- simpl. rewrite rev_app_distr. simpl.
           rewrite <- !app_assoc. reflexivity.
        -- simpl in Hlen. rewrite length_app in Hlen. simpl in Hlen. lia.
Qed.

Lemma std_reverse_rev {A} (v : list A) : std_reverse v = rev v.
Proof.
  unfold std_reverse.
  pose proof (std_reverse_aux_spec (length v) [] v []) as H.
  simpl in H. rewrite !app_nil_r in H. apply H. lia.
Qed.

Lemma push_back_loop {A B} (f : A -> B) (l : list A) (acc : list B) :
  fold_left (fun ret it => ret ++ [f it]) l acc = acc ++ map f l.
Proof.
  revert acc. induction l as [|a l IH]; intros acc; simpl.
  - rewrite app_nil_r. reflexivity.
  - rewrite IH, <- app_assoc. reflexivity.
Qed.

Lemma GetInvertedPeers_hops (t : Tunnel) :
  GetInvertedPeers t = map hop_ident (m_Hops t).
Proof. unfold GetInvertedPeers. rewrite push_back_loop. reflexivity. Qed.

(** C10: [GetPeers] returns exactly the reverse of the list
    [GetInvertedPeers] returns, and that list holds the identities of the
    stored hops in their stored order. *)
Theorem GetPeers_reverse_GetInvertedPeers (t : Tunnel) :
  GetPeers t = rev (GetInvertedPeers t)
  /\ GetInvertedPeers t = map hop_ident (m_Hops t).
Proof.
  split.
  - unfold GetPeers. apply std_reverse_rev.
  - apply GetInvertedPeers_hops.
Qed.

(** ** HandleTunnelBuildResponse *)

Lemma slot_index_Some (recs : list (list byte)) idx i :
  slot_index recs idx = Some i ->
  0 <= idx /\ i = Z.to_nat idx /\ (i < length recs)%nat.
Proof.
  unfold slot_index. intros H.
  destruct ((0 <=? idx) && (idx <? Z.of_nat (length recs))) eqn:E; [|discriminate].
  apply andb_true_iff in E as [E1 E2].
  apply Z.leb_le in E1. apply Z.ltb_lt in E2.
  inversion H; subst. repeat split; lia.
Qed.

Lemma slot_index_length (recs recs' : list (list byte)) idx :
  length recs' = length recs -> slot_index recs' idx = slot_index recs idx.
Proof. intros H. unfold slot_index. rewrite H. reflexivity. Qed.

Lemma DecryptRecord_length hop recs idx recs' :
  DecryptRecord hop recs idx = Some recs' -> length recs' = length recs.
Proof.
  unfold DecryptRecord. intros H.
  destruct (slot_index recs idx) as [i|]; [|discriminate]. simpl in H.
  destruct (recs !! i) as [r|]; [|discriminate]. simpl in H.
  inversion H; subst. apply length_insert.
Qed.

Lemma DecryptBuildResponseRecord_Some hop recs ok recs' :
  DecryptBuildResponseRecord hop recs = Some (ok, recs') ->
  length recs' = length recs /\ is_Some (slot_index recs (recordIndex hop)).
Proof.
  unfold DecryptBuildResponseRecord. intros H.
  destruct (slot_index recs (recordIndex hop)) as [i|]; [|discriminate]. simpl in H.
  destruct (recs !! i) as [r|]; [|discriminate]. simpl in H.
  split; [|eauto].
  destruct (ResponseDecrypt hop r); inversion H; subst;
    [apply length_insert | reflexivity].
Qed.

Lemma decrypt_previous_length hop num prevs :
  forall recs recs',
    decrypt_previous hop num prevs recs = Some recs' -> length recs' = length recs.
Proof.
  induction prevs as [|hop1 rest IH]; intros recs recs' H; simpl in H.
  - inversion H; reflexivity.
  - destruct ((0 <=? recordIndex hop1) && (recordIndex hop1 <? num)).
    + destruct (DecryptRecord hop recs (recordIndex hop1)) as [recs1|] eqn:E;
        [|discriminate].
      simpl in H. apply IH in H. apply DecryptRecord_length in E. congruence.
    + simpl in H. apply IH in H. exact H.
Qed.

(** A reply that passes the decryption loop keeps its record area's size
    and every hop's record index addresses a slot of it. *)
Lemma decrypt_response_accepts num chain :
  forall recs recs1,
    decrypt_response num chain recs = Some (Some recs1) ->
    length recs1 = length recs
    /\ Forall (fun hop => is_Some (slot_index recs (recordIndex hop))) chain.
Proof.
  induction chain as [|hop prevs IH]; intros recs recs1 H; simpl in H.
  - inversion H; subst. split; [reflexivity | constructor].
  - destruct ((0 <=? recordIndex hop) && (recordIndex hop <? num)); [|discriminate].
    destruct (DecryptBuildResponseRecord hop recs) as [[ok recsa]|] eqn:E1;
      [|discriminate].
    simpl in H. destruct ok; [|discriminate].
    destruct (decrypt_previous hop num prevs recsa) as [recsb|] eqn:E2;
      [|discriminate].
    simpl in H. apply IH in H as [Hl Hall].
    apply DecryptBuildResponseRecord_Some in E1 as [Hla Hidx].
    apply decrypt_previous_length in E2.
    assert (Hlb : length recsb = length recs) by congruence.
    split; [congruence|].
    constructor; [exact Hidx|].
    eapply Forall_impl; [exact Hall|].
    intros h Hh. cbn beta in Hh. rewrite (slot_index_length recs recsb) in Hh by exact Hlb.
    exact Hh.
Qed.

Lemma GetRetCode_defined hop (recs : list (list byte)) :
  is_Some (slot_index recs (recordIndex hop)) -> is_Some (GetRetCode hop recs).
Proof.
  intros [i Hi]. unfold GetRetCode. rewrite Hi. simpl.
  apply slot_index_Some in Hi as (_ & _ & Hlt).
  destruct (lookup_lt_is_Some_2 recs i Hlt) as [r Hr].
  rewrite Hr. simpl. eauto.
Qed.

Lemma read_ret_codes_spec hs :
  forall recs established numHops,
    Forall (fun hop => is_Some (slot_index recs (recordIndex hop))) hs ->
    exists codes,
      Forall2 (fun hop c => GetRetCode hop recs = Some c) hs codes
      /\ read_ret_codes hs recs established numHops
         = Some (established && forallb accepts codes,
                 (numHops + length hs)%nat,
                 omap hop_response_event (zip hs codes)).
Proof.
  induction hs as [|hop rest IH]; intros recs established numHops Hall.
  - exists []. split; [constructor|]. simpl.
    rewrite andb_true_r, Nat.add_0_r. reflexivity.
  - inversion Hall as [|? ? Hhop Hrest]; subst.
    destruct (GetRetCode_defined hop recs Hhop) as [ret Hret].
    destruct (IH recs (if negb (byte_to_Z ret =? 0) then false else established)
                (S numHops) Hrest) as (codes & Hcodes & Hrun).
    exists (ret :: codes). split; [constructor; assumption|].
    cbn [read_ret_codes]. rewrite Hret. cbn [mbind option_bind].
    rewrite Hrun. cbn [mbind option_bind]. f_equal. f_equal; [f_equal|].
    + unfold accepts at 1. cbn [forallb]. unfold accepts at 1.
      destruct (byte_to_Z ret =? 0); simpl;
        [reflexivity | rewrite andb_false_r; reflexivity].
    + simpl. lia.
    + cbn [zip zip_with omap list_omap]. unfold response_event.
      change (hop_response_event (hop, ret))
        with (ident hop ≫= λ i, Some (GetIdentHash i, TunnelBuildResponse ret)).
      destruct (ident hop); reflexivity.
Qed.

Lemma fill_hops_spec chain :
  forall i (v : list TunnelHop),
    (i + length chain <= length v)%nat ->
    fill_hops chain i v
    = Some (take i v ++ map runtime_hop chain ++ drop (i + length chain) v).
Proof.
  induction chain as [|hop prevs IH]; intros i v Hlen; simpl in *.
  - rewrite Nat.add_0_r, take_drop. reflexivity.
  - destruct (lookup_lt_is_Some_2 v i) as [h Hh]; [lia|].
    rewrite Hh. cbn [mbind option_bind].
    rewrite IH by (rewrite length_insert; lia).
    f_equal.
    rewrite (take_S_r _ i (runtime_hop hop))
      by (apply list_lookup_insert_eq; lia).
    rewrite take_insert_ge by lia.
    rewrite drop_insert_lt by lia.
    rewrite <- app_assoc. simpl.
    replace (S (i + length prevs)) with (i + S (length prevs))%nat by lia.
    reflexivity.
Qed.

Lemma fill_hops_all (hs : list TunnelHopConfig) (v : list TunnelHop) :
  fill_hops (rev hs) 0 (resize (length hs) default_TunnelHop v)
  = Some (map runtime_hop (rev hs)).
Proof.
  rewrite fill_hops_spec by (rewrite length_resize, length_rev; lia).
  rewrite take_0. simpl.
  rewrite drop_ge by (rewrite length_resize, length_rev; lia).
  rewrite app_nil_r. reflexivity.
Qed.

Lemma record_area_size_no_wrap num size :
  0 <= num < 256 -> 0 <= size < 2 ^ 32 ->
  uint64 (num * size + 1) = num * size + 1.
Proof.
  intros Hn Hs. unfold uint64. apply Z.mod_small.
  change (2 ^ 32) with 4294967296 in Hs.
  change (2 ^ 64) with 18446744073709551616. nia.
Qed.

(** C5: a response whose record count exceeds [MAX_NUM_RECORDS], or whose
    buffer is shorter than [num * recordSize + 1], makes
    [HandleTunnelBuildResponse] return [false]; the tunnel is left as it
    was (so it does not become established) and no profile event is
    sent. *)
Theorem HandleTunnelBuildResponse_rejects_bad_header
    (t : Tunnel) (cfg : TunnelConfig) (msg0 : byte) (recs : list (list byte)) (len : Z) :
  m_Config t = Some cfg ->
  0 <= GetRecordSize cfg < 2 ^ 32 ->
  MAX_NUM_RECORDS < byte_to_Z msg0
  \/ len < byte_to_Z msg0 * GetRecordSize cfg + 1 ->
  HandleTunnelBuildResponse t msg0 recs len = Some (false, t, []).
Proof.
  intros Hcfg Hsize Hbad. unfold HandleTunnelBuildResponse.
  destruct (MAX_NUM_RECORDS <? byte_to_Z msg0) eqn:Emax; [reflexivity|].
  apply Z.ltb_ge in Emax.
  destruct Hbad as [Hbad | Hbad]; [lia|].
  rewrite Hcfg. cbn [mbind option_bind].
  rewrite record_area_size_no_wrap by (auto using byte_to_Z_range).
  assert (E : (len <? byte_to_Z msg0 * GetRecordSize cfg + 1) = true)
    by (apply Z.ltb_lt; exact Hbad).
  rewrite E. reflexivity.
Qed.

Lemma forallb_accepts codes :
  forallb accepts codes = true <-> Forall (fun c => byte_to_Z c = 0) codes.
Proof.
  rewrite forallb_forall, List.Forall_forall.
  unfold accepts. split; intros H c Hc.
  - apply Z.eqb_eq. apply H. exact Hc.
  - apply Z.eqb_eq. apply H. exact Hc.
Qed.

Lemma Forall_chain_hops (P : TunnelHopConfig -> Prop) (hs : list TunnelHopConfig) :
  Forall P (rev hs) -> Forall P hs.
Proof.
  rewrite !List.Forall_forall. intros H x Hx. apply H. apply in_rev.
  rewrite rev_involutive. exact Hx.
Qed.

(** C2: when the header of a build response is well formed and the
    decryption loop accepts every hop's own slot, the function returns
    [true] exactly when every hop's return code is zero, the tunnel (not
    established before) is established exactly in that case, and the
    profile events sent are one [TunnelBuildResponse] with the hop's return
    code for each hop that has an identity, first hop first. *)
Theorem HandleTunnelBuildResponse_return_codes
    (t : Tunnel) (cfg : TunnelConfig) (msg0 : byte)
    (recs recs1 : list (list byte)) (len : Z) :
  m_Config t = Some cfg ->
  m_State t <> eTunnelStateEstablished ->
  byte_to_Z msg0 <= MAX_NUM_RECORDS ->
  0 <= GetRecordSize cfg < 2 ^ 32 ->
  byte_to_Z msg0 * GetRecordSize cfg + 1 <= len ->
  decrypt_response (byte_to_Z msg0) (rev (hops cfg)) recs = Some (Some recs1) ->
  exists (codes : list byte) (t' : Tunnel),
    Forall2 (fun hop c => GetRetCode hop recs1 = Some c) (hops cfg) codes
    /\ HandleTunnelBuildResponse t msg0 recs len
       = Some (forallb accepts codes, t',
               omap hop_response_event (zip (hops cfg) codes))
    /\ (m_State t' = eTunnelStateEstablished
        <-> Forall (fun c => byte_to_Z c = 0) codes).
Proof.
  intros Hcfg Hstate Hmax Hsize Hlen Hdec.
  destruct (decrypt_response_accepts _ _ _ _ Hdec) as [Hl Hidx].
  apply Forall_chain_hops in Hidx.
  assert (Hidx1 : Forall (fun hop => is_Some (slot_index recs1 (recordIndex hop)))
                    (hops cfg)).
  { eapply Forall_impl; [exact Hidx|]. intros h Hh. cbn beta in Hh.
    rewrite (slot_index_length recs recs1) by exact Hl. exact Hh. }
  destruct (read_ret_codes_spec (hops cfg) recs1 true O Hidx1)
    as (codes & Hcodes & Hrun).
  unfold HandleTunnelBuildResponse.
  assert (E1 : (MAX_NUM_RECORDS <? byte_to_Z msg0) = false)
    by (apply Z.ltb_ge; lia).
  rewrite E1, Hcfg. cbn [mbind option_bind].
  rewrite record_area_size_no_wrap by (auto using byte_to_Z_range).
  assert (E2 : (len <? byte_to_Z msg0 * GetRecordSize cfg + 1) = false)
    by (apply Z.ltb_ge; lia).
  rewrite E2, Hdec. cbn [mbind option_bind].
  rewrite Hrun. cbn [mbind option_bind andb Nat.add].
  destruct (forallb accepts codes) eqn:Eacc.
  - rewrite fill_hops_all. cbn [mbind option_bind].
    eexists codes, _. split; [exact Hcodes|].
    split; [rewrite Eacc; reflexivity|].
    cbn [m_State]. split; [intros _; apply forallb_accepts; exact Eacc | reflexivity].
  - exists codes, t. split; [exact Hcodes|].
    split; [rewrite Eacc; reflexivity|].
    split; [intros H; contradiction|].
    intros H. apply forallb_accepts in H. congruence.
Qed.

(** C6: after an accepted build response (the function returned [true])
    the runtime hop list has as many entries as the build configuration
    has hops and holds them in reverse traversal order, each with the
    hop's identity and its layer and iv keys; the short-build flag and the
    far-end transports are those of the configuration, the configuration
    is dropped and the state is [Established]. *)
Theorem HandleTunnelBuildResponse_established
    (t t' : Tunnel) (msg0 : byte) (recs : list (list byte)) (len : Z)
    (evs : list ProfileEvent) :
  HandleTunnelBuildResponse t msg0 recs len = Some (true, t', evs) ->
  exists cfg : TunnelConfig,
    m_Config t = Some cfg
    /\ length (m_Hops t') = length (hops cfg)
    /\ m_Hops t' = map runtime_hop (rev (hops cfg))
    /\ m_IsShortBuildMessage t' = IsShort cfg
    /\ m_FarEndTransports t' = GetFarEndTransports cfg
    /\ m_Config t' = None
    /\ m_State t' = eTunnelStateEstablished.
Proof.
  unfold HandleTunnelBuildResponse. intros H.
  destruct (MAX_NUM_RECORDS <? byte_to_Z msg0); [discriminate|].
  destruct (m_Config t) as [cfg|]; [|discriminate].
  cbn [mbind option_bind] in H.
  destruct (len <? uint64 (byte_to_Z msg0 * GetRecordSize cfg + 1)); [discriminate|].
  destruct (decrypt_response (byte_to_Z msg0) (rev (hops cfg)) recs)
    as [[recs1|]|] eqn:Hdec; try discriminate.
  cbn [mbind option_bind] in H.
  destruct (decrypt_response_accepts _ _ _ _ Hdec) as [Hl Hidx].
  apply Forall_chain_hops in Hidx.
  assert (Hidx1 : Forall (fun hop => is_Some (slot_index recs1 (recordIndex hop)))
                    (hops cfg)).
  { eapply Forall_impl; [exact Hidx|]. intros h Hh. cbn beta in Hh.
    rewrite (slot_index_length recs recs1) by exact Hl. exact Hh. }
  destruct (read_ret_codes_spec (hops cfg) recs1 true O Hidx1)
    as (codes & Hcodes & Hrun).
  rewrite Hrun in H. cbn [mbind option_bind andb Nat.add] in H.
  destruct (forallb accepts codes); [|discriminate].
  rewrite fill_hops_all in H. cbn [mbind option_bind] in H.
  inversion H; subst. exists cfg. cbn.
  repeat split. rewrite length_map, length_rev. reflexivity.
Qed.

(** ** GetPendingTunnel *)

Lemma find_unique_key (pending : list (Z * positive)) (k : Z) (l : positive) :
  List.NoDup (map fst pending) -> List.In (k, l) pending ->
  List.find (fun e => fst e =? k) pending = Some (k, l).
Proof.
  induction pending as [|[k' l'] rest IH]; intros Hnd Hin; [destruct Hin|].
  simpl in Hnd. apply List.NoDup_cons_iff in Hnd as [Hnotin Hnd].
  simpl. destruct Hin as [Heq | Hin].
  - inversion Heq; subst. rewrite Z.eqb_refl. reflexivity.
  - destruct (k' =? k) eqn:E.
    + apply Z.eqb_eq in E. subst k'. exfalso. apply Hnotin.
      apply (List.in_map fst) in Hin. exact Hin.
    + apply IH; assumption.
Qed.

(** C9: for a reply message id the pending map holds, [GetPendingTunnel]
    returns the mapped tunnel exactly when its state is [Pending], and then
    sets the state to [BuildReplyReceived]; a second lookup with the same
    id on the resulting store returns [nullptr] and changes nothing. *)
Theorem GetPendingTunnel_at_most_once
    (replyMsgID : Z) (pendingTunnels : list (Z * positive))
    (heap : gmap positive Tunnel) (l : positive) (t : Tunnel) :
  List.NoDup (map fst pendingTunnels) ->
  List.In (replyMsgID, l) pendingTunnels ->
  heap !! l = Some t ->
  (GetState t = eTunnelStatePending ->
     let heap' := <[l := SetState t eTunnelStateBuildReplyReceived]> heap in
     GetPendingTunnel replyMsgID pendingTunnels heap = Some (Some l, heap')
     /\ GetPendingTunnel replyMsgID pendingTunnels heap' = Some (None, heap'))
  /\ (GetState t <> eTunnelStatePending ->
      GetPendingTunnel replyMsgID pendingTunnels heap = Some (None, heap)).
Proof.
  intros Hnd Hin Hl. unfold GetPendingTunnel.
  rewrite (find_unique_key _ _ _ Hnd Hin). split.
  - intros Hst. cbn zeta. rewrite Hl. cbn [mbind option_bind].
    destruct (decide (GetState t = eTunnelStatePending)) as [_|Hne];
      [|contradiction].
    split; [reflexivity|].
    rewrite lookup_insert_eq. cbn [mbind option_bind].
    destruct (decide (GetState (SetState t eTunnelStateBuildReplyReceived)
                      = eTunnelStatePending)) as [Hbad|_];
      [discriminate Hbad | reflexivity].
  - intros Hst. rewrite Hl. cbn [mbind option_bind].
    destruct (decide (GetState t = eTunnelStatePending)) as [Heq|_];
      [contradiction | reflexivity].
Qed.

(** ** The maintenance schedules *)

Lemma schedule_due_iff (interval ts last : Z) :
  0 <= interval <= 2 ^ 63 ->
  0 <= ts -> ts + interval < 2 ^ 64 ->
  0 <= last < 2 ^ 64 ->
  schedule_due interval ts last = true <-> (ts - last >= interval \/ ts < last).
Proof.
  intros Hi Hts Hsum Hlast. unfold schedule_due, uint64.
  change (2 ^ 63) with 9223372036854775808 in *.
  change (2 ^ 64) with 18446744073709551616 in *.
  rewrite (Z.mod_small interval) by lia.
  rewrite (Z.mod_small (ts + interval)) by lia.
  rewrite orb_true_iff, Z.leb_le, Z.ltb_lt.
  destruct (Z_lt_le_dec ts last) as [Hlt | Hge].
  - replace ((ts - last) mod 18446744073709551616)
      with (ts - last + 18446744073709551616).
    + lia.
    + apply Z.mod_unique with (q := -1); lia.
  - rewrite (Z.mod_small (ts - last)) by lia. lia.
Qed.

Lemma schedule_due_cases (interval ts last : Z) :
  0 <= interval <= 2 ^ 63 ->
  0 <= ts -> ts + interval < 2 ^ 64 ->
  0 <= last < 2 ^ 64 ->
  (schedule_due interval ts last = true
   /\ interval_passed_or_clock_behind interval ts last)
  \/ (schedule_due interval ts last = false
      /\ ~ interval_passed_or_clock_behind interval ts last).
Proof.
  intros Hi Hts Hsum Hlast.
  pose proof (schedule_due_iff interval ts last Hi Hts Hsum Hlast) as Hiff.
  unfold interval_passed_or_clock_behind.
  destruct (schedule_due interval ts last).
  - left. split; [reflexivity | apply Hiff; reflexivity].
  - right. split; [reflexivity|]. intros H. apply Hiff in H. discriminate.
Qed.

(** The schedules as the code has them: with the transports online, each of
    the three maintenance tasks runs exactly when, on the unsigned 64-bit
    timestamps, [ts - last >= interval] holds or the clock is behind [last]
    (any backward jump, since [ts - last] then wraps around to a large
    value); when a task runs its [last] becomes [ts], otherwise it keeps its
    value. *)
Theorem periodic_maintenance_schedules (ts : Z) (s : Schedules) :
  0 <= TUNNEL_MANAGE_INTERVAL <= 2 ^ 63 ->
  0 <= TUNNEL_POOLS_MANAGE_INTERVAL <= 2 ^ 63 ->
  0 <= TUNNEL_MEMORY_POOL_MANAGE_INTERVAL <= 2 ^ 63 ->
  0 <= ts ->
  ts + TUNNEL_MANAGE_INTERVAL < 2 ^ 64 ->
  ts + TUNNEL_POOLS_MANAGE_INTERVAL < 2 ^ 64 ->
  ts + TUNNEL_MEMORY_POOL_MANAGE_INTERVAL < 2 ^ 64 ->
  0 <= lastTs s < 2 ^ 64 ->
  0 <= lastPoolsTs s < 2 ^ 64 ->
  0 <= lastMemoryPoolTs s < 2 ^ 64 ->
  let s' := fst (periodic_maintenance true ts s) in
  let tasks := snd (periodic_maintenance true ts s) in
  (List.In (ManageTunnels ts) tasks
     <-> interval_passed_or_clock_behind TUNNEL_MANAGE_INTERVAL ts (lastTs s))
  /\ (List.In (ManageTunnelPools ts) tasks
     <-> interval_passed_or_clock_behind TUNNEL_POOLS_MANAGE_INTERVAL ts (lastPoolsTs s))
  /\ (List.In CleanUpMemoryPools tasks
     <-> interval_passed_or_clock_behind TUNNEL_MEMORY_POOL_MANAGE_INTERVAL ts
           (lastMemoryPoolTs s))
  /\ (List.In (ManageTunnels ts) tasks -> lastTs s' = ts)
  /\ (~ List.In (ManageTunnels ts) tasks -> lastTs s' = lastTs s)
  /\ (List.In (ManageTunnelPools ts) tasks -> lastPoolsTs s' = ts)
  /\ (~ List.In (ManageTunnelPools ts) tasks -> lastPoolsTs s' = lastPoolsTs s)
  /\ (List.In CleanUpMemoryPools tasks -> lastMemoryPoolTs s' = ts)
  /\ (~ List.In CleanUpMemoryPools tasks -> lastMemoryPoolTs s' = lastMemoryPoolTs s).
Proof.
  clear SHORT_TUNNEL_BUILD_RECORD_SIZE TUNNEL_BUILD_RECORD_SIZE
    TUNNEL_CREATION_TIMEOUT RequestRecord LayerDecrypt ResponseDecrypt RetCode
    NewI2NPShortMessage NewI2NPMessage entropy std_shuffle.
  intros Hi1 Hi2 Hi3 Hts Hs1 Hs2 Hs3 Hl1 Hl2 Hl3.
  unfold periodic_maintenance.
  destruct (schedule_due_cases _ ts (lastTs s) Hi1 Hts Hs1 Hl1) as [[E1 P1]|[E1 P1]];
  destruct (schedule_due_cases _ ts (lastPoolsTs s) Hi2 Hts Hs2 Hl2) as [[E2 P2]|[E2 P2]];
  destruct (schedule_due_cases _ ts (lastMemoryPoolTs s) Hi3 Hts Hs3 Hl3) as [[E3 P3]|[E3 P3]];
  rewrite E1, E2, E3; cbn [fst snd app lastTs lastPoolsTs lastMemoryPoolTs List.In];
  repeat split;
  try (intros _; assumption);
  try (intros _; tauto);
  try reflexivity;
  try (intros H; repeat destruct H as [H|H]; try discriminate H; contradiction);
  try (intros H; exfalso; apply H; tauto);
  try (intros H; contradiction).
Qed.

(** ** ManagePendingTunnels *)

(** Away from the ends of the timestamp range the deadline test of the code
    is the comparison on unbounded integers (the bound on the creation time
    makes the sum the same in 32 and in 64 bits). *)
Lemma creation_timed_out_deadline (ts : Z) (t : Tunnel) :
  0 <= TUNNEL_CREATION_TIMEOUT ->
  0 <= ts -> ts + TUNNEL_CREATION_TIMEOUT < 2 ^ 64 ->
  0 <= GetCreationTime t -> GetCreationTime t + TUNNEL_CREATION_TIMEOUT < 2 ^ 32 ->
  creation_timed_out ts t = deadline_passed ts (GetCreationTime t).
Proof.
  intros Ht Hts Hsum Hc Hcsum. unfold creation_timed_out, deadline_passed, uint64.
  change (2 ^ 32) with 4294967296 in *.
  change (2 ^ 64) with 18446744073709551616 in *.
  rewrite !Z.mod_small by lia. reflexivity.
Qed.

Lemma pointee_entry (heap : gmap positive Tunnel) (f : Tunnel -> bool)
    (it : Z * positive) (t : Tunnel) :
  heap !! snd it = Some t -> pointee heap f it = f t.
Proof. intros H. unfold pointee. rewrite H. reflexivity. Qed.

Lemma sweep_events_entry (heap : gmap positive Tunnel) (ts : Z)
    (it : Z * positive) (t : Tunnel) :
  heap !! snd it = Some t ->
  sweep_events heap ts it
  = if build_timed_out ts t then omap hop_non_replied (config_hops t) else [].
Proof. intros H. unfold sweep_events. rewrite H. reflexivity. Qed.

Lemma non_replied_events_hops (hs : list TunnelHopConfig) :
  non_replied_events hs = omap hop_non_replied hs.
Proof.
  induction hs as [|hop rest IH]; [reflexivity|].
  cbn [non_replied_events omap list_omap]. unfold hop_non_replied at 1.
  rewrite IH. destruct (ident hop); reflexivity.
Qed.

(** The verdict of the sweep on one tunnel, by state. *)
Lemma sweep_verdict (ts : Z) (t : Tunnel) :
  match GetState t with
  | eTunnelStatePending =>
      sweep_keeps ts t = negb (deadline_passed ts (GetCreationTime t))
      /\ sweep_fails ts t = deadline_passed ts (GetCreationTime t)
      /\ build_timed_out ts t = deadline_passed ts (GetCreationTime t)
      /\ sweep_succeeds t = false
  | eTunnelStateBuildFailed =>
      sweep_keeps ts t = false /\ sweep_fails ts t = true
      /\ build_timed_out ts t = false /\ sweep_succeeds t = false
  | eTunnelStateBuildReplyReceived =>
      sweep_keeps ts t = true /\ sweep_fails ts t = false
      /\ build_timed_out ts t = false /\ sweep_succeeds t = false
  | _ =>
      sweep_keeps ts t = false /\ sweep_fails ts t = false
      /\ build_timed_out ts t = false /\ sweep_succeeds t = true
  end.
Proof.
  unfold sweep_keeps, sweep_fails, build_timed_out, sweep_succeeds.
  destruct (GetState t); cbn; repeat split; reflexivity.
Qed.

Lemma Counters_eq (a a' b b' : Z) :
  a = a' -> b = b' ->
  {| m_TotalNumSuccesiveTunnelCreations := a; m_TotalNumFailedTunnelCreations := b |}
  = {| m_TotalNumSuccesiveTunnelCreations := a'; m_TotalNumFailedTunnelCreations := b' |}.
Proof. intros -> ->. reflexivity. Qed.

Lemma ManagePendingTunnels_spec (heap : gmap positive Tunnel) (ts : Z) :
  0 <= TUNNEL_CREATION_TIMEOUT ->
  0 <= ts -> ts + TUNNEL_CREATION_TIMEOUT < 2 ^ 64 ->
  forall (pendingTunnels : list (Z * positive)) (c : Counters),
    Forall (live_entry heap) pendingTunnels ->
    ManagePendingTunnels heap pendingTunnels ts c
    = Some (List.filter (pointee heap (sweep_keeps ts)) pendingTunnels,
            {| m_TotalNumSuccesiveTunnelCreations :=
                 m_TotalNumSuccesiveTunnelCreations c
                 + Z.of_nat (length (List.filter (pointee heap sweep_succeeds) pendingTunnels));
               m_TotalNumFailedTunnelCreations :=
                 m_TotalNumFailedTunnelCreations c
                 + Z.of_nat (length (List.filter (pointee heap (sweep_fails ts)) pendingTunnels)) |},
            flat_map (sweep_events heap ts) pendingTunnels).
Proof.
  intros Ht Hts Hsum pendingTunnels.
  induction pendingTunnels as [|it rest IH]; intros c Hlive.
  - simpl. rewrite !Z.add_0_r. destruct c; reflexivity.
  - inversion Hlive as [|? ? (t & Hl & Hc & Hcs) Hrest]; subst.
    cbn [ManagePendingTunnels List.filter flat_map].
    rewrite !(pointee_entry heap _ it t Hl), (sweep_events_entry heap ts it t Hl).
    rewrite Hl. cbn [mbind option_bind].
    rewrite (creation_timed_out_deadline ts t) by assumption.
    pose proof (sweep_verdict ts t) as Hv.
    assert (Hevs : match GetTunnelConfig t with
                   | Some config => non_replied_events (hops config)
                   | None => []
                   end = omap hop_non_replied (config_hops t)).
    { unfold config_hops. destruct (GetTunnelConfig t);
        [apply non_replied_events_hops | reflexivity]. }
    rewrite Hevs.
    destruct (GetState t) eqn:Est; destruct Hv as (-> & -> & -> & ->);
      try destruct (deadline_passed ts (GetCreationTime t));
      rewrite IH by assumption;
      cbn [mbind option_bind negb length app
        m_TotalNumSuccesiveTunnelCreations m_TotalNumFailedTunnelCreations
        FailedTunnelCreation SuccesiveTunnelCreation];
      (apply f_equal; apply (f_equal2 pair); [apply (f_equal2 pair)|];
       [reflexivity | apply Counters_eq; rewrite ?Nat2Z.inj_succ; lia | reflexivity]).
Qed.

(** C4: one sweep of a pending map at time [ts].  The profile events sent
    are the events of the entries in map order and the two counters grow
    by the number of entries counted as failed and as succeeded.  An entry
    whose tunnel is [Pending] and past its deadline ([ts] exceeds the
    creation time plus [TUNNEL_CREATION_TIMEOUT], or the clock went back
    past the symmetric bound) is erased, contributes exactly one
    [TunnelNonReplied] for each hop that has an identity and counts as one
    failure; an entry in state [BuildReplyReceived] stays in the map; an
    entry in state [Established] is erased and counts as one success. *)
Theorem ManagePendingTunnels_sweep
    (heap : gmap positive Tunnel) (pendingTunnels : list (Z * positive))
    (ts : Z) (c : Counters) :
  0 <= TUNNEL_CREATION_TIMEOUT ->
  0 <= ts -> ts + TUNNEL_CREATION_TIMEOUT < 2 ^ 64 ->
  Forall (live_entry heap) pendingTunnels ->
  exists (m : list (Z * positive)) (c' : Counters) (evs : list ProfileEvent),
    ManagePendingTunnels heap pendingTunnels ts c = Some (m, c', evs)
    /\ evs = flat_map (sweep_events heap ts) pendingTunnels
    /\ m_TotalNumFailedTunnelCreations c'
       = m_TotalNumFailedTunnelCreations c
         + Z.of_nat (length (List.filter (pointee heap (sweep_fails ts)) pendingTunnels))
    /\ m_TotalNumSuccesiveTunnelCreations c'
       = m_TotalNumSuccesiveTunnelCreations c
         + Z.of_nat (length (List.filter (pointee heap sweep_succeeds) pendingTunnels))
    /\ forall (it : Z * positive) (t : Tunnel),
         List.In it pendingTunnels -> heap !! snd it = Some t ->
         (GetState t = eTunnelStatePending ->
          GetCreationTime t + TUNNEL_CREATION_TIMEOUT < ts
          \/ ts + TUNNEL_CREATION_TIMEOUT < GetCreationTime t ->
          ~ List.In it m
          /\ sweep_events heap ts it = omap hop_non_replied (config_hops t)
          /\ pointee heap (sweep_fails ts) it = true
          /\ pointee heap sweep_succeeds it = false)
         /\ (GetState t = eTunnelStateBuildReplyReceived ->
             List.In it m
             /\ sweep_events heap ts it = []
             /\ pointee heap (sweep_fails ts) it = false
             /\ pointee heap sweep_succeeds it = false)
         /\ (GetState t = eTunnelStateEstablished ->
             ~ List.In it m
             /\ sweep_events heap ts it = []
             /\ pointee heap (sweep_fails ts) it = false
             /\ pointee heap sweep_succeeds it = true).
Proof.
  intros Ht Hts Hsum Hlive.
  eexists _, _, _. split; [apply ManagePendingTunnels_spec; assumption|].
  split; [reflexivity|]. split; [reflexivity|]. split; [reflexivity|].
  intros it t Hin Hl.
  rewrite !List.filter_In.
  rewrite !(pointee_entry heap _ it t Hl), (sweep_events_entry heap ts it t Hl).
  pose proof (sweep_verdict ts t) as Hv.
  split; [|split].
  - intros Hst Hdead. rewrite Hst in Hv. destruct Hv as (-> & -> & -> & ->).
    assert (Hd : deadline_passed ts (GetCreationTime t) = true).
    { unfold deadline_passed. apply orb_true_iff.
      destruct Hdead; [left | right]; apply Z.ltb_lt; assumption. }
    rewrite Hd. cbn [negb]. repeat split. intros [_ Hk]. discriminate Hk.
  - intros Hst. rewrite Hst in Hv. destruct Hv as (-> & -> & -> & ->).
    repeat split. exact Hin.
  - intros Hst. rewrite Hst in Hv. destruct Hv as (-> & -> & -> & ->).
    repeat split. intros [_ Hk]. discriminate Hk.
Qed.

(** ** GetNextOutboundTunnel *)

Lemma uint32_small (x : Z) : 0 <= x < 2 ^ 32 -> uint32 x = x.
Proof. intros H. unfold uint32. apply Z.mod_small. exact H. Qed.

Lemma established_tunnels_cons (heap : gmap positive Tunnel)
    (it : positive) (rest : list positive) (t : Tunnel) :
  heap !! it = Some t ->
  established_tunnels heap (it :: rest)
  = if IsEstablished t then it :: established_tunnels heap rest
    else established_tunnels heap rest.
Proof. intros H. unfold established_tunnels. simpl. rewrite H. reflexivity. Qed.

(** The loop returns the established tunnel number [ind - i] of the rest of
    the list (counting from 0) when there is one, else the last established
    tunnel of the rest, else the tunnel it already holds. *)
Lemma next_outbound_loop_spec (heap : gmap positive Tunnel) (ind : Z) :
  forall (l : list positive) (tunnel : option positive) (i : Z),
    Forall (fun p => is_Some (heap !! p)) l ->
    0 <= i <= ind ->
    i + Z.of_nat (length l) < 2 ^ 32 ->
    next_outbound_loop heap ind l tunnel i
    = Some (match established_tunnels heap l !! Z.to_nat (ind - i) with
            | Some p => Some p
            | None =>
                match last (established_tunnels heap l) with
                | Some p => Some p
                | None => tunnel
                end
            end).
Proof.
  induction l as [|it rest IH]; intros tunnel i Hlive Hi Hlen.
  - reflexivity.
  - inversion Hlive as [|? ? [t Ht] Hrest]; subst.
    cbn [next_outbound_loop]. rewrite Ht. cbn [mbind option_bind].
    rewrite (established_tunnels_cons heap it rest t Ht).
    cbn [length] in Hlen. rewrite Nat2Z.inj_succ in Hlen.
    destruct (IsEstablished t).
    + rewrite uint32_small by lia.
      destruct (ind <? i + 1) eqn:E.
      * apply Z.ltb_lt in E. assert (ind - i = 0) as -> by lia.
        rewrite bool_decide_eq_true_2 by eauto. reflexivity.
      * apply Z.ltb_ge in E. cbn [andb].
        rewrite IH by (try assumption; lia).
        replace (Z.to_nat (ind - i)) with (S (Z.to_nat (ind - (i + 1)))) by lia.
        cbn [lookup list_lookup]. rewrite last_cons.
        destruct (established_tunnels heap rest !! Z.to_nat (ind - (i + 1)));
          [reflexivity|].
        destruct (last (established_tunnels heap rest)); reflexivity.
    + assert (E : (ind <? i) = false) by (apply Z.ltb_ge; lia).
      rewrite E. cbn [andb]. apply IH; try assumption; lia.
Qed.

Lemma GetNextOutboundTunnel_spec (heap : gmap positive Tunnel)
    (l : list positive) (r : Z) :
  Forall (fun p => is_Some (heap !! p)) l ->
  Z.of_nat (length l) < 2 ^ 32 ->
  0 <= r ->
  GetNextOutboundTunnel heap l r
  = Some (established_tunnels heap l
            !! Nat.min (Z.to_nat (r mod Z.of_nat (length l)))
                       (length (established_tunnels heap l) - 1)).
Proof.
  intros Hlive Hlen Hr. unfold GetNextOutboundTunnel.
  destruct l as [|it rest] eqn:El; [reflexivity|]. rewrite <- El in *.
  assert (Hn : 0 < Z.of_nat (length l)) by (rewrite El; cbn [length]; lia).
  pose proof (Z.mod_pos_bound r (Z.of_nat (length l)) Hn) as Hm.
  rewrite uint32_small by lia.
  rewrite next_outbound_loop_spec by (try assumption; lia).
  rewrite Z.sub_0_r. f_equal.
  set (est := established_tunnels heap l).
  set (ind := Z.to_nat (r mod Z.of_nat (length l))).
  destruct (est !! ind) as [p|] eqn:E.
  - apply lookup_lt_Some in E as Hlt.
    rewrite Nat.min_l by lia. rewrite E. reflexivity.
  - apply lookup_ge_None in E.
    rewrite Nat.min_r by lia. rewrite last_lookup.
    replace (pred (length est)) with (length est - 1)%nat by lia.
    destruct (est !! (length est - 1)%nat); reflexivity.
Qed.

Lemma count_eq_in_seq (j m a : nat) :
  length (List.filter (fun r => (r =? j)%nat) (seq a m))
  = if decide (a <= j < a + m)%nat then 1%nat else 0%nat.
Proof.
  revert a. induction m as [|m IH]; intros a.
  - simpl. case_decide; [lia | reflexivity].
  - cbn [seq List.filter]. destruct (a =? j)%nat eqn:E.
    + apply Nat.eqb_eq in E. subst. cbn [length]. rewrite IH.
      repeat case_decide; lia.
    + apply Nat.eqb_neq in E. rewrite IH. repeat case_decide; lia.
Qed.

Lemma count_min_in_seq (n k j : nat) :
  (1 <= k <= n)%nat -> (j < k)%nat ->
  length (List.filter (fun r => (Nat.min r (k - 1) =? j)%nat) (seq 0 n))
  = if decide (j = k - 1)%nat then (n - k + 1)%nat else 1%nat.
Proof.
  intros Hk Hj.
  replace n with ((k - 1) + (n - k + 1))%nat at 1 by lia.
  rewrite seq_app, List.filter_app, length_app. cbn [Nat.add].
  rewrite (List.filter_ext_in (fun r => (Nat.min r (k - 1) =? j)%nat)
             (fun r => (r =? j)%nat) (seq 0 (k - 1))).
  2:{ intros r Hr. apply in_seq in Hr. rewrite Nat.min_l by lia. reflexivity. }
  rewrite count_eq_in_seq.
  rewrite (List.filter_ext_in (fun r => (Nat.min r (k - 1) =? j)%nat)
             (fun _ => (k - 1 =? j)%nat) (seq (k - 1) (n - k + 1))).
  2:{ intros r Hr. apply in_seq in Hr. rewrite Nat.min_r by lia. reflexivity. }
  destruct (k - 1 =? j)%nat eqn:E.
  - apply Nat.eqb_eq in E.
    assert (Hall : forall l : list nat, List.filter (fun _ => true) l = l).
    { induction l as [|x l IHl]; [reflexivity | simpl; rewrite IHl; reflexivity]. }
    rewrite Hall, length_seq. repeat case_decide; lia.
  - apply Nat.eqb_neq in E.
    assert (Hnone : forall l : list nat, List.filter (fun _ => false) l = []).
    { induction l as [|x l IHl]; [reflexivity | simpl; exact IHl]. }
    rewrite Hnone. cbn [length]. repeat case_decide; lia.
Qed.

(** C1 (as the code has it): on an outbound list of [n] live tunnels of
    which [k] are established, [GetNextOutboundTunnel] with residue
    [r mod n] returns the established tunnel number [r mod n] (in list
    order, counting from 0) when [r mod n < k] and the last established
    tunnel otherwise.  Hence every established tunnel but the last is
    selected by exactly one residue and the last one by [n - k + 1]
    residues. *)
Theorem GetNextOutboundTunnel_selection
    (heap : gmap positive Tunnel) (m_OutboundTunnels : list positive) :
  Forall (fun p => is_Some (heap !! p)) m_OutboundTunnels ->
  List.NoDup m_OutboundTunnels ->
  Z.of_nat (length m_OutboundTunnels) < 2 ^ 32 ->
  let est := established_tunnels heap m_OutboundTunnels in
  let n := length m_OutboundTunnels in
  let k := length est in
  (forall r : Z, 0 <= r ->
     GetNextOutboundTunnel heap m_OutboundTunnels r
     = Some (est !! Nat.min (Z.to_nat (r mod Z.of_nat n)) (k - 1)))
  /\ (forall (j : nat) (p : positive),
        est !! j = Some p ->
        residues_selecting heap m_OutboundTunnels p
        = if decide (j = k - 1)%nat then (n - k + 1)%nat else 1%nat).
Proof.
  intros Hlive Hnd Hlen est n k. split.
  - intros r Hr. apply GetNextOutboundTunnel_spec; assumption.
  - intros j p Hj. unfold residues_selecting.
    assert (Hkn : (k <= n)%nat) by apply List.filter_length_le.
    assert (Hjk : (j < k)%nat) by (eapply lookup_lt_Some; exact Hj).
    assert (Hest : NoDup est).
    { apply NoDup_ListNoDup. apply List.NoDup_filter. exact Hnd. }
    rewrite (List.filter_ext_in _ (fun r => (Nat.min r (k - 1) =? j)%nat)).
    + apply count_min_in_seq; lia.
    + intros r Hr. apply in_seq in Hr.
      rewrite GetNextOutboundTunnel_spec by (try assumption; lia).
      rewrite Z.mod_small by (fold n; lia). rewrite Nat2Z.id.
      fold est. fold k.
      destruct (Nat.min r (k - 1) =? j)%nat eqn:E.
      * apply Nat.eqb_eq in E. rewrite E, Hj.
        apply bool_decide_eq_true_2. reflexivity.
      * apply Nat.eqb_neq in E. apply bool_decide_eq_false_2.
        intros H. inversion H as [H1]. apply E.
        eapply NoDup_lookup; eassumption.
Qed.

(** ** Build *)

Lemma slot_index_in_area (recs : list (list byte)) (idx : Z) :
  0 <= idx < Z.of_nat (length recs) -> slot_index recs idx = Some (Z.to_nat idx).
Proof.
  intros H. unfold slot_index.
  assert (E1 : (0 <=? idx) = true) by (apply Z.leb_le; lia).
  assert (E2 : (idx <? Z.of_nat (length recs)) = true) by (apply Z.ltb_lt; lia).
  rewrite E1, E2. reflexivity.
Qed.

Lemma indices_in_area_length (ri : list Z) (recs recs' : list (list byte)) :
  length recs' = length recs -> indices_in_area ri recs -> indices_in_area ri recs'.
Proof. intros H. unfold indices_in_area. rewrite H. exact id. Qed.

Lemma indices_in_area_lookup (ri : list Z) (recs : list (list byte)) (i : nat) (idx : Z) :
  indices_in_area ri recs -> ri !! i = Some idx -> 0 <= idx < Z.of_nat (length recs).
Proof.
  intros H Hi. unfold indices_in_area in H.
  rewrite Forall_lookup in H. exact (H i idx Hi).
Qed.

Lemma distinct_slots (ri : list Z) (recs : list (list byte)) (a b : nat) (x y : Z) :
  NoDup ri -> indices_in_area ri recs ->
  ri !! a = Some x -> ri !! b = Some y -> a <> b -> Z.to_nat x <> Z.to_nat y.
Proof.
  intros Hnd Hin Ha Hb Hab Heq.
  pose proof (indices_in_area_lookup _ _ _ _ Hin Ha).
  pose proof (indices_in_area_lookup _ _ _ _ Hin Hb).
  assert (x = y) by lia. subst y.
  apply Hab. eapply NoDup_lookup; eassumption.
Qed.

Lemma request_id_shift (r : Z) (pos n k : nat) :
  request_id r pos (S (S n)) (S k) = request_id r (pos + 4) (S n) k.
Proof.
  unfold request_id.
  replace (S (S n) - 1)%nat with (S n) by lia.
  replace (S n - 1)%nat with n by lia.
  change (S k =? S n)%nat with (k =? n)%nat.
  replace (pos + 4 * S k)%nat with (pos + 4 + 4 * k)%nat by lia.
  reflexivity.
Qed.

Lemma request_ids_S (r : Z) (pos n : nat) :
  request_ids r pos (S (S n))
  = uint32_of_bytes (RAND_bytes pos 4) :: request_ids r (pos + 4) (S n).
Proof.
  unfold request_ids.
  change (seq 0 (S (S n))) with (0%nat :: seq 1 (S n)).
  rewrite <- seq_shift, map_cons, map_map. f_equal.
  - unfold request_id. cbn [Nat.sub Nat.eqb]. rewrite Nat.mul_0_r, Nat.add_0_r.
    reflexivity.
  - apply map_ext. intros k. apply request_id_shift.
Qed.

Lemma CreateBuildRequestRecord_in_area (hop : TunnelHopConfig)
    (recs : list (list byte)) (msgID : Z) :
  0 <= recordIndex hop < Z.of_nat (length recs) ->
  CreateBuildRequestRecord hop recs msgID
  = Some (<[Z.to_nat (recordIndex hop) := RequestRecord hop msgID]> recs).
Proof.
  intros H. unfold CreateBuildRequestRecord.
  rewrite slot_index_in_area by exact H. reflexivity.
Qed.

(** The loop that creates the real records: hop number [k] of the chain
    gets the index at position [i + k] of the shuffled vector and its slot
    holds its request record; the other slots are left alone. *)
Lemma create_records_spec (ri : list Z) (r : Z) :
  NoDup ri ->
  forall (hs : list TunnelHopConfig) (i : nat) (recs : list (list byte)) (pos : nat),
    (i + length hs <= length ri)%nat ->
    indices_in_area ri recs ->
    exists recs' : list (list byte),
      create_records hs i ri r recs pos
      = Some (zip_with set_recordIndex hs (drop i ri), recs',
              zip (zip_with set_recordIndex hs (drop i ri))
                  (request_ids r pos (length hs)),
              (pos + 4 * (length hs - 1))%nat)
      /\ length recs' = length recs
      /\ (forall (k : nat) (hop : TunnelHopConfig) (idx : Z),
            hs !! k = Some hop -> ri !! (i + k)%nat = Some idx ->
            recs' !! Z.to_nat idx
            = Some (RequestRecord (set_recordIndex hop idx)
                      (request_id r pos (length hs) k)))
      /\ (forall j : nat,
            (forall (k : nat) (idx : Z),
                (k < length hs)%nat -> ri !! (i + k)%nat = Some idx ->
                j <> Z.to_nat idx) ->
            recs' !! j = recs !! j).
Proof.
  intros Hnd. induction hs as [|hop rest IH]; intros i recs pos Hlen Harea.
  - exists recs. cbn [create_records zip_with length request_ids seq map zip].
    rewrite Nat.mul_0_r, Nat.add_0_r.
    split; [reflexivity|]. split; [reflexivity|].
    split; [intros k hop idx Hk; destruct k; discriminate Hk | reflexivity].
  - cbn [length] in Hlen.
    destruct (lookup_lt_is_Some_2 ri i) as [idx Hidx]; [lia|].
    rewrite (drop_S _ _ _ Hidx).
    pose proof (indices_in_area_lookup _ _ _ _ Harea Hidx) as Hrange.
    set (hop' := set_recordIndex hop idx).
    set (msgID := request_id r pos (S (length rest)) 0).
    set (recs1 := <[Z.to_nat idx := RequestRecord hop' msgID]> recs).
    assert (Hl1 : length recs1 = length recs) by apply length_insert.
    destruct (IH (S i) recs1 (match rest with [] => pos | _ => pos + 4 end)%nat)
      as (recs' & Hrun & Hl' & Hcontent & Hframe);
      [lia | eapply indices_in_area_length; eassumption |].
    exists recs'.
    assert (Hstep : create_records (hop :: rest) i ri r recs pos
                    = Some (hop' :: zip_with set_recordIndex rest (drop (S i) ri), recs',
                            (hop', msgID)
                              :: zip (zip_with set_recordIndex rest (drop (S i) ri))
                                   (request_ids r (match rest with [] => pos | _ => pos + 4 end)%nat
                                      (length rest)),
                            ((match rest with [] => pos | _ => pos + 4 end)
                             + 4 * (length rest - 1))%nat)).
    { cbn [create_records].
      assert (Hcreate : forall m, CreateBuildRequestRecord hop' recs m
                                  = Some (<[Z.to_nat idx := RequestRecord hop' m]> recs)).
      { intros m. apply (CreateBuildRequestRecord_in_area hop' recs m). exact Hrange. }
      destruct rest as [|h2 rest'].
      - rewrite Hidx. cbn [mbind option_bind]. fold hop'.
        rewrite Hcreate. cbn [mbind option_bind].
        fold recs1 in Hrun. unfold msgID, request_id in recs1. cbn in recs1.
        fold recs1. rewrite Hrun. reflexivity.
      - rewrite Hidx. cbn [mbind option_bind]. fold hop'.
        rewrite Hcreate. cbn [mbind option_bind].
        assert (Hm : msgID = uint32_of_bytes (RAND_bytes pos 4)).
        { unfold msgID, request_id. cbn [length Nat.sub Nat.eqb].
          rewrite Nat.mul_0_r, Nat.add_0_r. reflexivity. }
        rewrite <- Hm. fold recs1. rewrite Hrun. reflexivity. }
    split.
    { rewrite Hstep. cbn [zip_with length]. f_equal.
      apply (f_equal2 pair); [apply (f_equal2 pair)|]; [reflexivity | |].
      - destruct rest as [|h2 rest']; [reflexivity|].
        cbn [length]. rewrite request_ids_S. cbn [zip zip_with].
        f_equal. f_equal. unfold msgID, request_id. cbn [length Nat.sub Nat.eqb].
        rewrite Nat.mul_0_r, Nat.add_0_r. reflexivity.
      - destruct rest; cbn [length]; lia. }
    split; [congruence|]. split.
    + intros k h idx' Hk Hri. destruct k as [|k].
      * rewrite Nat.add_0_r in Hri. cbn in Hk.
        assert (idx' = idx) by congruence. subst idx'.
        assert (h = hop) by congruence. subst h.
        rewrite Hframe.
        -- unfold recs1. rewrite list_lookup_insert_eq by lia. reflexivity.
        -- intros k' idx' Hk' Hri'.
           eapply (distinct_slots ri recs); try eassumption. lia.
      * cbn in Hk. replace (i + S k)%nat with (S i + k)%nat in Hri by lia.
        rewrite (Hcontent k h idx' Hk Hri). f_equal. f_equal.
        destruct rest as [|h2 rest']; [destruct k; discriminate Hk|].
        cbn [length]. symmetry. apply request_id_shift.
    + intros j Hj. rewrite Hframe.
      * unfold recs1. apply list_lookup_insert_ne.
        intros Heq. apply (Hj 0%nat idx); [cbn; lia | rewrite Nat.add_0_r; exact Hidx |].
        symmetry. exact Heq.
      * intros k idx' Hk Hri. apply (Hj (S k) idx'); [cbn; lia|].
        replace (i + S k)%nat with (S i + k)%nat by lia. exact Hri.
Qed.

(** The loop that fills the fake records: the slot of index number
    [i + k] of the shuffled vector holds the [recordSize] bytes drawn for
    it; the other slots are left alone. *)
Lemma fill_fake_records_spec (ri : list Z) (recordSize : nat) :
  NoDup ri ->
  forall (n i : nat) (recs : list (list byte)) (pos : nat),
    (i + n <= length ri)%nat ->
    indices_in_area ri recs ->
    exists recs' : list (list byte),
      fill_fake_records n i ri recordSize recs pos
      = Some (recs', (pos + n * recordSize)%nat)
      /\ length recs' = length recs
      /\ (forall (k : nat) (idx : Z),
            (k < n)%nat -> ri !! (i + k)%nat = Some idx ->
            recs' !! Z.to_nat idx
            = Some (RAND_bytes (pos + k * recordSize) recordSize))
      /\ (forall j : nat,
            (forall (k : nat) (idx : Z),
                (k < n)%nat -> ri !! (i + k)%nat = Some idx -> j <> Z.to_nat idx) ->
            recs' !! j = recs !! j).
Proof.
  intros Hnd. induction n as [|n IH]; intros i recs pos Hlen Harea.
  - exists recs. cbn [fill_fake_records]. rewrite Nat.add_0_r.
    split; [reflexivity|]. split; [reflexivity|].
    split; [intros k idx Hk; lia | reflexivity].
  - destruct (lookup_lt_is_Some_2 ri i) as [idx Hidx]; [lia|].
    pose proof (indices_in_area_lookup _ _ _ _ Harea Hidx) as Hrange.
    set (recs1 := <[Z.to_nat idx := RAND_bytes pos recordSize]> recs).
    assert (Hl1 : length recs1 = length recs) by apply length_insert.
    destruct (IH (S i) recs1 (pos + recordSize)%nat)
      as (recs' & Hrun & Hl' & Hcontent & Hframe);
      [lia | eapply indices_in_area_length; eassumption |].
    exists recs'. split.
    { cbn [fill_fake_records]. rewrite Hidx. cbn [mbind option_bind].
      rewrite slot_index_in_area by exact Hrange. cbn [mbind option_bind].
      fold recs1. rewrite Hrun. f_equal. f_equal. lia. }
    split; [congruence|]. split.
    + intros k idx' Hk Hri. destruct k as [|k].
      * rewrite Nat.add_0_r in Hri. assert (idx' = idx) by congruence. subst idx'.
        rewrite Hframe.
        -- unfold recs1. rewrite list_lookup_insert_eq by lia.
           rewrite Nat.add_0_r. reflexivity.
        -- intros k' idx' Hk' Hri'.
           eapply (distinct_slots ri recs); try eassumption. lia.
      * replace (i + S k)%nat with (S i + k)%nat in Hri by lia.
        rewrite (Hcontent k idx' ltac:(lia) Hri). f_equal. f_equal. lia.
    + intros j Hj. rewrite Hframe.
      * unfold recs1. apply list_lookup_insert_ne.
        intros Heq. apply (Hj 0%nat idx); [lia | rewrite Nat.add_0_r; exact Hidx |].
        symmetry. exact Heq.
      * intros k idx' Hk Hri. apply (Hj (S k) idx'); [lia|].
        replace (i + S k)%nat with (S i + k)%nat by lia. exact Hri.
Qed.

Lemma hops_in_area_length (hs : list TunnelHopConfig) (recs recs' : list (list byte)) :
  length recs' = length recs -> hops_in_area hs recs -> hops_in_area hs recs'.
Proof. intros H. unfold hops_in_area. rewrite H. exact id. Qed.

Lemma decrypt_following_spec (hop : TunnelHopConfig) :
  forall (nexts : list TunnelHopConfig) (recs : list (list byte)),
    hops_in_area nexts recs ->
    exists recs' : list (list byte),
      decrypt_following hop nexts recs = Some recs'
      /\ length recs' = length recs
      /\ (forall j : nat,
            Forall (fun h => j <> Z.to_nat (recordIndex h)) nexts ->
            recs' !! j = recs !! j).
Proof.
  induction nexts as [|hop1 rest IH]; intros recs Harea.
  - exists recs. repeat split; reflexivity.
  - inversion Harea as [|? ? Hr Hrest]; subst.
    destruct (lookup_lt_is_Some_2 recs (Z.to_nat (recordIndex hop1))) as [rec Hrec];
      [lia|].
    set (recs1 := <[Z.to_nat (recordIndex hop1) := LayerDecrypt hop rec]> recs).
    assert (Hl1 : length recs1 = length recs) by apply length_insert.
    destruct (IH recs1) as (recs' & Hrun & Hl' & Hframe);
      [eapply hops_in_area_length; eassumption|].
    exists recs'. split.
    { cbn [decrypt_following]. unfold DecryptRecord.
      rewrite slot_index_in_area by exact Hr. cbn [mbind option_bind].
      rewrite Hrec. cbn [mbind option_bind]. fold recs1. exact Hrun. }
    split; [congruence|].
    intros j Hj. inversion Hj as [|? ? Hj1 Hj2]; subst.
    rewrite Hframe by exact Hj2.
    unfold recs1. apply list_lookup_insert_ne. intros Heq. apply Hj1. symmetry. exact Heq.
Qed.

Lemma decrypt_real_records_spec :
  forall (prevs after : list TunnelHopConfig) (recs : list (list byte)),
    hops_in_area (prevs ++ after) recs ->
    exists recs' : list (list byte),
      decrypt_real_records prevs after recs = Some recs'
      /\ length recs' = length recs
      /\ (forall j : nat,
            Forall (fun h => j <> Z.to_nat (recordIndex h)) (prevs ++ after) ->
            recs' !! j = recs !! j).
Proof.
  induction prevs as [|hop rest IH]; intros after recs Harea.
  - exists recs. repeat split; reflexivity.
  - cbn [app] in Harea. inversion Harea as [|? ? Hr Hrest]; subst.
    apply Forall_app in Hrest as [Hrest Hafter].
    destruct (decrypt_following_spec hop after recs Hafter)
      as (recs1 & Hrun1 & Hl1 & Hframe1).
    destruct (IH (hop :: after) recs1) as (recs' & Hrun & Hl' & Hframe).
    { eapply hops_in_area_length; [exact Hl1|].
      apply Forall_app. split; [exact Hrest|]. constructor; assumption. }
    exists recs'. split.
    { cbn [decrypt_real_records]. rewrite Hrun1. cbn [mbind option_bind]. exact Hrun. }
    split; [congruence|].
    intros j Hj. cbn [app] in Hj. inversion Hj as [|? ? Hj1 Hj2]; subst.
    apply Forall_app in Hj2 as [Hj2 Hj3].
    rewrite Hframe.
    + apply Hframe1. exact Hj3.
    + apply Forall_app. split; [exact Hj2|]. constructor; assumption.
Qed.

Lemma shuffled_indices_facts (rng : Z) (cfg : TunnelConfig) :
  (forall g l, Permutation (std_shuffle g l) l) ->
  Permutation (shuffled_indices rng cfg)
    (map Z.of_nat (seq 0 (Z.to_nat (num_records cfg))))
  /\ length (shuffled_indices rng cfg) = Z.to_nat (num_records cfg)
  /\ NoDup (shuffled_indices rng cfg)
  /\ Forall (fun idx => 0 <= idx < num_records cfg) (shuffled_indices rng cfg).
Proof.
  intros Hperm. unfold shuffled_indices.
  set (R := Z.to_nat (num_records cfg)).
  pose proof (Hperm rng (map Z.of_nat (seq 0 R))) as Hp.
  assert (HR : 0 <= num_records cfg).
  { unfold num_records, STANDARD_NUM_RECORDS, MAX_NUM_RECORDS.
    destruct (GetNumHops cfg <=? 4); lia. }
  split; [exact Hp|]. split; [|split].
  - rewrite (Permutation_length Hp), length_map, length_seq. reflexivity.
  - apply NoDup_ListNoDup. apply (Permutation_NoDup (Permutation_sym Hp)).
    apply Injective_map_NoDup; [intros a b; apply Nat2Z.inj | apply seq_NoDup].
  - apply List.Forall_forall. intros idx Hin.
    apply (Permutation_in _ Hp) in Hin.
    apply in_map_iff in Hin as (a & <- & Ha). apply in_seq in Ha. lia.
Qed.

Lemma real_hops_indexed (hs : list TunnelHopConfig) (ri : list Z) (h : TunnelHopConfig) :
  List.In h (zip_with set_recordIndex hs ri) ->
  exists k : nat, (k < length hs)%nat /\ ri !! k = Some (recordIndex h).
Proof.
  intros Hin. apply list_elem_of_In in Hin.
  apply list_elem_of_lookup in Hin as [k Hk].
  apply lookup_zip_with_Some in Hk as (hop & idx & -> & Hhop & Hidx).
  exists k. split; [eapply lookup_lt_Some; exact Hhop | exact Hidx].
Qed.

(** What [Build] computes, for a configuration of one to
    [MAX_NUM_RECORDS] hops and fresh messages that hold the records. *)
Lemma Build_spec (t : Tunnel) (cfg : TunnelConfig) (replyMsgID rng : Z) (pos : nat) :
  (forall g l, Permutation (std_shuffle g l) l) ->
  m_Config t = Some cfg ->
  1 <= GetNumHops cfg <= MAX_NUM_RECORDS ->
  num_records cfg <= Z.of_nat (length (records (new_message cfg))) ->
  let H := length (hops cfg) in
  let R := Z.to_nat (num_records cfg) in
  let size := Z.to_nat (GetRecordSize cfg) in
  let ri := shuffled_indices rng cfg in
  let hs := zip_with set_recordIndex (hops cfg) ri in
  exists recs2 recs3 : list (list byte),
    Build t replyMsgID rng pos
    = Some (set_config t (Some (set_hops cfg hs)),
            {| out_msg :=
                 {| len := uint64 (len (new_message cfg)
                                   + uint64 (num_records cfg * GetRecordSize cfg + 1));
                    payload0 := byte_of_Z (num_records cfg);
                    records := recs3 |};
               out_numRecords := num_records cfg;
               out_recordIndicies := ri;
               out_requests := zip hs (request_ids replyMsgID pos H);
               out_filled := recs2;
               out_pos := (pos + 4 * (H - 1) + (R - H) * size)%nat |})
    /\ (forall (k : nat) (hop : TunnelHopConfig) (idx : Z),
          hops cfg !! k = Some hop -> ri !! k = Some idx ->
          recs2 !! Z.to_nat idx
          = Some (RequestRecord (set_recordIndex hop idx)
                    (request_id replyMsgID pos H k)))
    /\ (forall (i : nat) (idx : Z),
          (H <= i < R)%nat -> ri !! i = Some idx ->
          recs3 !! Z.to_nat idx
          = Some (RAND_bytes (pos + 4 * (H - 1) + (i - H) * size) size)).
Proof.
  intros Hperm Hcfg Hhops Hcap H R size ri hs.
  destruct (shuffled_indices_facts rng cfg Hperm) as (_ & Hlen & Hnd & Hrange).
  fold ri in Hlen, Hnd, Hrange. fold R in Hlen.
  assert (HH : GetNumHops cfg = Z.of_nat H) by reflexivity.
  assert (HR : num_records cfg = Z.of_nat R).
  { unfold R, num_records, STANDARD_NUM_RECORDS, MAX_NUM_RECORDS.
    destruct (GetNumHops cfg <=? 4); reflexivity. }
  assert (HHR : (1 <= H <= R)%nat).
  { unfold num_records, STANDARD_NUM_RECORDS, MAX_NUM_RECORDS in HR.
    unfold MAX_NUM_RECORDS in Hhops.
    destruct (GetNumHops cfg <=? 4) eqn:E;
      [apply Z.leb_le in E | apply Z.leb_gt in E]; lia. }
  set (recs0 := records (new_message cfg)) in *.
  assert (Harea0 : indices_in_area ri recs0).
  { unfold indices_in_area. eapply Forall_impl; [exact Hrange|].
    intros idx Hidx. cbn beta in Hidx. lia. }
  destruct (create_records_spec ri replyMsgID Hnd (hops cfg) 0 recs0 pos)
    as (recs1 & Hrun1 & Hl1 & Hcontent1 & _); [fold H; lia | exact Harea0 |].
  rewrite drop_0 in Hrun1. fold hs H in Hrun1.
  assert (Harea1 : indices_in_area ri recs1)
    by (eapply indices_in_area_length; eassumption).
  destruct (fill_fake_records_spec ri size Hnd (R - H) H recs1
              (pos + 4 * (H - 1))%nat)
    as (recs2 & Hrun2 & Hl2 & Hcontent2 & Hframe2); [lia | exact Harea1 |].
  assert (Harea2 : indices_in_area ri recs2)
    by (eapply indices_in_area_length; eassumption).
  assert (Hreal : forall h, List.In h hs ->
            exists k : nat, (k < H)%nat /\ ri !! k = Some (recordIndex h)).
  { intros h Hin. apply real_hops_indexed. exact Hin. }
  assert (Hhs_area : hops_in_area hs recs2).
  { apply List.Forall_forall. intros h Hin.
    destruct (Hreal h Hin) as (k & _ & Hk).
    eapply indices_in_area_lookup; eassumption. }
  assert (Hhs_len : length hs = H).
  { unfold hs. apply length_zip_with_l. fold H. lia. }
  destruct (rev hs) as [|last prevs] eqn:Erev.
  { apply (f_equal (@length _)) in Erev. rewrite length_rev in Erev.
    cbn in Erev. lia. }
  assert (Hchain : forall P : TunnelHopConfig -> Prop,
            Forall P hs -> Forall P (prevs ++ [last])).
  { intros P HP. apply Forall_rev in HP. rewrite Erev in HP.
    inversion HP; subst. apply Forall_app. split; [assumption|].
    constructor; [assumption | constructor]. }
  destruct (decrypt_real_records_spec prevs [last] recs2 (Hchain _ Hhs_area))
    as (recs3 & Hrun3 & Hl3 & Hframe3).
  exists recs2, recs3. split; [|split].
  - unfold Build. rewrite Hcfg. cbn [mbind option_bind].
    fold (num_records cfg). fold (new_message cfg). fold (shuffled_indices rng cfg).
    fold ri. fold recs0. rewrite Hrun1. cbn [mbind option_bind].
    rewrite HH, HR.
    replace (Z.to_nat (Z.of_nat R - Z.of_nat H)) with (R - H)%nat by lia.
    rewrite Nat2Z.id. fold (GetRecordSize cfg). fold size.
    rewrite Hrun2. cbn [mbind option_bind]. rewrite Erev, Hrun3.
    cbn [mbind option_bind]. reflexivity.
  - intros k hop idx Hk Hidx.
    rewrite Hframe2.
    + apply (Hcontent1 k hop idx Hk). exact Hidx.
    + intros k' idx' Hk' Hidx'.
      apply lookup_lt_Some in Hk. fold H in Hk.
      eapply (distinct_slots ri recs1); try eassumption. lia.
  - intros i idx Hi Hidx.
    rewrite Hframe3.
    + apply (Hcontent2 (i - H)%nat idx); [lia|].
      replace (H + (i - H))%nat with i by lia. exact Hidx.
    + apply Hchain. apply List.Forall_forall. intros h Hin.
      destruct (Hreal h Hin) as (k & Hk & Hrik).
      pose proof (indices_in_area_lookup _ _ _ _ Harea2 Hrik) as Hr1.
      eapply (distinct_slots ri recs2); try eassumption. lia.
Qed.

Lemma recordIndex_zip_with (hs : list TunnelHopConfig) :
  forall ri : list Z,
    map recordIndex (zip_with set_recordIndex hs ri) = take (length hs) ri.
Proof.
  induction hs as [|hop rest IH]; intros [|idx ri]; try reflexivity.
  cbn [zip_with map length take recordIndex set_recordIndex]. f_equal. apply IH.
Qed.

Lemma lookup_map_seq {A} (f : nat -> A) (n : nat) :
  forall (a k : nat) (y : A),
    map f (seq a n) !! k = Some y -> y = f (a + k)%nat /\ (k < n)%nat.
Proof.
  induction n as [|n IH]; intros a k y Hk; [destruct k; discriminate Hk|].
  destruct k as [|k]; cbn in Hk.
  - inversion Hk; subst. rewrite Nat.add_0_r. split; [reflexivity | lia].
  - apply IH in Hk as [-> Hlt]. split; [f_equal; lia | lia].
Qed.

(** C3: for a configuration of [H] hops, [1 <= H <= MAX_NUM_RECORDS],
    [Build] returns; the number of records [R] is [STANDARD_NUM_RECORDS]
    when [H <= STANDARD_NUM_RECORDS] and [MAX_NUM_RECORDS] otherwise; the
    message length grows by [1 + R * recordSize]; the first payload byte is
    [R]; the index vector is a permutation of [0 .. R) and the hops carry
    its first [H] entries, which are distinct; each of the other [R - H]
    entries addresses a slot no hop uses, and the message holds there
    [recordSize] bytes drawn from [RAND_bytes] for that slot alone. *)
Theorem Build_records
    (t : Tunnel) (cfg : TunnelConfig) (replyMsgID rng : Z) (pos : nat) :
  (forall g l, Permutation (std_shuffle g l) l) ->
  m_Config t = Some cfg ->
  1 <= GetNumHops cfg <= MAX_NUM_RECORDS ->
  num_records cfg <= Z.of_nat (length (records (new_message cfg))) ->
  0 <= GetRecordSize cfg ->
  0 <= len (new_message cfg) ->
  len (new_message cfg) + 1 + num_records cfg * GetRecordSize cfg < 2 ^ 64 ->
  let H := length (hops cfg) in
  let size := Z.to_nat (GetRecordSize cfg) in
  exists (t' : Tunnel) (out : BuildOutput) (cfg' : TunnelConfig),
    Build t replyMsgID rng pos = Some (t', out)
    /\ m_Config t' = Some cfg'
    /\ out_numRecords out
       = (if GetNumHops cfg <=? STANDARD_NUM_RECORDS
          then STANDARD_NUM_RECORDS else MAX_NUM_RECORDS)
    /\ len (out_msg out)
       = len (new_message cfg) + (1 + out_numRecords out * GetRecordSize cfg)
    /\ byte_to_Z (payload0 (out_msg out)) = out_numRecords out
    /\ Permutation (out_recordIndicies out)
         (map Z.of_nat (seq 0 (Z.to_nat (out_numRecords out))))
    /\ length (hops cfg') = H
    /\ map recordIndex (hops cfg') = take H (out_recordIndicies out)
    /\ NoDup (map recordIndex (hops cfg'))
    /\ (forall i : nat,
          (H <= i < Z.to_nat (out_numRecords out))%nat ->
          exists idx : Z,
            out_recordIndicies out !! i = Some idx
            /\ Forall (fun hop => recordIndex hop <> idx) (hops cfg')
            /\ records (out_msg out) !! Z.to_nat idx
               = Some (RAND_bytes (pos + 4 * (H - 1) + (i - H) * size) size)).
Proof.
  intros Hperm Hcfg Hhops Hcap Hsize Hlen0 Hlen H size.
  destruct (Build_spec t cfg replyMsgID rng pos Hperm Hcfg Hhops Hcap)
    as (recs2 & recs3 & Hrun & _ & Hfake).
  destruct (shuffled_indices_facts rng cfg Hperm) as (Hp & Hl & Hnd & Hrange).
  assert (HRv : num_records cfg = 4 \/ num_records cfg = 8).
  { unfold num_records, STANDARD_NUM_RECORDS, MAX_NUM_RECORDS.
    destruct (GetNumHops cfg <=? 4); [left | right]; reflexivity. }
  assert (HH : (H <= length (shuffled_indices rng cfg))%nat).
  { rewrite Hl. unfold num_records, STANDARD_NUM_RECORDS, MAX_NUM_RECORDS in *.
    unfold GetNumHops in *. fold H in Hhops |- *.
    destruct (Z.of_nat H <=? 4) eqn:E;
      [apply Z.leb_le in E | apply Z.leb_gt in E]; lia. }
  eexists _, _, _. split; [exact Hrun|].
  cbn [m_Config set_config out_numRecords out_msg len payload0 records
       out_recordIndicies].
  split; [reflexivity|]. cbn [hops set_hops].
  split; [reflexivity|]. split.
  { unfold uint64. change (2 ^ 64) with 18446744073709551616 in *.
    rewrite (Z.mod_small (num_records cfg * GetRecordSize cfg + 1)) by nia.
    rewrite Z.mod_small by nia. lia. }
  split.
  { rewrite byte_to_Z_of_Z. apply uint8_small. lia. }
  split; [exact Hp|]. split.
  { apply length_zip_with_l. exact HH. }
  split; [apply recordIndex_zip_with|]. split.
  { rewrite recordIndex_zip_with. fold H.
    rewrite <- (take_drop H (shuffled_indices rng cfg)) in Hnd.
    apply NoDup_app in Hnd as (Hnd1 & _ & _). exact Hnd1. }
  intros i Hi.
  destruct (lookup_lt_is_Some_2 (shuffled_indices rng cfg) i) as [idx Hidx]; [lia|].
  exists idx. split; [exact Hidx|]. split.
  - apply List.Forall_forall. intros h Hin Heq.
    destruct (real_hops_indexed _ _ _ Hin) as (k & Hk & Hrik).
    fold H in Hk. rewrite Heq in Hrik.
    assert (k = i) by (eapply NoDup_lookup; eassumption). lia.
  - apply Hfake; [lia | exact Hidx].
Qed.

(** C7: [Build] calls [CreateBuildRequestRecord] once for each hop, in
    traversal order; the call for the last hop gets the caller's
    [replyMsgID], the call for hop number [k] before the last gets the
    32-bit id made of the four bytes [RAND_bytes] delivers at position
    [pos + 4 * k], which no other call uses; and once all records are
    created the hop's slot holds its request record for that id. *)
Theorem Build_reply_message_ids
    (t : Tunnel) (cfg : TunnelConfig) (replyMsgID rng : Z) (pos : nat) :
  (forall g l, Permutation (std_shuffle g l) l) ->
  m_Config t = Some cfg ->
  1 <= GetNumHops cfg <= MAX_NUM_RECORDS ->
  num_records cfg <= Z.of_nat (length (records (new_message cfg))) ->
  let H := length (hops cfg) in
  exists (t' : Tunnel) (out : BuildOutput) (cfg' : TunnelConfig),
    Build t replyMsgID rng pos = Some (t', out)
    /\ m_Config t' = Some cfg'
    /\ length (out_requests out) = H
    /\ (forall (k : nat) (hop : TunnelHopConfig) (msgID : Z),
          out_requests out !! k = Some (hop, msgID) ->
          hops cfg' !! k = Some hop
          /\ (k = (H - 1)%nat -> msgID = replyMsgID)
          /\ ((k < H - 1)%nat ->
              msgID = uint32_of_bytes (RAND_bytes (pos + 4 * k) 4))
          /\ out_filled out !! Z.to_nat (recordIndex hop)
             = Some (RequestRecord hop msgID)).
Proof.
  intros Hperm Hcfg Hhops Hcap H.
  destruct (Build_spec t cfg replyMsgID rng pos Hperm Hcfg Hhops Hcap)
    as (recs2 & recs3 & Hrun & Hreal & _).
  destruct (shuffled_indices_facts rng cfg Hperm) as (Hp & Hl & Hnd & Hrange).
  assert (HH : (H <= length (shuffled_indices rng cfg))%nat).
  { rewrite Hl. unfold num_records, STANDARD_NUM_RECORDS, MAX_NUM_RECORDS in *.
    unfold GetNumHops in *. fold H in Hhops |- *.
    destruct (Z.of_nat H <=? 4) eqn:E;
      [apply Z.leb_le in E | apply Z.leb_gt in E]; lia. }
  eexists _, _, _. split; [exact Hrun|].
  cbn [m_Config set_config out_requests out_filled].
  split; [reflexivity|]. cbn [hops set_hops]. split.
  { rewrite length_zip_with_l.
    - apply length_zip_with_l. exact HH.
    - rewrite length_zip_with_l by exact HH. unfold request_ids.
      rewrite length_map, length_seq. fold H. lia. }
  intros k hop msgID Hk.
  apply lookup_zip_with_Some in Hk as (hop' & id' & Heq & Hhop & Hid).
  inversion Heq; subst hop' id'.
  apply lookup_map_seq in Hid as [-> Hlt]. cbn [Nat.add].
  split; [exact Hhop|].
  apply lookup_zip_with_Some in Hhop as (hop0 & idx & -> & Hhop0 & Hidx).
  split; [|split].
  - intros ->. unfold request_id. rewrite Nat.eqb_refl. reflexivity.
  - intros Hk. unfold request_id.
    assert (E : (k =? length (hops cfg) - 1)%nat = false)
      by (apply Nat.eqb_neq; fold H; lia).
    rewrite E. reflexivity.
  - cbn [recordIndex set_recordIndex]. apply Hreal; assumption.
Qed.

(** * The rest of Tunnel.cpp: properties *)

(** ** The registry of tunnel ids *)

(** X1: [AddTunnel] returns [true] exactly when the id of the tunnel was
    free; afterwards [GetTunnel] of that id gives the tunnel that was
    registered first (the new one only if the id was free) and every other
    id is as before. *)
Theorem AddTunnel_keeps_first_registration
    (s : Tunnels) (l : positive) (mb : TunnelMembers) :
  member_store s !! l = Some mb ->
  exists (added : bool) (s' : Tunnels),
    AddTunnel s (Some l) = Some (added, s')
    /\ (added = true <-> GetTunnel s (GetTunnelID mb) = None)
    /\ GetTunnel s' (GetTunnelID mb)
       = Some (default l (GetTunnel s (GetTunnelID mb)))
    /\ (forall id : Z, id <> GetTunnelID mb -> GetTunnel s' id = GetTunnel s id).
Proof.
  intros Hmb. unfold AddTunnel, GetTunnel. rewrite Hmb. cbn [mbind option_bind].
  destruct (m_Tunnels s !! GetTunnelID mb) as [l0|] eqn:E.
  - exists false, s. rewrite E. cbn. repeat split; try discriminate; reflexivity.
  - eexists true, _. split; [reflexivity|]. cbn [m_Tunnels set_m_Tunnels default].
    split; [split; reflexivity|]. split.
    + apply lookup_insert_eq.
    + intros id Hid. apply lookup_insert_ne. congruence.
Qed.

(** X2: [RemoveTunnel] frees the id and nothing else: afterwards [GetTunnel]
    of it is [nullptr], every other id is as before, and [AddTunnel] of a
    tunnel with that id succeeds and makes [GetTunnel] return it. *)
Theorem RemoveTunnel_frees_id (s : Tunnels) (l : positive) (mb : TunnelMembers) :
  member_store s !! l = Some mb ->
  let s1 := RemoveTunnel s (GetTunnelID mb) in
  GetTunnel s1 (GetTunnelID mb) = None
  /\ (forall id : Z, id <> GetTunnelID mb -> GetTunnel s1 id = GetTunnel s id)
  /\ exists s2 : Tunnels,
       AddTunnel s1 (Some l) = Some (true, s2)
       /\ GetTunnel s2 (GetTunnelID mb) = Some l.
Proof.
  intros Hmb s1. unfold s1, RemoveTunnel, GetTunnel, AddTunnel.
  cbn [m_Tunnels set_m_Tunnels member_store].
  split; [apply lookup_delete_eq|]. split.
  - intros id Hid. apply lookup_delete_ne. congruence.
  - rewrite Hmb. cbn [mbind option_bind]. rewrite lookup_delete_eq.
    eexists. split; [reflexivity|]. cbn [m_Tunnels set_m_Tunnels].
    apply lookup_insert_eq.
Qed.

(** ** GetNextInboundTunnel *)

Lemma object_Some (heap : gmap positive Tunnel) (members : gmap positive TunnelMembers)
    (l : positive) (t : Tunnel) (mb : TunnelMembers) :
  object heap members l = Some (t, mb) <-> heap !! l = Some t /\ members !! l = Some mb.
Proof.
  unfold object. destruct (heap !! l) as [t0|]; cbn.
  - destruct (members !! l) as [mb0|]; cbn.
    + split; [intros H; inversion H; subst; split; reflexivity |].
      intros [H1 H2]. inversion H1; inversion H2; subst. reflexivity.
    + split; [discriminate | intros [_ H]; discriminate H].
  - split; [discriminate | intros [H _]; discriminate H].
Qed.

Lemma next_inbound_loop_spec (heap : gmap positive Tunnel)
    (members : gmap positive TunnelMembers) :
  forall (l : list positive) (tunnel : option positive) (minReceived : Z),
    live_tunnels heap members l ->
    (forall p, tunnel = Some p -> minReceived = received_bytes members p) ->
    next_inbound_loop heap members l tunnel minReceived
    = Some (fold_left (least_loaded_step members) (established_tunnels heap l) tunnel).
Proof.
  induction l as [|it rest IH]; intros tunnel minReceived Hlive Hmin.
  - reflexivity.
  - inversion Hlive as [|? ? [[t mb] Hobj] Hrest]; subst.
    cbn [next_inbound_loop]. rewrite Hobj. cbn [mbind option_bind].
    apply object_Some in Hobj as [Ht Hmb].
    rewrite (established_tunnels_cons heap it rest t Ht).
    assert (Hb : received_bytes members it = GetNumReceivedBytes mb)
      by (unfold received_bytes; rewrite Hmb; reflexivity).
    destruct (IsEstablished t); cbn [negb].
    + cbn [fold_left]. destruct tunnel as [p|].
      * rewrite bool_decide_eq_true_2 by eauto. cbn [negb orb].
        cbn [least_loaded_step]. rewrite Hb, <- (Hmin p eq_refl).
        destruct (GetNumReceivedBytes mb <? minReceived).
        -- apply IH; [exact Hrest|]. intros q Hq. inversion Hq; subst. symmetry. exact Hb.
        -- apply IH; [exact Hrest | exact Hmin].
      * rewrite bool_decide_eq_false_2 by (intros [? H]; discriminate H).
        cbn [negb orb least_loaded_step].
        apply IH; [exact Hrest|]. intros q Hq. inversion Hq; subst. symmetry. exact Hb.
    + apply IH; assumption.
Qed.

Lemma least_loaded_spec (members : gmap positive TunnelMembers) :
  forall (cands : list positive) (cur : option positive),
    match fold_left (least_loaded_step members) cands cur with
    | None => cur = None /\ cands = []
    | Some p =>
        (cur = Some p
         /\ forall q, List.In q cands -> received_bytes members p <= received_bytes members q)
        \/ (exists before after : list positive,
              cands = before ++ p :: after
              /\ (forall c, cur = Some c -> received_bytes members p < received_bytes members c)
              /\ (forall q, List.In q before ->
                            received_bytes members p < received_bytes members q)
              /\ (forall q, List.In q after ->
                            received_bytes members p <= received_bytes members q))
    end.
Proof.
  induction cands as [|q rest IH]; intros cur.
  - cbn. destruct cur as [p|]; [left; split; [reflexivity | intros ? []] | split; reflexivity].
  - cbn [fold_left]. specialize (IH (least_loaded_step members cur q)).
    destruct (fold_left (least_loaded_step members) rest (least_loaded_step members cur q))
      as [p|]; [|destruct IH as [H _]; destruct cur as [c|]; cbn in H;
                 [destruct (received_bytes members q <? received_bytes members c)|];
                 discriminate H].
    destruct cur as [c|]; cbn [least_loaded_step] in IH.
    + destruct (received_bytes members q <? received_bytes members c) eqn:E;
        [apply Z.ltb_lt in E | apply Z.ltb_ge in E].
      * right. destruct IH as [[Hp Hall] | (before & after & Hsplit & Hcur & Hb & Ha)].
        -- inversion Hp; subst. exists [], rest. split; [reflexivity|].
           split; [intros c0 Hc0; inversion Hc0; subst; exact E|].
           split; [intros ? [] | exact Hall].
        -- exists (q :: before), after. split; [cbn; rewrite Hsplit; reflexivity|].
           pose proof (Hcur q eq_refl) as Hpq.
           split; [intros c0 Hc0; inversion Hc0; subst; lia|].
           split; [|exact Ha].
           intros r [<- | Hr]; [exact Hpq | apply Hb; exact Hr].
      * destruct IH as [[Hp Hall] | (before & after & Hsplit & Hcur & Hb & Ha)].
        -- left. split; [exact Hp|]. inversion Hp; subst.
           intros r [<- | Hr]; [exact E | apply Hall; exact Hr].
        -- right. exists (q :: before), after. split; [cbn; rewrite Hsplit; reflexivity|].
           split; [exact Hcur|]. split; [|exact Ha].
           pose proof (Hcur c eq_refl) as Hpc.
           intros r [<- | Hr]; [lia | apply Hb; exact Hr].
    + right. destruct IH as [[Hp Hall] | (before & after & Hsplit & Hcur & Hb & Ha)].
      * inversion Hp; subst. exists [], rest. split; [reflexivity|].
        split; [intros c0 Hc0; discriminate Hc0|].
        split; [intros ? [] | exact Hall].
      * exists (q :: before), after. split; [cbn; rewrite Hsplit; reflexivity|].
        pose proof (Hcur q eq_refl) as Hpq.
        split; [intros c0 Hc0; discriminate Hc0|].
        split; [|exact Ha].
        intros r [<- | Hr]; [exact Hpq | apply Hb; exact Hr].
Qed.

(** X3: on a list of live inbound tunnels [GetNextInboundTunnel] returns
    [nullptr] when none is established; otherwise it returns an established
    tunnel that has received no more bytes than any other established tunnel
    of the list, and strictly fewer than every established tunnel before it
    in the list (the first of the least loaded ones). *)
Theorem GetNextInboundTunnel_least_loaded (s : Tunnels) :
  live_tunnels (tunnel_store s) (member_store s) (m_InboundTunnels s) ->
  let est := established_tunnels (tunnel_store s) (m_InboundTunnels s) in
  (est = [] -> GetNextInboundTunnel s = Some None)
  /\ (est <> [] ->
      exists (p : positive) (before after : list positive),
        GetNextInboundTunnel s = Some (Some p)
        /\ est = before ++ p :: after
        /\ (forall q, List.In q before ->
                      received_bytes (member_store s) p < received_bytes (member_store s) q)
        /\ (forall q, List.In q after ->
                      received_bytes (member_store s) p <= received_bytes (member_store s) q)).
Proof.
  intros Hlive est. unfold GetNextInboundTunnel.
  rewrite next_inbound_loop_spec by (try assumption; intros p Hp; discriminate Hp).
  fold est. pose proof (least_loaded_spec (member_store s) est None) as Hspec.
  split.
  - intros E. rewrite E. reflexivity.
  - intros Hne.
    destruct (fold_left (least_loaded_step (member_store s)) est None) as [p|].
    + destruct Hspec as [[Hp _] | (before & after & Hsplit & _ & Hb & Ha)];
        [discriminate Hp|].
      exists p, before, after. repeat split; assumption.
    + destruct Hspec as [_ E]. contradiction.
Qed.

(** ** AddPendingTunnel *)

Lemma find_map_assign_eq (k : Z) (v : positive) (m : list (Z * positive)) :
  List.find (fun e => fst e =? k) (map_assign k v m) = Some (k, v).
Proof.
  induction m as [|[k' v'] rest IH]; cbn [map_assign].
  - cbn. rewrite Z.eqb_refl. reflexivity.
  - destruct (k <? k') eqn:E1.
    + cbn. rewrite Z.eqb_refl. reflexivity.
    + destruct (k =? k') eqn:E2.
      * cbn. rewrite Z.eqb_refl. reflexivity.
      * cbn [List.find fst]. rewrite Z.eqb_sym, E2. exact IH.
Qed.

Lemma find_map_assign_ne (k k2 : Z) (v : positive) (m : list (Z * positive)) :
  k2 <> k ->
  List.find (fun e => fst e =? k2) (map_assign k v m)
  = List.find (fun e => fst e =? k2) m.
Proof.
  intros Hne. assert (Ek : (k =? k2) = false) by (apply Z.eqb_neq; congruence).
  induction m as [|[k' v'] rest IH]; cbn [map_assign].
  - cbn. rewrite Ek. reflexivity.
  - destruct (k <? k') eqn:E1.
    + cbn [List.find fst]. rewrite Ek. reflexivity.
    + destruct (k =? k') eqn:E2.
      * apply Z.eqb_eq in E2. subst k'. cbn [List.find fst]. rewrite Ek. reflexivity.
      * cbn [List.find fst]. rewrite IH. reflexivity.
Qed.

Lemma map_assign_bound (k b : Z) (v : positive) (m : list (Z * positive)) :
  b < k -> Forall (fun e' => b < fst e') m ->
  Forall (fun e' => b < fst e') (map_assign k v m).
Proof.
  intros Hb. induction m as [|[k' v'] rest IH]; intros Hall; cbn [map_assign].
  - constructor; [exact Hb | constructor].
  - inversion Hall as [|? ? Hk' Hrest]; subst.
    destruct (k <? k'); [constructor; [exact Hb | exact Hall]|].
    destruct (k =? k'); [constructor; [exact Hb | exact Hrest]|].
    constructor; [exact Hk' | apply IH; exact Hrest].
Qed.

Lemma map_assign_increasing (k : Z) (v : positive) (m : list (Z * positive)) :
  increasing_keys m -> increasing_keys (map_assign k v m).
Proof.
  induction m as [|[k' v'] rest IH]; intros Hinc; cbn [map_assign].
  - cbn. split; [constructor | exact I].
  - destruct Hinc as [Hall Hrest]. cbn [fst] in Hall.
    destruct (k <? k') eqn:E1; [apply Z.ltb_lt in E1 | apply Z.ltb_ge in E1].
    + cbn [increasing_keys fst]. split; [|split; assumption].
      constructor; [exact E1|].
      eapply Forall_impl; [exact Hall|]. intros e He. cbn beta in He. lia.
    + destruct (k =? k') eqn:E2; [apply Z.eqb_eq in E2 | apply Z.eqb_neq in E2].
      * subst k'. cbn [increasing_keys fst]. split; assumption.
      * cbn [increasing_keys fst]. split; [|apply IH; exact Hrest].
        apply map_assign_bound; [lia | exact Hall].
Qed.

(** X4: [AddPendingTunnel] stores the tunnel under the reply message id
    whatever was stored under it before (the last writer wins), leaves the
    lookups of all other ids as they were and keeps the keys of the map in
    strictly increasing order; a lookup of the id with [GetPendingTunnel]
    then returns the new tunnel, if it is [Pending], and marks it
    [BuildReplyReceived].  The same holds for both directions. *)
Theorem AddPendingTunnel_last_writer_wins
    (s : Tunnels) (replyMsgID : Z) (tunnel : positive) (t : Tunnel) :
  tunnel_store s !! tunnel = Some t ->
  GetState t = eTunnelStatePending ->
  let marked :=
    <[tunnel := SetState t eTunnelStateBuildReplyReceived]> (tunnel_store s) in
  let so := AddPendingOutboundTunnel s replyMsgID tunnel in
  let si := AddPendingInboundTunnel s replyMsgID tunnel in
  GetPendingOutboundTunnel so replyMsgID = Some (Some tunnel, set_tunnel_store so marked)
  /\ GetPendingInboundTunnel si replyMsgID = Some (Some tunnel, set_tunnel_store si marked)
  /\ (forall id : Z, id <> replyMsgID ->
        List.find (fun e => fst e =? id) (m_PendingOutboundTunnels so)
        = List.find (fun e => fst e =? id) (m_PendingOutboundTunnels s)
        /\ List.find (fun e => fst e =? id) (m_PendingInboundTunnels si)
           = List.find (fun e => fst e =? id) (m_PendingInboundTunnels s))
  /\ (increasing_keys (m_PendingOutboundTunnels s) ->
      increasing_keys (m_PendingOutboundTunnels so))
  /\ (increasing_keys (m_PendingInboundTunnels s) ->
      increasing_keys (m_PendingInboundTunnels si)).
Proof.
  intros Ht Hst marked so si.
  assert (Hget : forall m : list (Z * positive),
             GetPendingTunnel replyMsgID (map_assign replyMsgID tunnel m) (tunnel_store s)
             = Some (Some tunnel, marked)).
  { intros m. unfold GetPendingTunnel. rewrite find_map_assign_eq, Ht.
    cbn [mbind option_bind].
    destruct (decide (GetState t = eTunnelStatePending)); [reflexivity | contradiction]. }
  split; [|split; [|split; [|split]]].
  - unfold GetPendingOutboundTunnel, so, AddPendingOutboundTunnel.
    cbn [m_PendingOutboundTunnels set_m_PendingOutboundTunnels tunnel_store].
    rewrite Hget. reflexivity.
  - unfold GetPendingInboundTunnel, si, AddPendingInboundTunnel.
    cbn [m_PendingInboundTunnels set_m_PendingInboundTunnels tunnel_store].
    rewrite Hget. reflexivity.
  - intros id Hid. split; apply find_map_assign_ne; exact Hid.
  - apply map_assign_increasing.
  - apply map_assign_increasing.
Qed.

(** ** HandleTunnelBuildReplyMsg *)

Lemma set_tunnel_store_id (s : Tunnels) : set_tunnel_store s (tunnel_store s) = s.
Proof. destruct s; reflexivity. Qed.

Lemma GetPendingTunnel_found (id : Z) (pending : list (Z * positive))
    (heap : gmap positive Tunnel) (l : positive) (t : Tunnel) :
  List.NoDup (map fst pending) -> List.In (id, l) pending ->
  heap !! l = Some t ->
  GetPendingTunnel id pending heap
  = if decide (GetState t = eTunnelStatePending)
    then Some (Some l, <[l := SetState t eTunnelStateBuildReplyReceived]> heap)
    else Some (None, heap).
Proof.
  intros Hnd Hin Hl. unfold GetPendingTunnel.
  rewrite (find_unique_key _ _ _ Hnd Hin), Hl. reflexivity.
Qed.

(** X5: a build reply whose message id belongs to a pending outbound tunnel
    in state [Pending] is handed to [HandleTunnelBuildResponse] of that
    tunnel.  If that returns [true] the tunnel becomes [Established], is
    appended to the outbound list and its active pool gets one
    [TunnelCreated] (without an active pool the tunnel is detached from its
    pool); if it returns [false] the tunnel becomes [BuildFailed] and no
    list changes.  The pending map, the inbound list and the registry are
    left as they were, and the profile events are those of
    [HandleTunnelBuildResponse]. *)
Theorem HandleTunnelBuildReplyMsg_outcome
    (s : Tunnels) (msgID : Z) (msg0 : byte) (recs : list (list byte)) (len : Z)
    (l : positive) (t t' : Tunnel) (mb : TunnelMembers) (ok : bool)
    (evs : list ProfileEvent) :
  List.NoDup (map fst (m_PendingOutboundTunnels s)) ->
  List.In (msgID, l) (m_PendingOutboundTunnels s) ->
  tunnel_store s !! l = Some t ->
  GetState t = eTunnelStatePending ->
  member_store s !! l = Some mb ->
  (forall pool, GetTunnelPool mb = Some pool -> is_Some (pool_store s !! pool)) ->
  HandleTunnelBuildResponse (SetState t eTunnelStateBuildReplyReceived) msg0 recs len
  = Some (ok, t', evs) ->
  exists (s' : Tunnels) (calls : list PoolCall),
    HandleTunnelBuildReplyMsg s msgID msg0 recs len = Some (s', evs, calls)
    /\ tunnel_store s'
       = <[l := SetState t' (if ok then eTunnelStateEstablished
                             else eTunnelStateBuildFailed)]> (tunnel_store s)
    /\ m_OutboundTunnels s' = m_OutboundTunnels s ++ (if ok then [l] else [])
    /\ calls = (if ok then match active_pool s mb with
                           | Some pool => [TunnelCreated pool l]
                           | None => []
                           end
                else [])
    /\ member_store s'
       = (if ok then match active_pool s mb with
                     | Some _ => member_store s
                     | None => <[l := SetTunnelPool mb None]> (member_store s)
                     end
          else member_store s)
    /\ m_PendingOutboundTunnels s' = m_PendingOutboundTunnels s
    /\ m_PendingInboundTunnels s' = m_PendingInboundTunnels s
    /\ m_InboundTunnels s' = m_InboundTunnels s
    /\ m_Tunnels s' = m_Tunnels s
    /\ pool_store s' = pool_store s.
Proof.
  intros Hnd Hin Hl Hst Hmb Hpool Hresp.
  unfold HandleTunnelBuildReplyMsg, GetPendingOutboundTunnel.
  rewrite (GetPendingTunnel_found _ _ _ _ _ Hnd Hin Hl).
  destruct (decide (GetState t = eTunnelStatePending)) as [_|Hne]; [|contradiction].
  cbn [mbind option_bind tunnel_store set_tunnel_store].
  rewrite lookup_insert_eq. cbn [mbind option_bind]. rewrite Hresp.
  cbn [mbind option_bind]. destruct ok.
  - unfold AddOutboundTunnel.
    cbn [member_store set_m_OutboundTunnels set_tunnel_store pool_store m_OutboundTunnels].
    rewrite Hmb. cbn [mbind option_bind]. unfold active_pool.
    destruct (GetTunnelPool mb) as [pool|] eqn:Epool.
    + destruct (Hpool pool eq_refl) as [p Hp]. rewrite Hp. cbn [mbind option_bind].
      destruct (IsActive p); eexists _, _; (split; [reflexivity|]);
        cbn; rewrite insert_insert_eq; repeat split; reflexivity.
    + eexists _, _. split; [reflexivity|].
      cbn. rewrite insert_insert_eq. repeat split; reflexivity.
  - eexists _, _. split; [reflexivity|].
    cbn. rewrite insert_insert_eq, app_nil_r. repeat split; reflexivity.
Qed.

Lemma HandleTunnelBuildReplyMsg_dropped
    (s : Tunnels) (msgID : Z) (msg0 : byte) (recs : list (list byte)) (len : Z)
    (l : positive) (t : Tunnel) :
  List.NoDup (map fst (m_PendingOutboundTunnels s)) ->
  List.In (msgID, l) (m_PendingOutboundTunnels s) ->
  tunnel_store s !! l = Some t ->
  GetState t <> eTunnelStatePending ->
  HandleTunnelBuildReplyMsg s msgID msg0 recs len = Some (s, [], []).
Proof.
  intros Hnd Hin Hl Hst.
  unfold HandleTunnelBuildReplyMsg, GetPendingOutboundTunnel.
  rewrite (GetPendingTunnel_found _ _ _ _ _ Hnd Hin Hl).
  destruct (decide (GetState t = eTunnelStatePending)) as [Heq|_]; [contradiction|].
  cbn [mbind option_bind]. rewrite set_tunnel_store_id. reflexivity.
Qed.

(** X6: a build reply is processed at most once.  After a reply for a
    pending outbound tunnel has been handled (whatever its outcome), a
    further reply with the same message id, whatever it carries, changes
    nothing and sends no event; the same holds from the start for a reply
    whose id is not in the pending map. *)
Theorem HandleTunnelBuildReplyMsg_at_most_once
    (s s' : Tunnels) (msgID : Z) (msg0 msg0' : byte)
    (recs recs' : list (list byte)) (len len' : Z)
    (l : positive) (t : Tunnel)
    (evs : list ProfileEvent) (calls : list PoolCall) :
  List.NoDup (map fst (m_PendingOutboundTunnels s)) ->
  List.In (msgID, l) (m_PendingOutboundTunnels s) ->
  tunnel_store s !! l = Some t ->
  GetState t = eTunnelStatePending ->
  HandleTunnelBuildReplyMsg s msgID msg0 recs len = Some (s', evs, calls) ->
  HandleTunnelBuildReplyMsg s' msgID msg0' recs' len' = Some (s', [], [])
  /\ (forall id : Z,
        List.find (fun e => fst e =? id) (m_PendingOutboundTunnels s) = None ->
        HandleTunnelBuildReplyMsg s id msg0' recs' len' = Some (s, [], [])).
Proof.
  intros Hnd Hin Hl Hst Hrun. split.
  - revert Hrun. unfold HandleTunnelBuildReplyMsg at 1, GetPendingOutboundTunnel.
    rewrite (GetPendingTunnel_found _ _ _ _ _ Hnd Hin Hl).
    destruct (decide (GetState t = eTunnelStatePending)) as [_|Hne]; [|contradiction].
    cbn [mbind option_bind tunnel_store set_tunnel_store].
    rewrite lookup_insert_eq. cbn [mbind option_bind].
    destruct (HandleTunnelBuildResponse (SetState t eTunnelStateBuildReplyReceived)
                msg0 recs len) as [[[ok t'] evs0]|]; [|discriminate].
    cbn [mbind option_bind]. destruct ok.
    + unfold AddOutboundTunnel.
      cbn [member_store set_m_OutboundTunnels set_tunnel_store pool_store
           m_OutboundTunnels].
      destruct (member_store s !! l) as [mb0|]; [|discriminate].
      cbn [mbind option_bind].
      assert (Hdrop : forall s0 : Tunnels,
                 m_PendingOutboundTunnels s0 = m_PendingOutboundTunnels s ->
                 tunnel_store s0
                 = <[l := SetState t' eTunnelStateEstablished]>
                     (<[l := SetState t eTunnelStateBuildReplyReceived]> (tunnel_store s)) ->
                 HandleTunnelBuildReplyMsg s0 msgID msg0' recs' len' = Some (s0, [], [])).
      { intros s0 Hp Hh. apply (HandleTunnelBuildReplyMsg_dropped s0 msgID msg0' recs' len' l
                                  (SetState t' eTunnelStateEstablished)).
        - rewrite Hp. exact Hnd.
        - rewrite Hp. exact Hin.
        - rewrite Hh. apply lookup_insert_eq.
        - discriminate. }
      destruct (GetTunnelPool mb0) as [pool|].
      * destruct (pool_store s !! pool) as [p|]; [|discriminate].
        cbn [mbind option_bind].
        destruct (IsActive p); intros H; inversion H; subst; apply Hdrop; reflexivity.
      * intros H; inversion H; subst; apply Hdrop; reflexivity.
    + intros H; inversion H; subst.
      apply (HandleTunnelBuildReplyMsg_dropped _ msgID msg0' recs' len' l
               (SetState t' eTunnelStateBuildFailed)).
      * exact Hnd.
      * exact Hin.
      * cbn [tunnel_store set_tunnel_store]. apply lookup_insert_eq.
      * discriminate.
  - intros id Hfind. unfold HandleTunnelBuildReplyMsg, GetPendingOutboundTunnel,
      GetPendingTunnel.
    rewrite Hfind. cbn [mbind option_bind]. rewrite set_tunnel_store_id. reflexivity.
Qed.

Lemma HandleTunnelBuildResponse_creation_time (t t' : Tunnel) (msg0 : byte)
    (recs : list (list byte)) (len : Z) (ok : bool) (evs : list ProfileEvent) :
  HandleTunnelBuildResponse t msg0 recs len = Some (ok, t', evs) ->
  GetCreationTime t' = GetCreationTime t.
Proof.
  unfold HandleTunnelBuildResponse.
  destruct (MAX_NUM_RECORDS <? byte_to_Z msg0); [intros H; inversion H; reflexivity|].
  destruct (m_Config t) as [cfg|]; [|discriminate]. cbn [mbind option_bind].
  destruct (len <? _); [intros H; inversion H; reflexivity|].
  destruct (decrypt_response _ _ _) as [[recs1|]|]; cbn [mbind option_bind];
    [|intros H; inversion H; reflexivity|discriminate].
  destruct (read_ret_codes _ _ _ _) as [[[established numHops] evs0]|];
    cbn [mbind option_bind]; [|discriminate].
  destruct established; [|intros H; inversion H; reflexivity].
  destruct (fill_hops _ _ _); cbn [mbind option_bind]; [|discriminate].
  intros H; inversion H; reflexivity.
Qed.

Lemma HandleTunnelBuildReplyMsg_store
    (s : Tunnels) (msgID : Z) (msg0 : byte) (recs : list (list byte)) (len : Z)
    (l : positive) (t t' : Tunnel) (mb : TunnelMembers) (ok : bool)
    (evs : list ProfileEvent) :
  List.NoDup (map fst (m_PendingOutboundTunnels s)) ->
  List.In (msgID, l) (m_PendingOutboundTunnels s) ->
  tunnel_store s !! l = Some t ->
  GetState t = eTunnelStatePending ->
  member_store s !! l = Some mb ->
  (forall pool, GetTunnelPool mb = Some pool -> is_Some (pool_store s !! pool)) ->
  HandleTunnelBuildResponse (SetState t eTunnelStateBuildReplyReceived) msg0 recs len
  = Some (ok, t', evs) ->
  exists (s' : Tunnels) (calls : list PoolCall),
    HandleTunnelBuildReplyMsg s msgID msg0 recs len = Some (s', evs, calls)
    /\ tunnel_store s'
       = <[l := SetState t' (if ok then eTunnelStateEstablished
                             else eTunnelStateBuildFailed)]> (tunnel_store s)
    /\ m_PendingOutboundTunnels s' = m_PendingOutboundTunnels s.
Proof.
  intros Hnd Hin Hl Hst Hmb Hpool Hresp.
  unfold HandleTunnelBuildReplyMsg, GetPendingOutboundTunnel.
  rewrite (GetPendingTunnel_found _ _ _ _ _ Hnd Hin Hl).
  destruct (decide (GetState t = eTunnelStatePending)) as [_|Hne]; [|contradiction].
  cbn [mbind option_bind tunnel_store set_tunnel_store].
  rewrite lookup_insert_eq. cbn [mbind option_bind]. rewrite Hresp.
  cbn [mbind option_bind]. destruct ok.
  - unfold AddOutboundTunnel.
    cbn [member_store set_m_OutboundTunnels set_tunnel_store pool_store m_OutboundTunnels].
    rewrite Hmb. cbn [mbind option_bind].
    destruct (GetTunnelPool mb) as [pool|] eqn:Epool.
    + destruct (Hpool pool eq_refl) as [p Hp]. rewrite Hp. cbn [mbind option_bind].
      destruct (IsActive p); eexists _, _; (split; [reflexivity|]);
        cbn; rewrite insert_insert_eq; split; reflexivity.
    + eexists _, _. split; [reflexivity|].
      cbn. rewrite insert_insert_eq. split; reflexivity.
  - eexists _, _. split; [reflexivity|].
    cbn. rewrite insert_insert_eq. split; reflexivity.
Qed.

(** X7: a build reply followed by the sweep of the pending map.  Once the
    reply of a pending outbound tunnel has been handled, the next sweep,
    at whatever time in range, erases the tunnel's entry, counts it as one
    success when the reply was accepted and as one failure when it was
    not, and sends no [TunnelNonReplied] for it even when its deadline has
    passed; entries that point to other tunnels are treated as they would
    have been without the reply. *)
Theorem HandleTunnelBuildReplyMsg_then_sweep
    (s : Tunnels) (msgID : Z) (msg0 : byte) (recs : list (list byte)) (len : Z)
    (l : positive) (t t' : Tunnel) (mb : TunnelMembers) (ok : bool)
    (evs : list ProfileEvent) (ts : Z) (c : Counters) :
  List.NoDup (map fst (m_PendingOutboundTunnels s)) ->
  List.In (msgID, l) (m_PendingOutboundTunnels s) ->
  tunnel_store s !! l = Some t ->
  GetState t = eTunnelStatePending ->
  member_store s !! l = Some mb ->
  (forall pool, GetTunnelPool mb = Some pool -> is_Some (pool_store s !! pool)) ->
  HandleTunnelBuildResponse (SetState t eTunnelStateBuildReplyReceived) msg0 recs len
  = Some (ok, t', evs) ->
  Forall (live_entry (tunnel_store s)) (m_PendingOutboundTunnels s) ->
  0 <= TUNNEL_CREATION_TIMEOUT ->
  0 <= ts -> ts + TUNNEL_CREATION_TIMEOUT < 2 ^ 64 ->
  exists (s' : Tunnels) (calls : list PoolCall)
         (m : list (Z * positive)) (c' : Counters) (evs' : list ProfileEvent),
    HandleTunnelBuildReplyMsg s msgID msg0 recs len = Some (s', evs, calls)
    /\ ManagePendingTunnels (tunnel_store s') (m_PendingOutboundTunnels s') ts c
       = Some (m, c', evs')
    /\ m = List.filter (fun it => negb (Pos.eqb (snd it) l)
                                  && pointee (tunnel_store s) (sweep_keeps ts) it)
             (m_PendingOutboundTunnels s)
    /\ m_TotalNumSuccesiveTunnelCreations c'
       = m_TotalNumSuccesiveTunnelCreations c
         + Z.of_nat (length (List.filter
                       (fun it => if Pos.eqb (snd it) l then ok
                                  else pointee (tunnel_store s) sweep_succeeds it)
                       (m_PendingOutboundTunnels s)))
    /\ m_TotalNumFailedTunnelCreations c'
       = m_TotalNumFailedTunnelCreations c
         + Z.of_nat (length (List.filter
                       (fun it => if Pos.eqb (snd it) l then negb ok
                                  else pointee (tunnel_store s) (sweep_fails ts) it)
                       (m_PendingOutboundTunnels s)))
    /\ evs' = flat_map (fun it => if Pos.eqb (snd it) l then []
                                  else sweep_events (tunnel_store s) ts it)
                (m_PendingOutboundTunnels s).
Proof.
  intros Hnd Hin Hl Hst Hmb Hpool Hresp Hlive Ht Hts Hsum.
  destruct (HandleTunnelBuildReplyMsg_store s msgID msg0 recs len l t t' mb ok evs
              Hnd Hin Hl Hst Hmb Hpool Hresp) as (s' & calls & Hrun & Hstore & Hpend).
  pose proof (HandleTunnelBuildResponse_creation_time _ _ _ _ _ _ _ Hresp) as Hct.
  set (t2 := SetState t' (if ok then eTunnelStateEstablished else eTunnelStateBuildFailed))
    in *.
  assert (Hlook : forall it : Z * positive,
             tunnel_store s' !! snd it
             = if Pos.eqb (snd it) l then Some t2 else tunnel_store s !! snd it).
  { intros it. rewrite Hstore. destruct (Pos.eqb_spec (snd it) l) as [->|Hne].
    - apply lookup_insert_eq.
    - apply lookup_insert_ne. congruence. }
  assert (Hlive' : Forall (live_entry (tunnel_store s')) (m_PendingOutboundTunnels s)).
  { rewrite Forall_forall in Hlive |- *. intros it Hit.
    destruct (Hlive it Hit) as (t0 & Ht0 & Hb).
    unfold live_entry. rewrite Hlook.
    destruct (Pos.eqb_spec (snd it) l) as [Heq|Hne].
    - exists t2. split; [reflexivity|].
      rewrite Heq, Hl in Ht0. inversion Ht0; subst t0.
      assert (GetCreationTime t2 = GetCreationTime t) as ->; [|exact Hb].
      unfold t2. destruct ok; exact Hct.
    - exists t0. split; [exact Ht0 | exact Hb]. }
  eexists s', calls, _, _, _. split; [exact Hrun|].
  rewrite Hpend. split; [apply ManagePendingTunnels_spec; assumption|].
  assert (Hv : sweep_keeps ts t2 = false /\ sweep_succeeds t2 = ok
               /\ sweep_fails ts t2 = negb ok /\ build_timed_out ts t2 = false).
  { unfold t2. destruct ok; cbn; repeat split; reflexivity. }
  destruct Hv as (Hk & Hs & Hf & Hb).
  cbn [m_TotalNumSuccesiveTunnelCreations m_TotalNumFailedTunnelCreations].
  split; [|split; [|split]].
  - apply filter_ext. intros it. unfold pointee. rewrite Hlook.
    destruct (Pos.eqb (snd it) l); [exact Hk | reflexivity].
  - do 3 apply f_equal. apply filter_ext. intros it. unfold pointee. rewrite Hlook.
    destruct (Pos.eqb (snd it) l); [exact Hs | reflexivity].
  - do 3 apply f_equal. apply filter_ext. intros it. unfold pointee. rewrite Hlook.
    destruct (Pos.eqb (snd it) l); [exact Hf | reflexivity].
  - apply flat_map_ext. intros it. unfold sweep_events. rewrite Hlook.
    destruct (Pos.eqb (snd it) l); [rewrite Hb; reflexivity | reflexivity].
Qed.

(** ** The sweeps of ManageOutboundTunnels and ManageInboundTunnels *)

Lemma expiration_passed_expired (ts : Z) (t : Tunnel) :
  0 <= TUNNEL_EXPIRATION_TIMEOUT ->
  0 <= ts -> ts + TUNNEL_EXPIRATION_TIMEOUT < 2 ^ 64 ->
  0 <= GetCreationTime t -> GetCreationTime t + TUNNEL_EXPIRATION_TIMEOUT < 2 ^ 32 ->
  expiration_passed ts t = expired ts t.
Proof.
  intros H0 Hts Hsum Hc Hcs. unfold expiration_passed, expired, uint64.
  change (2 ^ 64) with 18446744073709551616 in *.
  change (2 ^ 32) with 4294967296 in *.
  rewrite !Z.mod_small by lia. reflexivity.
Qed.

Lemma threshold_reached_within (threshold ts : Z) (t : Tunnel) :
  0 <= TUNNEL_EXPIRATION_TIMEOUT -> 0 <= threshold ->
  0 <= ts -> ts + threshold < 2 ^ 64 ->
  0 <= GetCreationTime t -> GetCreationTime t + TUNNEL_EXPIRATION_TIMEOUT < 2 ^ 32 ->
  threshold_reached threshold ts t = expires_within threshold ts t.
Proof.
  intros H0 Hth Hts Hsum Hc Hcs. unfold threshold_reached, expires_within, uint64.
  change (2 ^ 64) with 18446744073709551616 in *.
  change (2 ^ 32) with 4294967296 in *.
  rewrite !Z.mod_small by lia. reflexivity.
Qed.

Lemma sweep_outputs_cons (inbound : bool) (ts : Z) (s : Tunnels) (p : positive)
    (rest : list positive) (t : Tunnel) (mb : TunnelMembers) :
  object (tunnel_store s) (member_store s) p = Some (t, mb) ->
  sweep_kept ts s (p :: rest)
  = (if swept ts t then sweep_kept ts s rest else p :: sweep_kept ts s rest)
  /\ sweep_queued inbound ts s (p :: rest)
     = (if recreation_due inbound ts (pool_store s) t mb
        then p :: sweep_queued inbound ts s rest else sweep_queued inbound ts s rest)
  /\ sweep_called inbound ts s (p :: rest)
     = sweep_calls inbound ts p t mb ++ sweep_called inbound ts s rest
  /\ (forall id, sweep_erases_id ts s (p :: rest) id
                 = swept ts t && (GetTunnelID mb =? id) || sweep_erases_id ts s rest id).
Proof.
  intros Hobj.
  assert (Hof : forall (A : Type) (f : Tunnel -> TunnelMembers -> A) (d : A),
             of_object s f d p = f t mb).
  { intros A f d. unfold of_object. rewrite Hobj. reflexivity. }
  unfold sweep_kept, sweep_queued, sweep_called, sweep_erases_id.
  cbn [List.filter flat_map existsb]. rewrite !Hof.
  split; [destruct (swept ts t); reflexivity|].
  split; [reflexivity|]. split; [reflexivity|].
  intros id. rewrite Hof. reflexivity.
Qed.

Lemma sweep_loop_spec (inbound : bool) (ts : Z) (s0 : Tunnels) :
  0 <= TUNNEL_EXPIRATION_TIMEOUT ->
  0 <= TUNNEL_RECREATION_THRESHOLD -> 0 <= TUNNEL_EXPIRATION_THRESHOLD ->
  0 <= ts -> ts + TUNNEL_EXPIRATION_TIMEOUT < 2 ^ 64 ->
  ts + TUNNEL_RECREATION_THRESHOLD < 2 ^ 64 ->
  ts + TUNNEL_EXPIRATION_THRESHOLD < 2 ^ 64 ->
  forall (l : list positive) (s : Tunnels) (toRecreate : list positive),
    NoDup l -> Forall (sweepable s0) l ->
    (forall q, q ∈ l -> tunnel_store s !! q = tunnel_store s0 !! q) ->
    member_store s = member_store s0 -> pool_store s = pool_store s0 ->
    exists s' : Tunnels,
      sweep_loop inbound ts s l toRecreate
      = Some (s', sweep_kept ts s0 l, toRecreate ++ sweep_queued inbound ts s0 l,
              sweep_called inbound ts s0 l)
      /\ member_store s' = member_store s0 /\ pool_store s' = pool_store s0
      /\ m_InboundTunnels s' = m_InboundTunnels s
      /\ m_OutboundTunnels s' = m_OutboundTunnels s
      /\ m_PendingInboundTunnels s' = m_PendingInboundTunnels s
      /\ m_PendingOutboundTunnels s' = m_PendingOutboundTunnels s
      /\ (forall q, tunnel_store s' !! q
                    = if bool_decide (q ∈ l) then mark_expiring ts <$> tunnel_store s0 !! q
                      else tunnel_store s !! q)
      /\ (forall id, m_Tunnels s' !! id
                     = if inbound && sweep_erases_id ts s0 l id then None
                       else m_Tunnels s !! id).
Proof.
  intros H0 Hr He Hts Hsum Hsumr Hsume l.
  induction l as [|p rest IH]; intros s toRecreate Hnd Hlive Hag Hmem Hpool.
  - exists s. unfold sweep_kept, sweep_queued, sweep_called, sweep_erases_id.
    cbn. rewrite app_nil_r, andb_false_r. repeat split; try reflexivity; assumption.
  - apply NoDup_cons in Hnd as [Hnotin Hnd].
    inversion Hlive as [|? ? (t & mb & Hobj & Hc & Hcs & Hpl) Hrest]; subst.
    pose proof (proj1 (object_Some _ _ _ _ _) Hobj) as [Ht0 Hmb0].
    assert (Hts0 : tunnel_store s !! p = Some t).
    { rewrite (Hag p) by apply list_elem_of_here. exact Ht0. }
    assert (Hobj' : object (tunnel_store s) (member_store s) p = Some (t, mb)).
    { apply object_Some. rewrite Hmem. split; assumption. }
    assert (Hframe : forall s1 : Tunnels,
               (forall q, q <> p -> tunnel_store s1 !! q = tunnel_store s !! q) ->
               forall q, q ∈ rest -> tunnel_store s1 !! q = tunnel_store s0 !! q).
    { intros s1 H1 q Hq. rewrite H1 by (intros ->; contradiction).
      apply Hag. apply list_elem_of_further. exact Hq. }
    assert (Hin : forall q, bool_decide (q ∈ p :: rest)
                            = bool_decide (q = p) || bool_decide (q ∈ rest)).
    { intros q. apply eq_true_iff_eq.
      rewrite orb_true_iff, !bool_decide_eq_true, elem_of_cons. reflexivity. }
    assert (Hnotin' : bool_decide (p ∈ rest) = false).
    { apply bool_decide_eq_false. exact Hnotin. }
    destruct (sweep_outputs_cons inbound ts s0 p rest t mb Hobj)
      as (-> & -> & -> & Herase).
    cbn [sweep_loop]. rewrite Hobj'. cbn [mbind option_bind].
    rewrite (expiration_passed_expired ts t), !(threshold_reached_within _ ts t)
      by assumption.
    fold (swept ts t). unfold recreation_due, sweep_calls, pool_wants.
    destruct (swept ts t) eqn:Esw; cbn [negb andb].
    + set (s1 := if inbound then RemoveTunnel s (GetTunnelID mb) else s).
      assert (Hs1 : tunnel_store s1 = tunnel_store s /\ member_store s1 = member_store s
                    /\ pool_store s1 = pool_store s
                    /\ m_InboundTunnels s1 = m_InboundTunnels s
                    /\ m_OutboundTunnels s1 = m_OutboundTunnels s
                    /\ m_PendingInboundTunnels s1 = m_PendingInboundTunnels s
                    /\ m_PendingOutboundTunnels s1 = m_PendingOutboundTunnels s).
      { unfold s1. destruct inbound; repeat split; reflexivity. }
      destruct Hs1 as (E1 & E2 & E3 & E4 & E5 & E6 & E7).
      destruct (IH s1 toRecreate Hnd Hrest) as (s' & Hrun & Em & Ep & Ei & Eo & Epi & Epo & Est & Ereg).
      { apply Hframe. intros q _. rewrite E1. reflexivity. }
      { rewrite E2. exact Hmem. }
      { rewrite E3. exact Hpool. }
      exists s'. rewrite Hrun. cbn [mbind option_bind].
      split; [reflexivity|].
      split; [exact Em|]. split; [exact Ep|].
      split; [congruence|]. split; [congruence|]. split; [congruence|].
      split; [congruence|]. split.
      * intros q. rewrite Est, Hin, E1.
        destruct (bool_decide_reflect (q = p)) as [->|Hne]; cbn [orb]; [|reflexivity].
        rewrite Hnotin', Ht0, Hts0. cbn. unfold mark_expiring, marked_expiring.
        rewrite Esw. reflexivity.
      * intros id. rewrite Ereg, Herase. unfold s1. destruct inbound; cbn [andb orb].
        -- unfold RemoveTunnel. cbn [m_Tunnels set_m_Tunnels].
           destruct (Z.eqb_spec (GetTunnelID mb) id) as [->|Hne]; cbn [orb].
           ++ rewrite lookup_delete_eq.
              destruct (sweep_erases_id ts s0 rest id); reflexivity.
           ++ rewrite lookup_delete_ne by exact Hne. reflexivity.
        -- reflexivity.
    + assert (Hstep : forall (s1 : Tunnels) (tr1 : list positive) (calls : list SweepCall),
                 (forall q, q <> p -> tunnel_store s1 !! q = tunnel_store s !! q) ->
                 tunnel_store s1 !! p = Some (mark_expiring ts t) ->
                 member_store s1 = member_store s -> pool_store s1 = pool_store s ->
                 m_InboundTunnels s1 = m_InboundTunnels s ->
                 m_OutboundTunnels s1 = m_OutboundTunnels s ->
                 m_PendingInboundTunnels s1 = m_PendingInboundTunnels s ->
                 m_PendingOutboundTunnels s1 = m_PendingOutboundTunnels s ->
                 m_Tunnels s1 = m_Tunnels s ->
                 exists s' : Tunnels,
                   (sweep_loop inbound ts s1 rest tr1
                    ≫= λ '(s'0, kept, toRecreate', calls'),
                         Some (s'0, p :: kept, toRecreate', calls ++ calls'))
                   = Some (s', p :: sweep_kept ts s0 rest,
                           tr1 ++ sweep_queued inbound ts s0 rest,
                           calls ++ sweep_called inbound ts s0 rest)
                   /\ member_store s' = member_store s0 /\ pool_store s' = pool_store s0
                   /\ m_InboundTunnels s' = m_InboundTunnels s
                   /\ m_OutboundTunnels s' = m_OutboundTunnels s
                   /\ m_PendingInboundTunnels s' = m_PendingInboundTunnels s
                   /\ m_PendingOutboundTunnels s' = m_PendingOutboundTunnels s
                   /\ (forall q, tunnel_store s' !! q
                                 = if bool_decide (q ∈ p :: rest)
                                   then mark_expiring ts <$> tunnel_store s0 !! q
                                   else tunnel_store s !! q)
                   /\ (forall id, m_Tunnels s' !! id
                                  = if inbound && sweep_erases_id ts s0 (p :: rest) id
                                    then None else m_Tunnels s !! id)).
      { intros s1 tr1 calls E1 E1p E2 E3 E4 E5 E6 E7 E8.
        destruct (IH s1 tr1 Hnd Hrest)
          as (s' & Hrun & Em & Ep & Ei & Eo & Epi & Epo & Est & Ereg).
        { apply Hframe. exact E1. }
        { rewrite E2. exact Hmem. }
        { rewrite E3. exact Hpool. }
        exists s'. rewrite Hrun. cbn [mbind option_bind].
        split; [reflexivity|].
        split; [exact Em|]. split; [exact Ep|].
        split; [congruence|]. split; [congruence|]. split; [congruence|].
        split; [congruence|]. split.
        - intros q. rewrite Est, Hin.
          destruct (bool_decide_reflect (q = p)) as [->|Hne]; cbn [orb].
          + rewrite Hnotin', Ht0, E1p. reflexivity.
          + rewrite (E1 q Hne). reflexivity.
        - intros id. rewrite Ereg, Herase, E8. reflexivity. }
      assert (Hmark : marked_expiring ts t
                      = IsEstablished t && expires_within TUNNEL_EXPIRATION_THRESHOLD ts t).
      { unfold marked_expiring. rewrite Esw. reflexivity. }
      destruct (IsEstablished t) eqn:Eest; cbn [andb].
      * assert (Htr : exists tr1 : list positive,
                   (if negb (IsRecreated mb)
                       && expires_within TUNNEL_RECREATION_THRESHOLD ts t
                    then match GetTunnelPool mb with
                         | Some pool =>
                             pool_store s !! pool
                             ≫= λ pl : TunnelPool,
                                  Some (if Tunnel_GetNumHops t =? pool_hops inbound pl
                                        then toRecreate ++ [p] else toRecreate)
                         | None => Some toRecreate
                         end
                    else Some toRecreate) = Some tr1
                   /\ tr1 ++ sweep_queued inbound ts s0 rest
                      = toRecreate
                        ++ (if negb (IsRecreated mb)
                               && expires_within TUNNEL_RECREATION_THRESHOLD ts t
                               && match GetTunnelPool mb with
                                  | Some pool =>
                                      match pool_store s0 !! pool with
                                      | Some pl => Tunnel_GetNumHops t =? pool_hops inbound pl
                                      | None => false
                                      end
                                  | None => false
                                  end
                            then p :: sweep_queued inbound ts s0 rest
                            else sweep_queued inbound ts s0 rest)).
        { rewrite Hpool.
          destruct (negb (IsRecreated mb)
                    && expires_within TUNNEL_RECREATION_THRESHOLD ts t); cbn [andb];
            [|eexists; split; reflexivity].
          destruct (GetTunnelPool mb) as [pool|] eqn:Epool;
            [|eexists; split; reflexivity].
          destruct (Hpl pool eq_refl) as [pl ->]. cbn [mbind option_bind].
          eexists. split; [reflexivity|].
          destruct (Tunnel_GetNumHops t =? pool_hops inbound pl);
            [rewrite <- app_assoc|]; reflexivity. }
        destruct Htr as (tr1 & -> & <-). cbn [mbind option_bind].
        rewrite andb_true_r.
        destruct (expires_within TUNNEL_EXPIRATION_THRESHOLD ts t) eqn:Eexp;
          cbn [negb]; rewrite ?andb_false_r, ?andb_true_r.
        -- apply Hstep; try reflexivity.
           ++ intros q Hne. cbn [tunnel_store set_tunnel_store].
              apply lookup_insert_ne. congruence.
           ++ cbn [tunnel_store set_tunnel_store]. rewrite lookup_insert_eq.
              unfold mark_expiring. rewrite Hmark. reflexivity.
        -- apply Hstep; try reflexivity.
           rewrite Hts0. unfold mark_expiring. rewrite Hmark. reflexivity.
      * rewrite andb_false_r. apply (Hstep s toRecreate []); try reflexivity.
        rewrite Hts0. unfold mark_expiring. rewrite Hmark. reflexivity.
Qed.

(** X8: the sweep of the outbound list at time [ts].  The tunnels left are
    those that are neither failed nor expired, in their order; each tunnel
    erased that has a pool is reported to it by one [TunnelExpired], in list
    order, and nothing else is called; the tunnels queued for recreation
    are appended to [toRecreate] in list order; a surviving established
    tunnel with less than [TUNNEL_EXPIRATION_THRESHOLD] left becomes
    [Expiring] and no other tunnel changes; the registry [m_Tunnels], the
    inbound list and the pending maps are not touched. *)
Theorem ManageOutboundTunnels_sweep_outcome (s : Tunnels) (ts : Z)
    (toRecreate : list positive) :
  0 <= TUNNEL_EXPIRATION_TIMEOUT ->
  0 <= TUNNEL_RECREATION_THRESHOLD -> 0 <= TUNNEL_EXPIRATION_THRESHOLD ->
  0 <= ts -> ts + TUNNEL_EXPIRATION_TIMEOUT < 2 ^ 64 ->
  ts + TUNNEL_RECREATION_THRESHOLD < 2 ^ 64 ->
  ts + TUNNEL_EXPIRATION_THRESHOLD < 2 ^ 64 ->
  NoDup (m_OutboundTunnels s) -> Forall (sweepable s) (m_OutboundTunnels s) ->
  exists s' : Tunnels,
    ManageOutboundTunnels_sweep s ts toRecreate
    = Some (s', toRecreate ++ sweep_queued false ts s (m_OutboundTunnels s),
            sweep_called false ts s (m_OutboundTunnels s))
    /\ m_OutboundTunnels s' = sweep_kept ts s (m_OutboundTunnels s)
    /\ (forall q, tunnel_store s' !! q
                  = if bool_decide (q ∈ m_OutboundTunnels s)
                    then mark_expiring ts <$> tunnel_store s !! q
                    else tunnel_store s !! q)
    /\ (forall c, c ∈ sweep_called false ts s (m_OutboundTunnels s) ->
                  exists pool q, c = CallPool (TunnelExpired pool q))
    /\ m_Tunnels s' = m_Tunnels s
    /\ m_InboundTunnels s' = m_InboundTunnels s
    /\ m_PendingInboundTunnels s' = m_PendingInboundTunnels s
    /\ m_PendingOutboundTunnels s' = m_PendingOutboundTunnels s
    /\ member_store s' = member_store s /\ pool_store s' = pool_store s.
Proof.
  intros H0 Hr He Hts Hsum Hsumr Hsume Hnd Hlive.
  destruct (sweep_loop_spec false ts s H0 Hr He Hts Hsum Hsumr Hsume
              (m_OutboundTunnels s) s toRecreate Hnd Hlive
              (fun _ _ => eq_refl) eq_refl eq_refl)
    as (s' & Hrun & Em & Ep & Ei & Eo & Epi & Epo & Est & Ereg).
  exists (set_m_OutboundTunnels s' (sweep_kept ts s (m_OutboundTunnels s))).
  unfold ManageOutboundTunnels_sweep. rewrite Hrun. cbn [mbind option_bind].
  split; [reflexivity|]. cbn.
  split; [reflexivity|]. split; [exact Est|]. split.
  - intros c Hc. unfold sweep_called in Hc.
    apply list_elem_of_In, in_flat_map in Hc as (q & _ & Hc).
    unfold of_object in Hc.
    destruct (object (tunnel_store s) (member_store s) q) as [[t mb]|];
      [|destruct Hc].
    unfold sweep_calls in Hc. cbn [andb] in Hc.
    destruct (swept ts t); [|destruct Hc].
    destruct (GetTunnelPool mb) as [pool|]; [|destruct Hc].
    destruct Hc as [<-|[]]. exists pool, q. reflexivity.
  - split; [apply map_eq; intros id; apply Ereg|].
    repeat split; assumption.
Qed.

(** X9: the sweep of the inbound list at time [ts].  It keeps, queues and
    marks as the outbound sweep does (with the inbound hop count of the
    pool); besides, the tunnel id of each tunnel it erases is removed from
    the registry [m_Tunnels] and every other id stays registered as it was,
    and each surviving established tunnel that is not marked [Expiring]
    gets one [Cleanup]. *)
Theorem ManageInboundTunnels_sweep_outcome (s : Tunnels) (ts : Z)
    (toRecreate : list positive) :
  0 <= TUNNEL_EXPIRATION_TIMEOUT ->
  0 <= TUNNEL_RECREATION_THRESHOLD -> 0 <= TUNNEL_EXPIRATION_THRESHOLD ->
  0 <= ts -> ts + TUNNEL_EXPIRATION_TIMEOUT < 2 ^ 64 ->
  ts + TUNNEL_RECREATION_THRESHOLD < 2 ^ 64 ->
  ts + TUNNEL_EXPIRATION_THRESHOLD < 2 ^ 64 ->
  NoDup (m_InboundTunnels s) -> Forall (sweepable s) (m_InboundTunnels s) ->
  exists s' : Tunnels,
    ManageInboundTunnels_sweep s ts toRecreate
    = Some (s', toRecreate ++ sweep_queued true ts s (m_InboundTunnels s),
            sweep_called true ts s (m_InboundTunnels s))
    /\ m_InboundTunnels s' = sweep_kept ts s (m_InboundTunnels s)
    /\ (forall q, tunnel_store s' !! q
                  = if bool_decide (q ∈ m_InboundTunnels s)
                    then mark_expiring ts <$> tunnel_store s !! q
                    else tunnel_store s !! q)
    /\ (forall id, GetTunnel s' id
                   = if sweep_erases_id ts s (m_InboundTunnels s) id then None
                     else GetTunnel s id)
    /\ (forall q t mb, q ∈ m_InboundTunnels s ->
          object (tunnel_store s) (member_store s) q = Some (t, mb) ->
          (CallCleanup q ∈ sweep_called true ts s (m_InboundTunnels s)
           <-> swept ts t = false /\ IsEstablished t = true
               /\ marked_expiring ts t = false))
    /\ m_OutboundTunnels s' = m_OutboundTunnels s
    /\ m_PendingInboundTunnels s' = m_PendingInboundTunnels s
    /\ m_PendingOutboundTunnels s' = m_PendingOutboundTunnels s
    /\ member_store s' = member_store s /\ pool_store s' = pool_store s.
Proof.
  intros H0 Hr He Hts Hsum Hsumr Hsume Hnd Hlive.
  destruct (sweep_loop_spec true ts s H0 Hr He Hts Hsum Hsumr Hsume
              (m_InboundTunnels s) s toRecreate Hnd Hlive
              (fun _ _ => eq_refl) eq_refl eq_refl)
    as (s' & Hrun & Em & Ep & Ei & Eo & Epi & Epo & Est & Ereg).
  exists (set_m_InboundTunnels s' (sweep_kept ts s (m_InboundTunnels s))).
  unfold ManageInboundTunnels_sweep. rewrite Hrun. cbn [mbind option_bind].
  split; [reflexivity|]. cbn.
  split; [reflexivity|]. split; [exact Est|]. split; [exact Ereg|]. split.
  - intros q t mb Hq Hobj. unfold sweep_called.
    rewrite list_elem_of_In, in_flat_map. split.
    + intros (q' & _ & Hc). unfold of_object in Hc.
      destruct (object (tunnel_store s) (member_store s) q') as [[t' mb']|] eqn:Hobj';
        [|destruct Hc].
      unfold sweep_calls in Hc. cbn [andb] in Hc.
      destruct (swept ts t') eqn:Esw.
      * destruct (GetTunnelPool mb'); [destruct Hc as [Hc|[]]; discriminate Hc|destruct Hc].
      * destruct (IsEstablished t') eqn:Eest; cbn [andb] in Hc; [|destruct Hc].
        destruct (expires_within TUNNEL_EXPIRATION_THRESHOLD ts t') eqn:Eexp;
          cbn [negb] in Hc; [destruct Hc|].
        destruct Hc as [Hc|[]]. inversion Hc; subst q'.
        rewrite Hobj in Hobj'. inversion Hobj'; subst t' mb'.
        unfold marked_expiring. rewrite Esw, Eest, Eexp. repeat split; reflexivity.
    + intros (Esw & Eest & Emk). exists q. split; [apply list_elem_of_In; exact Hq|].
      unfold of_object. rewrite Hobj. unfold sweep_calls.
      unfold marked_expiring in Emk. rewrite Esw, Eest in Emk |- *.
      cbn [negb andb] in Emk |- *. rewrite Emk. left. reflexivity.
  - repeat split; assumption.
Qed.

(** ** Recreate and the recreation loop of ManageTunnels *)

Lemma Recreate_spec (members : gmap positive TunnelMembers) (p : positive)
    (mb : TunnelMembers) :
  members !! p = Some mb ->
  Recreate members p
  = Some (negb (IsRecreated mb) && bool_decide (is_Some (GetTunnelPool mb)),
          <[p := recreated mb]> members, recreate_calls members p).
Proof.
  intros Hp. unfold Recreate, recreate_calls, recreated. rewrite Hp.
  cbn [mbind option_bind].
  destruct (IsRecreated mb); cbn [negb andb].
  - rewrite (insert_id _ _ _ Hp). reflexivity.
  - destruct (GetTunnelPool mb) as [pool|]; cbn.
    + reflexivity.
    + rewrite (insert_id _ _ _ Hp). reflexivity.
Qed.

Lemma recreate_loop_spec (members0 : gmap positive TunnelMembers) :
  forall (l : list positive) (members : gmap positive TunnelMembers),
    NoDup l ->
    (forall q, q ∈ l -> is_Some (members0 !! q)) ->
    (forall q, q ∈ l -> members !! q = members0 !! q) ->
    exists members2 : gmap positive TunnelMembers,
      recreate_loop members l = Some (members2, flat_map (recreate_calls members0) l)
      /\ forall q, members2 !! q
                   = if bool_decide (q ∈ l) then recreated <$> members0 !! q
                     else members !! q.
Proof.
  induction l as [|p rest IH]; intros members Hnd Hlive Hag.
  - exists members. split; [reflexivity|]. intros q. reflexivity.
  - apply NoDup_cons in Hnd as [Hnotin Hnd].
    destruct (Hlive p (list_elem_of_here _ _)) as [mb Hmb0].
    assert (Hmb : members !! p = Some mb).
    { rewrite (Hag p) by apply list_elem_of_here. exact Hmb0. }
    cbn [recreate_loop flat_map]. rewrite (Recreate_spec _ _ _ Hmb).
    cbn [mbind option_bind].
    destruct (IH (<[p := recreated mb]> members) Hnd) as (members2 & Hrun & Hlook).
    { intros q Hq. apply Hlive. apply list_elem_of_further. exact Hq. }
    { intros q Hq. rewrite lookup_insert_ne by (intros ->; contradiction).
      apply Hag. apply list_elem_of_further. exact Hq. }
    exists members2. rewrite Hrun. cbn [mbind option_bind]. split.
    + assert (recreate_calls members p = recreate_calls members0 p) as ->.
      { unfold recreate_calls. rewrite Hmb, Hmb0. reflexivity. }
      reflexivity.
    + intros q. rewrite Hlook.
      destruct (bool_decide_reflect (q = p)) as [->|Hne].
      * rewrite (bool_decide_eq_false_2 _ Hnotin).
        rewrite (bool_decide_eq_true_2 _ (list_elem_of_here _ _)).
        rewrite lookup_insert_eq, Hmb0. reflexivity.
      * rewrite lookup_insert_ne by congruence.
        destruct (bool_decide_reflect (q ∈ rest)) as [Hin|Hout].
        -- rewrite bool_decide_eq_true_2 by (apply list_elem_of_further; exact Hin).
           reflexivity.
        -- rewrite bool_decide_eq_false_2; [reflexivity|].
           rewrite elem_of_cons. intros [Heq|Hin]; [apply Hne; exact Heq|apply Hout; exact Hin].
Qed.

(** X10: [Recreate] asks the pool at most once.  A tunnel that has a pool
    and was not recreated yet is flagged and its pool gets one
    [RecreateInboundTunnel] or [RecreateOutboundTunnel], by the direction
    of the tunnel; a tunnel without a pool is left unflagged and nothing is
    called; in both cases a second [Recreate] returns [false], calls
    nothing and changes nothing, and no other tunnel and no other member
    of the tunnel changes. *)
Theorem Recreate_at_most_once (members : gmap positive TunnelMembers)
    (tunnel : positive) (mb : TunnelMembers) :
  members !! tunnel = Some mb ->
  exists (ok : bool) (members1 : gmap positive TunnelMembers) (calls : list PoolCall)
         (mb1 : TunnelMembers),
    Recreate members tunnel = Some (ok, members1, calls)
    /\ (ok = true <-> IsRecreated mb = false /\ is_Some (GetTunnelPool mb))
    /\ calls = (if ok
                then match GetTunnelPool mb with
                     | Some pool => [if m_IsInbound mb then RecreateInboundTunnel pool tunnel
                                     else RecreateOutboundTunnel pool tunnel]
                     | None => []
                     end
                else [])
    /\ members1 !! tunnel = Some mb1
    /\ IsRecreated mb1 = (ok || IsRecreated mb)
    /\ SetRecreated mb1 (IsRecreated mb) = mb
    /\ (forall q, q <> tunnel -> members1 !! q = members !! q)
    /\ (is_Some (GetTunnelPool mb) ->
        Recreate members1 tunnel = Some (false, members1, [])).
Proof.
  intros Hmb. rewrite (Recreate_spec _ _ _ Hmb).
  eexists _, _, _, (recreated mb). split; [reflexivity|].
  split; [|split; [|split; [|split; [|split; [|split]]]]].
  - rewrite andb_true_iff, negb_true_iff, bool_decide_eq_true. reflexivity.
  - unfold recreate_calls. rewrite Hmb.
    destruct (IsRecreated mb); cbn [negb andb]; [reflexivity|].
    destruct (GetTunnelPool mb); reflexivity.
  - apply lookup_insert_eq.
  - unfold recreated.
    destruct (IsRecreated mb) eqn:Erec; cbn [negb andb orb]; [exact Erec|].
    destruct (GetTunnelPool mb); cbn; [reflexivity | exact Erec].
  - clear Hmb. destruct mb as [id inb pool recr bytes]. unfold recreated.
    destruct recr, pool; reflexivity.
  - intros q Hne. apply lookup_insert_ne. congruence.
  - intros Hpool. rewrite (Recreate_spec _ _ (recreated mb)) by apply lookup_insert_eq.
    assert (Hrec : IsRecreated (recreated mb) = true).
    { unfold recreated. destruct (IsRecreated mb) eqn:Erec; cbn [negb andb]; [exact Erec|].
      rewrite (bool_decide_eq_true_2 _ Hpool). reflexivity. }
    unfold recreate_calls. rewrite lookup_insert_eq, Hrec. cbn [negb andb].
    rewrite insert_insert_eq. unfold recreated at 1. rewrite Hrec. reflexivity.
Qed.

Lemma sweep_queued_elem (inbound : bool) (ts : Z) (s : Tunnels) (l : list positive)
    (q : positive) :
  q ∈ sweep_queued inbound ts s l
  <-> q ∈ l /\ exists t mb, object (tunnel_store s) (member_store s) q = Some (t, mb)
                            /\ recreation_due inbound ts (pool_store s) t mb = true.
Proof.
  unfold sweep_queued. rewrite !list_elem_of_In, filter_In. unfold of_object.
  split.
  - intros [Hin Hdue]. split; [exact Hin|].
    destruct (object (tunnel_store s) (member_store s) q) as [[t mb]|]; [|discriminate].
    exists t, mb. split; [reflexivity | exact Hdue].
  - intros [Hin (t & mb & -> & Hdue)]. split; assumption.
Qed.

Lemma recreation_due_true (inbound : bool) (ts : Z) (pools : gmap positive TunnelPool)
    (t : Tunnel) (mb : TunnelMembers) :
  recreation_due inbound ts pools t mb = true ->
  swept ts t = false /\ IsEstablished t = true /\ IsRecreated mb = false
  /\ expires_within TUNNEL_RECREATION_THRESHOLD ts t = true
  /\ exists pool pl, GetTunnelPool mb = Some pool /\ pools !! pool = Some pl
                     /\ Tunnel_GetNumHops t = pool_hops inbound pl.
Proof.
  unfold recreation_due, pool_wants.
  rewrite !andb_true_iff, !negb_true_iff.
  intros ((((Hsw & Hest) & Hrec) & Hexp) & Hpool).
  repeat (split; [assumption|]).
  destruct (GetTunnelPool mb) as [pool|]; [|discriminate].
  destruct (pools !! pool) as [pl|] eqn:Hpl; [|discriminate].
  exists pool, pl. split; [reflexivity|]. split; [exact Hpl|].
  apply Z.eqb_eq. exact Hpool.
Qed.

Lemma flat_map_singletons {A B : Type} (f : A -> list B) (l : list A) :
  (forall x, In x l -> length (f x) = 1%nat) -> length (flat_map f l) = length l.
Proof.
  induction l as [|x l IH]; intros H; [reflexivity|].
  cbn [flat_map]. rewrite length_app, (H x (or_introl eq_refl)), IH.
  - reflexivity.
  - intros y Hy. apply H. right. exact Hy.
Qed.

Lemma sweep_kept_elem (ts : Z) (s : Tunnels) (l : list positive) (q : positive) :
  q ∈ sweep_kept ts s l
  <-> q ∈ l /\ exists t mb, object (tunnel_store s) (member_store s) q = Some (t, mb)
                            /\ swept ts t = false.
Proof.
  unfold sweep_kept. rewrite !list_elem_of_In, filter_In. unfold of_object.
  split.
  - intros [Hin Hk]. split; [exact Hin|].
    destruct (object (tunnel_store s) (member_store s) q) as [[t mb]|]; [|discriminate].
    exists t, mb. split; [reflexivity | apply negb_true_iff; exact Hk].
  - intros [Hin (t & mb & -> & Hk)]. split; [exact Hin | apply negb_true_iff; exact Hk].
Qed.

Lemma sweep_kept_NoDup (ts : Z) (s : Tunnels) (l : list positive) :
  NoDup l -> NoDup (sweep_kept ts s l).
Proof.
  rewrite !NoDup_ListNoDup. unfold sweep_kept. apply List.NoDup_filter.
Qed.

Lemma sweep_queued_NoDup (inbound : bool) (ts : Z) (s : Tunnels) (l : list positive) :
  NoDup l -> NoDup (sweep_queued inbound ts s l).
Proof.
  rewrite !NoDup_ListNoDup. unfold sweep_queued. apply List.NoDup_filter.
Qed.

Lemma sweep_loop_requeue (inbound : bool) (ts ts' : Z) (s : Tunnels)
    (l order : list positive) :
  0 <= TUNNEL_EXPIRATION_TIMEOUT ->
  0 <= TUNNEL_RECREATION_THRESHOLD -> 0 <= TUNNEL_EXPIRATION_THRESHOLD ->
  0 <= ts -> ts + TUNNEL_EXPIRATION_TIMEOUT < 2 ^ 64 ->
  ts + TUNNEL_RECREATION_THRESHOLD < 2 ^ 64 ->
  ts + TUNNEL_EXPIRATION_THRESHOLD < 2 ^ 64 ->
  0 <= ts' -> ts' + TUNNEL_EXPIRATION_TIMEOUT < 2 ^ 64 ->
  ts' + TUNNEL_RECREATION_THRESHOLD < 2 ^ 64 ->
  ts' + TUNNEL_EXPIRATION_THRESHOLD < 2 ^ 64 ->
  NoDup l -> Forall (sweepable s) l ->
  Permutation order (sweep_queued inbound ts s l) ->
  exists (s1 : Tunnels) (members2 : gmap positive TunnelMembers) (calls2 : list PoolCall),
    sweep_loop inbound ts s l []
    = Some (s1, sweep_kept ts s l, sweep_queued inbound ts s l, sweep_called inbound ts s l)
    /\ recreate_loop (member_store s1) order = Some (members2, calls2)
    /\ length calls2 = length order
    /\ forall s2 : Tunnels,
         tunnel_store s2 = tunnel_store s1 -> member_store s2 = members2 ->
         pool_store s2 = pool_store s1 ->
         exists (s3 : Tunnels) (kept' queue' : list positive) (calls3 : list SweepCall),
           sweep_loop inbound ts' s2 (sweep_kept ts s l) [] = Some (s3, kept', queue', calls3)
           /\ forall q, q ∈ sweep_queued inbound ts s l -> q ∉ queue'.
Proof.
  intros H0 Hr He Hts Hsum Hsumr Hsume Hts' Hsum' Hsumr' Hsume' Hnd Hlive Hperm.
  destruct (sweep_loop_spec inbound ts s H0 Hr He Hts Hsum Hsumr Hsume
              l s [] Hnd Hlive (fun _ _ => eq_refl) eq_refl eq_refl)
    as (s1 & Hrun & Em & Ep & _ & _ & _ & _ & Est & _).
  rewrite Forall_forall in Hlive.
  assert (Horder : forall q, q ∈ order <-> q ∈ sweep_queued inbound ts s l).
  { intros q. rewrite Hperm. reflexivity. }
  assert (Hnd2 : NoDup order).
  { rewrite Hperm. apply sweep_queued_NoDup. exact Hnd. }
  destruct (recreate_loop_spec (member_store s1) order (member_store s1) Hnd2)
    as (members2 & Hrec & Hlook).
  { intros q Hq. apply Horder, sweep_queued_elem in Hq as (_ & t & mb & Hobj & _).
    apply object_Some in Hobj as [_ Hmb]. rewrite Em, Hmb. eexists; reflexivity. }
  { intros q _. reflexivity. }
  eexists s1, members2, _. split; [exact Hrun|]. split; [exact Hrec|]. split.
  { apply flat_map_singletons. intros q Hq.
    apply list_elem_of_In, Horder, sweep_queued_elem in Hq as (_ & t & mb & Hobj & Hdue).
    apply object_Some in Hobj as [_ Hmb].
    apply recreation_due_true in Hdue as (_ & _ & Hnr & _ & pool & pl & Hpool & _).
    unfold recreate_calls. rewrite Em, Hmb, Hnr, Hpool. reflexivity. }
  intros s2 Et2 Em2 Ep2.
  assert (Hobj2 : forall q t mb,
             q ∈ l -> object (tunnel_store s) (member_store s) q = Some (t, mb) ->
             object (tunnel_store s2) (member_store s2) q
             = Some (mark_expiring ts t,
                     if bool_decide (q ∈ order) then recreated mb else mb)).
  { intros q t mb Hq Hobj. apply object_Some in Hobj as [Ht Hmb].
    apply object_Some. rewrite Et2, Em2, Est, Hlook, Em, Ht, Hmb.
    rewrite (bool_decide_eq_true_2 _ Hq).
    destruct (bool_decide (q ∈ order)); split; reflexivity. }
  destruct (sweep_loop_spec inbound ts' s2 H0 Hr He Hts' Hsum' Hsumr' Hsume'
              (sweep_kept ts s l) s2 [] (sweep_kept_NoDup ts s l Hnd))
    as (s3 & Hrun3 & _); [|intros; reflexivity|reflexivity|reflexivity|].
  { rewrite Forall_forall. intros q Hq.
    apply sweep_kept_elem in Hq as (Hq & _).
    destruct (Hlive q Hq) as (t & mb & Hobj & Hc & Hcs & Hpl).
    eexists _, _. split; [apply (Hobj2 q t mb Hq Hobj)|].
    assert (Hct : GetCreationTime (mark_expiring ts t) = GetCreationTime t).
    { unfold mark_expiring. destruct (marked_expiring ts t); reflexivity. }
    rewrite Hct. split; [exact Hc|]. split; [exact Hcs|].
    intros pool Hpool. rewrite Ep2, Ep. apply Hpl. rewrite <- Hpool.
    unfold recreated.
    destruct (bool_decide (q ∈ order)); [|reflexivity].
    destruct (negb (IsRecreated mb) && bool_decide (is_Some (GetTunnelPool mb)));
      reflexivity. }
  eexists s3, _, _, _. split; [exact Hrun3|].
  intros q Hq Hq'. cbn [app] in Hq'.
  pose proof Hq as Hqo. apply Horder in Hqo.
  apply sweep_queued_elem in Hq as (Hql & t & mb & Hobj & Hdue).
  apply sweep_queued_elem in Hq' as (_ & t' & mb' & Hobj' & Hdue').
  rewrite (Hobj2 q t mb Hql Hobj), (bool_decide_eq_true_2 _ Hqo) in Hobj'.
  inversion Hobj'; subst t' mb'.
  apply recreation_due_true in Hdue as (_ & _ & Hnr & _ & pool & pl & Hpool & _).
  apply recreation_due_true in Hdue' as (_ & _ & Hnr' & _).
  unfold recreated in Hnr'. rewrite Hnr, Hpool in Hnr'. cbn in Hnr'. discriminate Hnr'.
Qed.

(** X11: a tunnel is queued for recreation at most once.  Let a sweep of
    the outbound list at [ts] queue some tunnels and let [Recreate] be
    called on each of them, in any order (ManageTunnels shuffles the
    queue).  Then every call of [Recreate] reaches the pool (as many pool
    calls as queued tunnels), and a further sweep, at whatever time [ts']
    in range, queues none of these tunnels again. *)
Theorem ManageOutboundTunnels_sweep_queues_once (s : Tunnels) (ts ts' : Z)
    (order : list positive) :
  0 <= TUNNEL_EXPIRATION_TIMEOUT ->
  0 <= TUNNEL_RECREATION_THRESHOLD -> 0 <= TUNNEL_EXPIRATION_THRESHOLD ->
  0 <= ts -> ts + TUNNEL_EXPIRATION_TIMEOUT < 2 ^ 64 ->
  ts + TUNNEL_RECREATION_THRESHOLD < 2 ^ 64 ->
  ts + TUNNEL_EXPIRATION_THRESHOLD < 2 ^ 64 ->
  0 <= ts' -> ts' + TUNNEL_EXPIRATION_TIMEOUT < 2 ^ 64 ->
  ts' + TUNNEL_RECREATION_THRESHOLD < 2 ^ 64 ->
  ts' + TUNNEL_EXPIRATION_THRESHOLD < 2 ^ 64 ->
  NoDup (m_OutboundTunnels s) -> Forall (sweepable s) (m_OutboundTunnels s) ->
  Permutation order (sweep_queued false ts s (m_OutboundTunnels s)) ->
  exists (s1 : Tunnels) (queue : list positive) (calls1 : list SweepCall)
         (members2 : gmap positive TunnelMembers) (calls2 : list PoolCall)
         (s3 : Tunnels) (queue' : list positive) (calls3 : list SweepCall),
    ManageOutboundTunnels_sweep s ts [] = Some (s1, queue, calls1)
    /\ Permutation order queue
    /\ recreate_loop (member_store s1) order = Some (members2, calls2)
    /\ length calls2 = length queue
    /\ ManageOutboundTunnels_sweep (set_member_store s1 members2) ts' []
       = Some (s3, queue', calls3)
    /\ forall q, q ∈ queue -> q ∉ queue'.
Proof.
  intros H0 Hr He Hts Hsum Hsumr Hsume Hts' Hsum' Hsumr' Hsume' Hnd Hlive Hperm.
  destruct (sweep_loop_requeue false ts ts' s (m_OutboundTunnels s) order
              H0 Hr He Hts Hsum Hsumr Hsume Hts' Hsum' Hsumr' Hsume' Hnd Hlive Hperm)
    as (s1 & members2 & calls2 & Hrun & Hrec & Hlen & Hnext).
  set (kept := sweep_kept ts s (m_OutboundTunnels s)) in *.
  destruct (Hnext (set_member_store (set_m_OutboundTunnels s1 kept) members2)
              eq_refl eq_refl eq_refl)
    as (s3 & kept' & queue' & calls3 & Hrun3 & Hfresh).
  eexists (set_m_OutboundTunnels s1 kept), _, _, members2, calls2,
    (set_m_OutboundTunnels s3 kept'), queue', calls3.
  unfold ManageOutboundTunnels_sweep at 1. rewrite Hrun. cbn [mbind option_bind].
  split; [reflexivity|]. split; [exact Hperm|]. split; [exact Hrec|].
  split; [rewrite Hlen; apply Permutation_length; exact Hperm|].
  split; [|exact Hfresh].
  unfold ManageOutboundTunnels_sweep.
  cbn [m_OutboundTunnels set_member_store set_m_OutboundTunnels].
  rewrite Hrun3. reflexivity.
Qed.

Lemma IsEstablished_mark_expiring (ts : Z) (t : Tunnel) :
  swept ts t = false ->
  IsEstablished (mark_expiring ts t) = fresh_at ts t.
Proof.
  intros Esw. unfold mark_expiring, marked_expiring, fresh_at. rewrite Esw.
  cbn [negb andb].
  destruct (IsEstablished t) eqn:Eest; cbn [andb]; [|exact Eest].
  destruct (expires_within TUNNEL_EXPIRATION_THRESHOLD ts t); [reflexivity | exact Eest].
Qed.

(** X12: the outbound sweep followed by [GetNextOutboundTunnel].  After a
    sweep at [ts] the selection hands out only a tunnel of the list that is
    neither failed nor expired, was established before the sweep and has at
    least [TUNNEL_EXPIRATION_THRESHOLD] left to live, whatever the
    generator returns; it hands out none only when the list has no such
    tunnel. *)
Theorem GetNextOutboundTunnel_after_sweep (s : Tunnels) (ts r : Z)
    (toRecreate : list positive) :
  0 <= TUNNEL_EXPIRATION_TIMEOUT ->
  0 <= TUNNEL_RECREATION_THRESHOLD -> 0 <= TUNNEL_EXPIRATION_THRESHOLD ->
  0 <= ts -> ts + TUNNEL_EXPIRATION_TIMEOUT < 2 ^ 64 ->
  ts + TUNNEL_RECREATION_THRESHOLD < 2 ^ 64 ->
  ts + TUNNEL_EXPIRATION_THRESHOLD < 2 ^ 64 ->
  NoDup (m_OutboundTunnels s) -> Forall (sweepable s) (m_OutboundTunnels s) ->
  Z.of_nat (length (m_OutboundTunnels s)) < 2 ^ 32 -> 0 <= r ->
  exists (s' : Tunnels) (queue : list positive) (calls : list SweepCall)
         (next : option positive),
    ManageOutboundTunnels_sweep s ts toRecreate = Some (s', queue, calls)
    /\ GetNextOutboundTunnel (tunnel_store s') (m_OutboundTunnels s') r = Some next
    /\ match next with
       | Some p =>
           exists t, p ∈ m_OutboundTunnels s /\ tunnel_store s !! p = Some t
                     /\ IsFailed t = false /\ expired ts t = false
                     /\ IsEstablished t = true
                     /\ ts + TUNNEL_EXPIRATION_THRESHOLD
                        <= GetCreationTime t + TUNNEL_EXPIRATION_TIMEOUT
       | None =>
           forall q t, q ∈ m_OutboundTunnels s -> tunnel_store s !! q = Some t ->
                       fresh_at ts t = false
       end.
Proof.
  intros H0 Hr He Hts Hsum Hsumr Hsume Hnd Hlive Hlen Hrnd.
  destruct (sweep_loop_spec false ts s H0 Hr He Hts Hsum Hsumr Hsume
              (m_OutboundTunnels s) s toRecreate Hnd Hlive
              (fun _ _ => eq_refl) eq_refl eq_refl)
    as (s1 & Hrun & Em & Ep & _ & _ & _ & _ & Est & _).
  set (l := m_OutboundTunnels s) in *.
  set (kept := sweep_kept ts s l) in *.
  rewrite Forall_forall in Hlive.
  assert (Hkept : forall q, q ∈ kept ->
             exists t, q ∈ l /\ tunnel_store s !! q = Some t /\ swept ts t = false
                       /\ tunnel_store s1 !! q = Some (mark_expiring ts t)).
  { intros q Hq. apply sweep_kept_elem in Hq as (Hq & t & mb & Hobj & Hsw).
    apply object_Some in Hobj as [Ht _]. exists t.
    split; [exact Hq|]. split; [exact Ht|]. split; [exact Hsw|].
    rewrite Est, (bool_decide_eq_true_2 _ Hq), Ht. reflexivity. }
  eexists (set_m_OutboundTunnels s1 kept), _, _, _.
  unfold ManageOutboundTunnels_sweep. fold l. rewrite Hrun. cbn [mbind option_bind].
  split; [reflexivity|].
  cbn [tunnel_store m_OutboundTunnels set_m_OutboundTunnels].
  assert (Hklen : (length kept <= length l)%nat) by apply List.filter_length_le.
  split.
  { apply GetNextOutboundTunnel_spec; [|lia|exact Hrnd].
    rewrite Forall_forall. intros q Hq.
    destruct (Hkept q Hq) as (t & _ & _ & _ & ->). eexists; reflexivity. }
  set (est := established_tunnels (tunnel_store s1) kept).
  destruct (est !! _) as [p|] eqn:Eidx.
  - assert (Hp : p ∈ est) by (eapply list_elem_of_lookup_2; exact Eidx).
    unfold est, established_tunnels in Hp.
    apply list_elem_of_In, filter_In in Hp as [Hp Hest].
    apply list_elem_of_In in Hp.
    destruct (Hkept p Hp) as (t & Hpl & Ht & Hsw & Ht1).
    rewrite Ht1, (IsEstablished_mark_expiring ts t Hsw) in Hest.
    unfold fresh_at in Hest. rewrite Hsw in Hest. cbn [negb andb] in Hest.
    apply andb_true_iff in Hest as [Hest Hexp].
    apply negb_true_iff in Hexp. unfold expires_within in Hexp.
    apply Z.ltb_ge in Hexp.
    unfold swept in Hsw. apply orb_false_iff in Hsw as [Hf Hx].
    exists t. repeat split; assumption.
  - intros q t Hq Ht.
    destruct (fresh_at ts t) eqn:Efresh; [exfalso|reflexivity].
    assert (Hsw : swept ts t = false).
    { unfold fresh_at in Efresh. destruct (swept ts t); [discriminate|reflexivity]. }
    assert (Hin : q ∈ est).
    { unfold est, established_tunnels. apply list_elem_of_In, filter_In.
      destruct (Hlive q Hq) as (t0 & mb & Hobj & _).
      pose proof Hobj as Hobj0. apply object_Some in Hobj0 as [Ht0 _].
      rewrite Ht in Ht0. inversion Ht0; subst t0.
      assert (Hqk : q ∈ kept).
      { apply sweep_kept_elem. split; [exact Hq|]. exists t, mb. split; assumption. }
      split; [apply list_elem_of_In; exact Hqk|].
      destruct (Hkept q Hqk) as (t1 & _ & Ht1 & _ & ->).
      rewrite Ht in Ht1. inversion Ht1; subst t1.
      rewrite (IsEstablished_mark_expiring ts t Hsw). exact Efresh. }
    apply lookup_ge_None in Eidx.
    assert (0 < length est)%nat.
    { destruct est; [inversion Hin | cbn; lia]. }
    lia.
Qed.

(** ** EncryptTunnelMsg, VisitTunnelHops and HandleTunnelDataMsg *)

Lemma encrypt_loop_spec (hs : list TunnelHop) (inPayload outPayload : list byte) :
  encrypt_loop hs inPayload outPayload
  = match hs with
    | [] => outPayload
    | _ :: _ => fold_left (fun p it => Decrypt (decryption it) p) hs inPayload
    end.
Proof.
  destruct hs as [|it rest]; [reflexivity|]. cbn [encrypt_loop fold_left].
  generalize (Decrypt (decryption it) inPayload). clear it inPayload outPayload.
  induction rest as [|it rest IH]; intros p; [reflexivity|].
  cbn [encrypt_loop fold_left]. apply IH.
Qed.

Lemma HandleTunnelBuildResponse_true_hops
    (t t' : Tunnel) (msg0 : byte) (recs : list (list byte)) (len : Z)
    (evs : list ProfileEvent) :
  HandleTunnelBuildResponse t msg0 recs len = Some (true, t', evs) ->
  exists cfg : TunnelConfig,
    m_Config t = Some cfg /\ m_Hops t' = map runtime_hop (rev (hops cfg)).
Proof.
  unfold HandleTunnelBuildResponse. intros H.
  destruct (MAX_NUM_RECORDS <? byte_to_Z msg0); [discriminate|].
  destruct (m_Config t) as [cfg|]; [|discriminate].
  cbn [mbind option_bind] in H.
  destruct (len <? uint64 (byte_to_Z msg0 * GetRecordSize cfg + 1)); [discriminate|].
  destruct (decrypt_response (byte_to_Z msg0) (rev (hops cfg)) recs)
    as [[recs1|]|] eqn:Hdec; try discriminate.
  cbn [mbind option_bind] in H.
  destruct (decrypt_response_accepts _ _ _ _ Hdec) as [Hl Hidx].
  apply Forall_chain_hops in Hidx.
  assert (Hidx1 : Forall (fun hop => is_Some (slot_index recs1 (recordIndex hop)))
                    (hops cfg)).
  { eapply Forall_impl; [exact Hidx|]. intros h Hh. cbn beta in Hh.
    rewrite (slot_index_length recs recs1) by exact Hl. exact Hh. }
  destruct (read_ret_codes_spec (hops cfg) recs1 true O Hidx1)
    as (codes & Hcodes & Hrun).
  rewrite Hrun in H. cbn [mbind option_bind andb Nat.add] in H.
  destruct (forallb accepts codes); [|discriminate].
  rewrite fill_hops_all in H. cbn [mbind option_bind] in H.
  inversion H; subst. exists cfg. split; reflexivity.
Qed.

(** X13: the layers an established tunnel peels.  After an accepted build
    response [EncryptTunnelMsg] applies the layer cipher once for each hop
    of the build configuration, with that hop's layer and iv key, the last
    hop of the path first and the first hop last; its result does not
    depend on what [out] held before.  For a configuration without hops it
    leaves [out] as it was, whatever [in] holds. *)
Theorem EncryptTunnelMsg_after_build
    (t t' : Tunnel) (msg0 : byte) (recs : list (list byte)) (len : Z)
    (evs : list ProfileEvent) :
  HandleTunnelBuildResponse t msg0 recs len = Some (true, t', evs) ->
  exists cfg : TunnelConfig,
    m_Config t = Some cfg
    /\ forall inPayload outPayload : list byte,
         EncryptTunnelMsg t' inPayload outPayload
         = match hops cfg with
           | [] => outPayload
           | _ :: _ => fold_right (fun hop p => Decrypt (hop_keys hop) p)
                         inPayload (hops cfg)
           end.
Proof.
  intros H. destruct (HandleTunnelBuildResponse_true_hops _ _ _ _ _ _ H)
    as (cfg & Hcfg & Hhops).
  exists cfg. split; [exact Hcfg|]. intros inPayload outPayload.
  unfold EncryptTunnelMsg. rewrite encrypt_loop_spec, Hhops.
  assert (Hfold : fold_left (fun p it => Decrypt (decryption it) p)
                    (map runtime_hop (rev (hops cfg))) inPayload
                  = fold_right (fun hop p => Decrypt (hop_keys hop) p)
                      inPayload (hops cfg)).
  { rewrite <- (rev_involutive (hops cfg)) at 2. rewrite fold_left_rev_right.
    generalize (rev (hops cfg)) inPayload. clear.
    induction l as [|hop l IH]; intros p; [reflexivity|].
    cbn [map fold_left]. apply IH. }
  destruct (hops cfg) as [|hop rest] eqn:E.
  - reflexivity.
  - rewrite <- E in *. rewrite <- Hfold.
    destruct (map runtime_hop (rev (hops cfg))) eqn:E2; [|reflexivity].
    apply (f_equal (@length _)) in E2. rewrite length_map, length_rev, E in E2.
    discriminate E2.
Qed.

(** X14: [VisitTunnelHops] calls the visitor on the identities in the
    order of [GetPeers], the first hop of the path first. *)
Theorem VisitTunnelHops_order {S : Type} (t : Tunnel)
    (v : option IdentityEx -> S -> S) (st : S) :
  VisitTunnelHops t v st = fold_left (fun st i => v i st) (GetPeers t) st.
Proof.
  unfold VisitTunnelHops, GetPeers.
  rewrite std_reverse_rev, GetInvertedPeers_hops, <- map_rev.
  generalize (rev (m_Hops t)) st. clear.
  induction l as [|it l IH]; intros st; [reflexivity|].
  cbn [map fold_left]. apply IH.
Qed.

Lemma EncryptTunnelMsg_in_place (t : Tunnel) (payload : list byte) :
  EncryptTunnelMsg t payload payload
  = fold_left (fun p it => Decrypt (decryption it) p) (m_Hops t) payload.
Proof.
  unfold EncryptTunnelMsg. rewrite encrypt_loop_spec.
  destruct (m_Hops t); reflexivity.
Qed.

(** X15: a tunnel data message on an inbound tunnel.  The message makes
    the tunnel [Established] from any state but [Expiring], which it
    keeps, and changes nothing else of it; the lease set of the pool's
    local destination is flagged only on such a change of state; the
    endpoint gets the payload with one layer peeled for each runtime hop in
    stored order; and a further message changes no state and makes no
    call. *)
Theorem HandleTunnelDataMsg_alive (s : Tunnels) (tunnel : positive)
    (t : Tunnel) (mb : TunnelMembers) (payload : list byte) :
  object (tunnel_store s) (member_store s) tunnel = Some (t, mb) ->
  (forall pool, GetTunnelPool mb = Some pool -> is_Some (pool_store s !! pool)) ->
  exists (s' : Tunnels) (calls : list PoolCall),
    HandleTunnelDataMsg s tunnel payload
    = Some (s', calls,
            fold_left (fun p it => Decrypt (decryption it) p) (m_Hops t) payload)
    /\ tunnel_store s'
       = <[tunnel := SetState t (if bool_decide (GetState t = eTunnelStateExpiring)
                                 then eTunnelStateExpiring
                                 else eTunnelStateEstablished)]> (tunnel_store s)
    /\ (calls <> [] ->
        GetState t <> eTunnelStateEstablished /\ GetState t <> eTunnelStateExpiring)
    /\ (forall c, c ∈ calls ->
          exists pool pl, GetTunnelPool mb = Some pool /\ pool_store s !! pool = Some pl
                          /\ exists dest, GetLocalDestination pl = Some dest
                                          /\ c = SetLeaseSetUpdated dest)
    /\ (forall payload' : list byte,
          HandleTunnelDataMsg s' tunnel payload'
          = Some (s', [],
                  fold_left (fun p it => Decrypt (decryption it) p) (m_Hops t) payload'))
    /\ set_tunnel_store s' (tunnel_store s) = s.
Proof.
  intros Hobj Hpool.
  assert (Hsame : forall st, GetState t = st -> SetState t st = t).
  { intros st <-. destruct t; reflexivity. }
  assert (Hagain : forall (t1 : Tunnel) (payload' : list byte),
             (IsEstablished t1 = true \/ GetState t1 = eTunnelStateExpiring) ->
             m_Hops t1 = m_Hops t ->
             let s' := set_tunnel_store s (<[tunnel := t1]> (tunnel_store s)) in
             HandleTunnelDataMsg s' tunnel payload'
             = Some (s', [],
                     fold_left (fun p it => Decrypt (decryption it) p) (m_Hops t) payload')).
  { intros t1 payload' Hst Hh s'. unfold HandleTunnelDataMsg.
    assert (Hobj' : object (tunnel_store s') (member_store s') tunnel = Some (t1, mb)).
    { apply object_Some in Hobj as [_ Hmb]. apply object_Some.
      split; [apply lookup_insert_eq | exact Hmb]. }
    rewrite Hobj'. cbn [mbind option_bind].
    assert (negb (IsEstablished t1)
            && negb (bool_decide (GetState t1 = eTunnelStateExpiring)) = false) as ->.
    { destruct Hst as [->|Hx]; [reflexivity|].
      rewrite (bool_decide_eq_true_2 _ Hx). apply andb_false_r. }
    cbn [mbind option_bind]. rewrite EncryptTunnelMsg_in_place, Hh.
    unfold s'. cbn [tunnel_store set_tunnel_store]. rewrite insert_insert_eq.
    reflexivity. }
  unfold HandleTunnelDataMsg. rewrite Hobj. cbn [mbind option_bind].
  destruct (IsEstablished t) eqn:Eest; cbn [negb andb].
  - assert (Hst : GetState t = eTunnelStateEstablished).
    { unfold IsEstablished in Eest. apply bool_decide_eq_true in Eest. exact Eest. }
    cbn [mbind option_bind]. eexists _, _. rewrite EncryptTunnelMsg_in_place.
    split; [reflexivity|]. cbn [tunnel_store set_tunnel_store].
    rewrite Hst. rewrite bool_decide_eq_false_2 by discriminate.
    rewrite (Hsame _ Hst).
    split; [reflexivity|]. split; [intros H; contradiction|].
    split; [intros c Hc; inversion Hc|].
    split; [intros payload'; apply Hagain; [left; exact Eest | reflexivity]|].
    destruct s; reflexivity.
  - destruct (bool_decide_reflect (GetState t = eTunnelStateExpiring)) as [Hx|Hnx];
      cbn [negb].
    + cbn [mbind option_bind]. eexists _, _. rewrite EncryptTunnelMsg_in_place.
      split; [reflexivity|]. cbn [tunnel_store set_tunnel_store].
      rewrite (Hsame _ Hx).
      split; [reflexivity|]. split; [intros H; contradiction|].
      split; [intros c Hc; inversion Hc|].
      split; [intros payload'; apply Hagain; [right; exact Hx | reflexivity]|].
      destruct s; reflexivity.
    + assert (Hne : GetState t <> eTunnelStateEstablished).
      { intros Hst. unfold IsEstablished in Eest. apply bool_decide_eq_false in Eest.
        apply Eest. exact Hst. }
      assert (Hcalls : exists calls : list PoolCall,
                 match GetTunnelPool mb with
                 | Some pool =>
                     pool_store s !! pool
                     ≫= λ pl : TunnelPool,
                          Some (match GetLocalDestination pl with
                                | Some dest => [SetLeaseSetUpdated dest]
                                | None => []
                                end)
                 | None => Some []
                 end = Some calls
                 /\ forall c, c ∈ calls ->
                      exists pool pl, GetTunnelPool mb = Some pool
                                      /\ pool_store s !! pool = Some pl
                                      /\ exists dest, GetLocalDestination pl = Some dest
                                                      /\ c = SetLeaseSetUpdated dest).
      { destruct (GetTunnelPool mb) as [pool|] eqn:Epool.
        - destruct (Hpool pool eq_refl) as [pl Hpl]. rewrite Hpl.
          cbn [mbind option_bind]. eexists. split; [reflexivity|].
          intros c Hc. exists pool, pl. split; [reflexivity|]. split; [exact Hpl|].
          destruct (GetLocalDestination pl) as [dest|]; [|inversion Hc].
          apply list_elem_of_singleton in Hc. exists dest. split; [reflexivity | exact Hc].
        - eexists. split; [reflexivity|]. intros c Hc. inversion Hc. }
      destruct Hcalls as (calls & -> & Hcalls). cbn [mbind option_bind].
      eexists _, calls. rewrite EncryptTunnelMsg_in_place.
      split; [reflexivity|]. cbn [tunnel_store set_tunnel_store].
      split; [reflexivity|]. split; [intros _; split; assumption|].
      split; [exact Hcalls|].
      split; [intros payload'; apply Hagain; [left; reflexivity | reflexivity]|].
      destruct s; reflexivity.
Qed.

(** ** Zero-hops tunnels and the tunnel gateway *)

Lemma GetLength_range (msg : Message) : 0 <= GetLength msg < 2 ^ 64.
Proof. unfold GetLength, uint64. apply Z.mod_pos_bound. reflexivity. Qed.

Lemma batch_bytes_nonneg (msgs : list TunnelMessageBlock) : 0 <= batch_bytes msgs.
Proof.
  induction msgs as [|msg rest IH]; cbn [batch_bytes fold_right]; [lia|].
  fold (batch_bytes rest). destruct (data msg) as [d|]; [|exact IH].
  pose proof (GetLength_range d). lia.
Qed.

(** X16: a batch sent through a zero-hops outbound tunnel.  Each block
    that carries a message is delivered exactly once, in batch order and by
    its delivery type: handled locally, sent to its router, or sent to its
    router wrapped for its tunnel; a block without a message is skipped and
    not counted; the counter of sent bytes grows by the lengths of the
    messages delivered. *)
Theorem ZeroHopsOutboundTunnel_SendTunnelDataMsgs_batch
    (m_NumSentBytes : Z) (msgs : list TunnelMessageBlock) :
  Forall well_formed_block (with_data msgs) ->
  0 <= m_NumSentBytes -> m_NumSentBytes + batch_bytes msgs < 2 ^ 64 ->
  exists ds : list Delivery,
    ZeroHopsOutboundTunnel_SendTunnelDataMsgs m_NumSentBytes msgs
    = Some (m_NumSentBytes + batch_bytes msgs, ds)
    /\ Forall2 (fun msg d => exists m, data msg = Some m /\ delivery_of msg m = Some d)
         (with_data msgs) ds.
Proof.
  revert m_NumSentBytes.
  induction msgs as [|msg rest IH]; intros n Hwf Hn Hsum.
  - exists []. cbn. rewrite Z.add_0_r. split; [reflexivity | constructor].
  - cbn [ZeroHopsOutboundTunnel_SendTunnelDataMsgs batch_bytes fold_right with_data
         List.filter] in *.
    fold (batch_bytes rest) in *. fold (with_data rest) in *.
    destruct (data msg) as [d|] eqn:Ed.
    + rewrite bool_decide_eq_true_2 in Hwf |- * by (eexists; reflexivity).
      inversion Hwf as [|? ? Hmsg Hrest]; subst.
      pose proof (GetLength_range d) as Hd.
      pose proof (batch_bytes_nonneg rest) as Hb.
      assert (Hno : uint64 (n + GetLength d) = n + GetLength d).
      { unfold uint64. apply Z.mod_small. lia. }
      rewrite Hno.
      assert (Hdel : exists dl, delivery_of msg d = Some dl).
      { unfold delivery_of, well_formed_block in *.
        destruct (deliveryType msg).
        - eexists; reflexivity.
        - destruct Hmsg as [[h ->] [id ->]]. eexists; reflexivity.
        - destruct Hmsg as [h ->]. eexists; reflexivity. }
      destruct Hdel as [dl Hdl]. unfold delivery_of in Hdl. rewrite Hdl.
      cbn [mbind option_bind].
      destruct (IH (n + GetLength d) Hrest) as (ds & Hrun & Hall); [lia|lia|].
      rewrite Hrun. cbn [mbind option_bind]. exists (dl :: ds).
      split; [rewrite Z.add_assoc; reflexivity|].
      constructor; [|exact Hall]. exists d. split; [exact Ed | exact Hdl].
    + rewrite bool_decide_eq_false_2 in Hwf |- * by (intros [? H]; discriminate H).
      apply IH; assumption.
Qed.

(** X17: [SendTunnelDataMsgTo] on a zero-hops outbound tunnel never reads
    a field of the block it did not set.  Without a gateway hash the
    message is handled locally, whatever the gateway tunnel id; with a hash
    and tunnel id 0 it is sent to the router as it is; with a hash and
    another id it is sent wrapped for that tunnel; a null message is
    dropped and not counted. *)
Theorem ZeroHopsOutboundTunnel_SendTunnelDataMsgTo_delivery
    (m_NumSentBytes : Z) (gwHash : option IdentHash) (gwTunnel : Z)
    (msg : option Message) :
  ZeroHopsOutboundTunnel_SendTunnelDataMsgTo m_NumSentBytes gwHash gwTunnel msg
  = Some match msg with
         | None => (m_NumSentBytes, [])
         | Some d =>
             (uint64 (m_NumSentBytes + GetLength d),
              [match gwHash with
               | None => HandleI2NPMessage d
               | Some h => if gwTunnel =? 0 then SendMessage h d
                           else SendTunnelGatewayMsg h gwTunnel d
               end])
         end.
Proof.
  unfold ZeroHopsOutboundTunnel_SendTunnelDataMsgTo, SendTunnelDataMsgTo_block.
  destruct gwHash as [h|]; [destruct (gwTunnel =? 0)|]; destruct msg as [d|];
    reflexivity.
Qed.

(** X18: the bounds check of the tunnel gateway.  A gateway message is
    passed on exactly when the length its header announces fits behind the
    two headers; the message passed on starts behind the headers, has
    exactly the announced length and does not reach beyond the message
    received; a zero-hops inbound tunnel that gets it counts the announced
    length.  A message that does not fit is not passed on, though its
    offset has been moved. *)
Theorem HandleTunnelGatewayMsg_bounds (tunnel : positive) (msg : Message)
    (m_NumReceivedBytes : Z) :
  0 <= I2NP_HEADER_SIZE -> 0 <= TUNNEL_GATEWAY_HEADER_SIZE ->
  I2NP_HEADER_SIZE + TUNNEL_GATEWAY_HEADER_SIZE < 2 ^ 32 ->
  0 <= msg_offset msg < 2 ^ 32 -> 0 <= msg_len msg < 2 ^ 32 ->
  0 <= gateway_length msg < 2 ^ 16 ->
  0 <= m_NumReceivedBytes < 2 ^ 63 ->
  let header := I2NP_HEADER_SIZE + TUNNEL_GATEWAY_HEADER_SIZE in
  let fits := msg_offset msg + header + gateway_length msg <=? msg_len msg in
  exists msg' : Message,
    HandleTunnelGatewayMsg (Some tunnel) msg
    = (msg', if fits then Some (tunnel, msg') else None)
    /\ msg_offset msg' = msg_offset msg + header
    /\ (fits = true ->
        msg_len msg' = msg_offset msg' + gateway_length msg
        /\ msg_len msg' <= msg_len msg
        /\ GetLength msg' = gateway_length msg
        /\ ZeroHopsInboundTunnel_SendTunnelDataMsg m_NumReceivedBytes (Some msg')
           = (m_NumReceivedBytes + gateway_length msg, [HandleI2NPMessage msg']))
    /\ (fits = false -> msg_len msg' = msg_len msg).
Proof.
  intros Hi Hg Hh Ho Hl Hgl Hn header fits.
  change (2 ^ 32) with 4294967296 in *. change (2 ^ 16) with 65536 in *.
  change (2 ^ 63) with 9223372036854775808 in *.
  assert (Hu : forall x, 0 <= x < 18446744073709551616 -> uint64 x = x).
  { intros x Hx. unfold uint64. change (2 ^ 64) with 18446744073709551616.
    apply Z.mod_small. exact Hx. }
  unfold HandleTunnelGatewayMsg. cbn [msg_offset msg_len gateway_length].
  fold header. rewrite !(Hu header) by (unfold header; lia).
  rewrite !(Hu (msg_offset msg + header)) by (unfold header; lia).
  rewrite !(Hu (msg_offset msg + header + gateway_length msg)) by (unfold header; lia).
  unfold fits.
  destruct (Z.leb_spec (msg_offset msg + header + gateway_length msg) (msg_len msg))
    as [Hfit|Hnofit].
  - rewrite (proj2 (Z.ltb_ge _ _)) by lia.
    eexists. split; [reflexivity|]. cbn [msg_offset msg_len gateway_length].
    split; [reflexivity|]. split; [|discriminate].
    intros _. split; [reflexivity|]. split; [exact Hfit|].
    assert (Hlen : uint64 (msg_offset msg + header + gateway_length msg
                           - (msg_offset msg + header)) = gateway_length msg).
    { rewrite Hu by lia. lia. }
    split.
    + unfold GetLength. cbn [msg_offset msg_len]. exact Hlen.
    + unfold ZeroHopsInboundTunnel_SendTunnelDataMsg, GetLength.
      cbn [msg_offset msg_len]. rewrite Hlen, Hu by lia. reflexivity.
  - rewrite (proj2 (Z.ltb_lt _ _)) by lia.
    eexists. split; [reflexivity|]. cbn [msg_offset msg_len gateway_length].
    split; [reflexivity|]. split; [discriminate|]. intros _. reflexivity.
Qed.

(** ** CreateTunnel *)

(** X19: [CreateTunnel] files the new tunnel under the reply id it hands
    to [Build].  For a configuration of one to [MAX_NUM_RECORDS] hops the
    call succeeds; the tunnel is [Pending], has the pool given and is found
    in the pending map of its direction under the id made of the four
    bytes drawn first; the request record of the last hop carries this
    very id, and the request of each hop before it carries an id made of
    four later bytes; the lists and the registry do not change. *)
Theorem CreateTunnel_pending_under_reply_id
    (inbound : bool) (s : Tunnels) (newTunnel : positive) (config : TunnelConfig)
    (id now : Z) (pool : option positive) (rng : Z) (pos : nat) :
  (forall g l, Permutation (std_shuffle g l) l) ->
  1 <= GetNumHops config <= MAX_NUM_RECORDS ->
  num_records config <= Z.of_nat (length (records (new_message config))) ->
  let H := length (hops config) in
  let replyMsgID := uint32_of_bytes (RAND_bytes pos 4) in
  exists (s' : Tunnels) (out : BuildOutput) (t' : Tunnel) (mb : TunnelMembers),
    CreateTunnel inbound s newTunnel config id now pool rng pos = Some (s', out)
    /\ object (tunnel_store s') (member_store s') newTunnel = Some (t', mb)
    /\ GetState t' = eTunnelStatePending /\ GetCreationTime t' = now
    /\ GetTunnelPool mb = pool /\ GetTunnelID mb = id /\ IsRecreated mb = false
    /\ (if inbound then GetPendingInboundTunnel s' replyMsgID
        else GetPendingOutboundTunnel s' replyMsgID)
       = Some (Some newTunnel,
               set_tunnel_store s'
                 (<[newTunnel := SetState t' eTunnelStateBuildReplyReceived]>
                    (tunnel_store s')))
    /\ (exists hop, out_requests out !! (H - 1)%nat = Some (hop, replyMsgID))
    /\ (forall (k : nat) (hop : TunnelHopConfig) (msgID : Z),
          (k < H - 1)%nat -> out_requests out !! k = Some (hop, msgID) ->
          msgID = uint32_of_bytes (RAND_bytes (pos + 4 + 4 * k) 4))
    /\ m_InboundTunnels s' = m_InboundTunnels s
    /\ m_OutboundTunnels s' = m_OutboundTunnels s
    /\ m_Tunnels s' = m_Tunnels s.
Proof.
  intros Hperm Hhops Hcap H replyMsgID.
  destruct (Build_spec (Tunnel_ctor config now) config replyMsgID rng (pos + 4)
              Hperm eq_refl Hhops Hcap) as (recs2 & recs3 & Hrun & _ & _).
  destruct (shuffled_indices_facts rng config Hperm) as (_ & Hl & _ & _).
  set (ri := shuffled_indices rng config) in *.
  set (hs := zip_with set_recordIndex (hops config) ri) in *.
  assert (HHR : (1 <= H <= length ri)%nat).
  { rewrite Hl. unfold num_records, STANDARD_NUM_RECORDS, MAX_NUM_RECORDS in *.
    unfold GetNumHops in *. fold H in Hhops |- *.
    destruct (Z.of_nat H <=? 4) eqn:E;
      [apply Z.leb_le in E | apply Z.leb_gt in E]; lia. }
  assert (Hhs_len : length hs = H).
  { unfold hs. apply length_zip_with_l. fold H. lia. }
  assert (Hreq : forall k hop msgID,
             zip hs (request_ids replyMsgID (pos + 4) H) !! k = Some (hop, msgID) ->
             msgID = request_id replyMsgID (pos + 4) H k /\ (k < H)%nat).
  { intros k hop msgID Hk. apply lookup_zip_with_Some in Hk as (x & y & Heq & _ & Hy).
    inversion Heq; subst. unfold request_ids in Hy.
    apply lookup_map_seq in Hy as [-> Hlt]. split; [reflexivity | exact Hlt]. }
  unfold CreateTunnel.
  destruct inbound;
    cbn [tunnel_store member_store set_tunnel_store set_member_store
         AddPendingInboundTunnel AddPendingOutboundTunnel
         set_m_PendingInboundTunnels set_m_PendingOutboundTunnels];
    rewrite lookup_insert_eq; cbn [mbind option_bind];
    fold replyMsgID; rewrite Hrun; cbn [mbind option_bind];
    eexists _, _, _, _; (split; [reflexivity|]);
    cbn [tunnel_store member_store set_tunnel_store set_member_store out_requests
         m_InboundTunnels m_OutboundTunnels m_Tunnels];
    (split; [apply object_Some; split; apply lookup_insert_eq|]);
    (split; [reflexivity|]); (split; [reflexivity|]); (split; [reflexivity|]);
    (split; [reflexivity|]); (split; [reflexivity|]).
  all: split;
    [ unfold GetPendingInboundTunnel, GetPendingOutboundTunnel, GetPendingTunnel;
      cbn [m_PendingInboundTunnels m_PendingOutboundTunnels tunnel_store
           set_tunnel_store set_member_store
           AddPendingInboundTunnel AddPendingOutboundTunnel
           set_m_PendingInboundTunnels set_m_PendingOutboundTunnels];
      rewrite find_map_assign_eq, lookup_insert_eq; reflexivity |].
  all: split;
    [ destruct (lookup_lt_is_Some_2 hs (H - 1)%nat) as [hop Hhop]; [lia|];
      exists hop; apply lookup_zip_with_Some; exists hop, replyMsgID;
      split; [reflexivity|]; split; [exact Hhop|];
      unfold request_ids; rewrite list_lookup_fmap, lookup_seq_lt by lia;
      cbn; unfold request_id; rewrite Nat.eqb_refl; reflexivity |].
  all: split;
    [ intros k hop msgID Hk Hlook; destruct (Hreq k hop msgID Hlook) as [-> _];
      unfold request_id;
      destruct (Nat.eqb_spec k (H - 1)) as [Heq|_]; [lia | reflexivity] |].
  all: repeat split; reflexivity.
Qed.

(** ** AddInboundTunnel and the build messages of inbound tunnels *)

Lemma AddInboundTunnel_spec (s : Tunnels) (newTunnel : positive) (c : Creation)
    (t : Tunnel) (mb : TunnelMembers) (pool : positive) (p : TunnelPool) :
  object (tunnel_store s) (member_store s) newTunnel = Some (t, mb) ->
  GetTunnelPool mb = Some pool -> pool_store s !! pool = Some p ->
  AddInboundTunnel s newTunnel c
  = Some match GetTunnel s (GetTunnelID mb) with
         | Some _ => (s, [], None)
         | None =>
             let s2 := set_m_InboundTunnels
                         (set_m_Tunnels s (<[GetTunnelID mb := newTunnel]> (m_Tunnels s)))
                         (m_InboundTunnels s ++ [newTunnel]) in
             if IsActive p then (s2, [TunnelCreated pool newTunnel], None)
             else (set_member_store s2
                     (<[newTunnel := SetTunnelPool mb None]> (member_store s)), [], None)
         end.
Proof.
  intros Hobj Hpool Hp. pose proof Hobj as Hobj0.
  apply object_Some in Hobj0 as [Ht Hmb].
  unfold AddInboundTunnel, AddTunnel, GetTunnel. rewrite Hmb. cbn [mbind option_bind].
  destruct (m_Tunnels s !! GetTunnelID mb) as [old|]; cbn [mbind option_bind];
    [reflexivity|].
  cbn [tunnel_store member_store pool_store set_m_Tunnels set_m_InboundTunnels
       m_InboundTunnels].
  rewrite Hobj. cbn [mbind option_bind]. rewrite Hpool, Hp. cbn [mbind option_bind].
  destruct (IsActive p); reflexivity.
Qed.

(** X20: [AddInboundTunnel] lists only what it could register.  A tunnel
    of a pool whose id is free is registered under its id and appended to
    the inbound list, and its pool gets one [TunnelCreated] if it is active
    (if not, the tunnel is detached from it); a tunnel whose id is taken
    is neither registered nor appended, and nothing at all changes. *)
Theorem AddInboundTunnel_registers (s : Tunnels) (newTunnel : positive) (c : Creation)
    (t : Tunnel) (mb : TunnelMembers) (pool : positive) (p : TunnelPool) :
  object (tunnel_store s) (member_store s) newTunnel = Some (t, mb) ->
  GetTunnelPool mb = Some pool -> pool_store s !! pool = Some p ->
  exists (s' : Tunnels) (calls : list PoolCall),
    AddInboundTunnel s newTunnel c = Some (s', calls, None)
    /\ match GetTunnel s (GetTunnelID mb) with
       | Some old =>
           s' = s /\ calls = [] /\ GetTunnel s' (GetTunnelID mb) = Some old
       | None =>
           GetTunnel s' (GetTunnelID mb) = Some newTunnel
           /\ (forall id, id <> GetTunnelID mb -> GetTunnel s' id = GetTunnel s id)
           /\ m_InboundTunnels s' = m_InboundTunnels s ++ [newTunnel]
           /\ calls = (if IsActive p then [TunnelCreated pool newTunnel] else [])
           /\ member_store s' !! newTunnel
              = Some (if IsActive p then mb else SetTunnelPool mb None)
           /\ tunnel_store s' = tunnel_store s
           /\ m_OutboundTunnels s' = m_OutboundTunnels s
       end.
Proof.
  intros Hobj Hpool Hp. rewrite (AddInboundTunnel_spec s newTunnel c t mb pool p)
    by assumption.
  apply object_Some in Hobj as [Ht Hmb].
  destruct (GetTunnel s (GetTunnelID mb)) as [old|] eqn:Eold.
  - eexists _, _. split; [reflexivity|]. repeat split. exact Eold.
  - destruct (IsActive p); eexists _, _; (split; [reflexivity|]);
      unfold GetTunnel; cbn.
    + split; [apply lookup_insert_eq|].
      split; [intros id Hid; apply lookup_insert_ne; congruence|].
      repeat split. exact Hmb.
    + split; [apply lookup_insert_eq|].
      split; [intros id Hid; apply lookup_insert_ne; congruence|].
      repeat split. apply lookup_insert_eq.
Qed.

(** X21: a build message that answers a pending inbound tunnel.  The
    tunnel takes part in [HandleTunnelBuildResponse]; if that returns
    [true] it becomes [Established] and goes through [AddInboundTunnel],
    so it is listed exactly when its id was free; if it returns [false] the
    tunnel becomes [BuildFailed] and no list changes.  A message whose id
    is not in the pending map changes nothing and is passed to the transit
    tunnels.  [HandleShortTunnelBuildMsg] does the same, and nothing for a
    null message. *)
Theorem HandleVariableTunnelBuildMsg_outcome
    (s : Tunnels) (msgID : Z) (msg0 : byte) (recs : list (list byte)) (len : Z)
    (c : Creation) (l : positive) (t t' : Tunnel) (mb : TunnelMembers)
    (pool : positive) (p : TunnelPool) (ok : bool) (evs : list ProfileEvent) :
  List.NoDup (map fst (m_PendingInboundTunnels s)) ->
  List.In (msgID, l) (m_PendingInboundTunnels s) ->
  object (tunnel_store s) (member_store s) l = Some (t, mb) ->
  GetState t = eTunnelStatePending ->
  GetTunnelPool mb = Some pool -> pool_store s !! pool = Some p ->
  HandleTunnelBuildResponse (SetState t eTunnelStateBuildReplyReceived) msg0 recs len
  = Some (ok, t', evs) ->
  (exists (s' : Tunnels) (calls : list PoolCall),
      HandleVariableTunnelBuildMsg s msgID msg0 recs len c
      = Some (s', evs, calls, None, InboundReply)
      /\ HandleShortTunnelBuildMsg s (Some (msgID, msg0, recs, len)) c
         = Some (s', evs, calls, None, Some InboundReply)
      /\ tunnel_store s'
         = <[l := SetState t' (if ok then eTunnelStateEstablished
                               else eTunnelStateBuildFailed)]> (tunnel_store s)
      /\ m_InboundTunnels s'
         = m_InboundTunnels s
           ++ (if ok && negb (bool_decide (is_Some (GetTunnel s (GetTunnelID mb))))
               then [l] else [])
      /\ GetTunnel s' (GetTunnelID mb)
         = (if ok then Some (default l (GetTunnel s (GetTunnelID mb)))
            else GetTunnel s (GetTunnelID mb))
      /\ m_PendingInboundTunnels s' = m_PendingInboundTunnels s
      /\ m_OutboundTunnels s' = m_OutboundTunnels s)
  /\ (forall id : Z,
        List.find (fun e => fst e =? id) (m_PendingInboundTunnels s) = None ->
        HandleVariableTunnelBuildMsg s id msg0 recs len c
        = Some (s, [], [], None, PostTransitTunnelBuildMsg))
  /\ HandleShortTunnelBuildMsg s None c = Some (s, [], [], None, None).
Proof.
  intros Hnd Hin Hobj Hst Hpool Hp Hresp.
  pose proof Hobj as Hobj0. apply object_Some in Hobj0 as [Hl Hmb].
  split; [|split; [|reflexivity]].
  - assert (Hrun : exists (s' : Tunnels) (calls : list PoolCall),
               HandleVariableTunnelBuildMsg s msgID msg0 recs len c
               = Some (s', evs, calls, None, InboundReply)
               /\ tunnel_store s'
                  = <[l := SetState t' (if ok then eTunnelStateEstablished
                                        else eTunnelStateBuildFailed)]> (tunnel_store s)
               /\ m_InboundTunnels s'
                  = m_InboundTunnels s
                    ++ (if ok && negb (bool_decide (is_Some (GetTunnel s (GetTunnelID mb))))
                        then [l] else [])
               /\ GetTunnel s' (GetTunnelID mb)
                  = (if ok then Some (default l (GetTunnel s (GetTunnelID mb)))
                     else GetTunnel s (GetTunnelID mb))
               /\ m_PendingInboundTunnels s' = m_PendingInboundTunnels s
               /\ m_OutboundTunnels s' = m_OutboundTunnels s).
    { unfold HandleVariableTunnelBuildMsg, GetPendingInboundTunnel.
      rewrite (GetPendingTunnel_found _ _ _ _ _ Hnd Hin Hl).
      destruct (decide (GetState t = eTunnelStatePending)) as [_|Hne]; [|contradiction].
      cbn [mbind option_bind tunnel_store set_tunnel_store].
      rewrite lookup_insert_eq. cbn [mbind option_bind]. rewrite Hresp.
      cbn [mbind option_bind]. destruct ok; cbn [andb].
      - rewrite insert_insert_eq.
        rewrite (AddInboundTunnel_spec _ l c (SetState t' eTunnelStateEstablished)
                   mb pool p);
          [|apply object_Some; split; [apply lookup_insert_eq | exact Hmb]
           |exact Hpool|exact Hp].
        unfold GetTunnel. cbn [m_Tunnels set_tunnel_store].
        destruct (m_Tunnels s !! GetTunnelID mb) as [old|] eqn:Eold.
        + rewrite bool_decide_eq_true_2 by (eexists; reflexivity).
          cbn [mbind option_bind negb]. eexists _, _. split; [reflexivity|].
          cbn. rewrite app_nil_r, Eold. repeat split; reflexivity.
        + rewrite bool_decide_eq_false_2 by (intros [? H]; discriminate H).
          destruct (IsActive p); cbn [mbind option_bind negb];
            eexists _, _; (split; [reflexivity|]); cbn;
            rewrite lookup_insert_eq; repeat split; reflexivity.
      - eexists _, _. split; [reflexivity|].
        cbn. rewrite insert_insert_eq, app_nil_r. repeat split; reflexivity. }
    destruct Hrun as (s' & calls & Hrun & Hrest). exists s', calls.
    split; [exact Hrun|]. split; [|exact Hrest].
    unfold HandleShortTunnelBuildMsg. rewrite Hrun. reflexivity.
  - intros id Hfind. unfold HandleVariableTunnelBuildMsg, GetPendingInboundTunnel,
      GetPendingTunnel.
    rewrite Hfind. cbn [mbind option_bind]. rewrite set_tunnel_store_id. reflexivity.
Qed.

(** ** Zero-hops tunnels *)

(** X22: the zero-hops tunnels created when the inbound list is empty can
    be used at once.  After [CreateZeroHopsInboundTunnel] and
    [CreateZeroHopsOutboundTunnel] the inbound list holds the new inbound
    tunnel, [GetNextInboundTunnel] returns it and [GetNextOutboundTunnel]
    returns a tunnel whatever the generator gives; the new inbound tunnel
    is listed even when its id was taken, and the registry then keeps the
    tunnel registered first. *)
Theorem CreateZeroHops_tunnels_usable (s : Tunnels) (inboundTunnel outboundTunnel : positive)
    (id id' now : Z) (pool pool' : option positive) (r : Z) :
  m_InboundTunnels s = [] ->
  inboundTunnel <> outboundTunnel ->
  Forall (fun q => is_Some (tunnel_store s !! q)) (m_OutboundTunnels s) ->
  Z.of_nat (length (m_OutboundTunnels s)) + 1 < 2 ^ 32 -> 0 <= r ->
  exists s1 : Tunnels,
    CreateZeroHopsInboundTunnel s inboundTunnel id now pool = Some s1
    /\ let s2 := CreateZeroHopsOutboundTunnel s1 outboundTunnel id' now pool' in
       m_InboundTunnels s2 = [inboundTunnel]
       /\ GetNextInboundTunnel s2 = Some (Some inboundTunnel)
       /\ (exists q, GetNextOutboundTunnel (tunnel_store s2) (m_OutboundTunnels s2) r
                     = Some (Some q))
       /\ GetTunnel s2 id = Some (default inboundTunnel (GetTunnel s id))
       /\ (forall k, k <> id -> GetTunnel s2 k = GetTunnel s k).
Proof.
  intros Hempty Hne Hlive Hlen Hr.
  unfold CreateZeroHopsInboundTunnel, AddTunnel.
  cbn [member_store set_m_InboundTunnels set_member_store set_tunnel_store
       m_Tunnels m_InboundTunnels].
  rewrite lookup_insert_eq. cbn [mbind option_bind GetTunnelID SetTunnelPool m_TunnelID].
  rewrite Hempty.
  set (t0 := SetState (Tunnel_ctor ZeroHopsTunnelConfig now) eTunnelStateEstablished).
  assert (Hnext : forall (s1 : Tunnels),
             tunnel_store s1 = <[inboundTunnel := t0]> (tunnel_store s) ->
             is_Some (member_store s1 !! inboundTunnel) ->
             m_InboundTunnels s1 = [inboundTunnel] ->
             m_OutboundTunnels s1 = m_OutboundTunnels s ->
             let s2 := CreateZeroHopsOutboundTunnel s1 outboundTunnel id' now pool' in
             m_InboundTunnels s2 = [inboundTunnel]
             /\ GetNextInboundTunnel s2 = Some (Some inboundTunnel)
             /\ (exists q, GetNextOutboundTunnel (tunnel_store s2) (m_OutboundTunnels s2) r
                           = Some (Some q))
             /\ m_Tunnels s2 = m_Tunnels s1).
  { intros s1 Hstore [mb1 Hmb1] Hin Hout s2.
    split; [exact Hin|]. split; [|split; [|reflexivity]].
    - unfold GetNextInboundTunnel, s2, CreateZeroHopsOutboundTunnel.
      cbn [tunnel_store member_store m_InboundTunnels set_m_OutboundTunnels
           set_member_store set_tunnel_store].
      rewrite Hin, Hstore. cbn [next_inbound_loop]. unfold object.
      rewrite !lookup_insert_ne by congruence. rewrite lookup_insert_eq, Hmb1.
      reflexivity.
    - unfold s2, CreateZeroHopsOutboundTunnel.
      cbn [tunnel_store m_OutboundTunnels set_m_OutboundTunnels set_member_store
           set_tunnel_store].
      rewrite Hout, Hstore. fold t0.
      set (heap2 := <[outboundTunnel := t0]> (<[inboundTunnel := t0]> (tunnel_store s))).
      set (l2 := m_OutboundTunnels s ++ [outboundTunnel]).
      rewrite (GetNextOutboundTunnel_spec heap2 l2 r).
      + set (est := established_tunnels heap2 l2).
        assert (Hin_est : List.In outboundTunnel est).
        { unfold est, established_tunnels. apply filter_In. split.
          - unfold l2. apply in_or_app. right. left. reflexivity.
          - unfold heap2. rewrite lookup_insert_eq. reflexivity. }
        assert (0 < length est)%nat by (destruct est; [destruct Hin_est | cbn; lia]).
        destruct (lookup_lt_is_Some_2 est
                    (Nat.min (Z.to_nat (r mod Z.of_nat (length l2))) (length est - 1)))
          as [q Hq]; [lia|].
        exists q. rewrite Hq. reflexivity.
      + unfold l2. apply Forall_app. split.
        * eapply Forall_impl; [exact Hlive|]. intros q [tq Hq]. cbn beta.
          unfold heap2. rewrite !lookup_insert_is_Some. 
          destruct (decide (outboundTunnel = q)) as [|Hq1]; [left; assumption|].
          right. split; [exact Hq1|].
          destruct (decide (inboundTunnel = q)) as [|Hq2]; [left; assumption|].
          right. split; [exact Hq2|]. eexists; exact Hq.
        * constructor; [|constructor]. unfold heap2. rewrite lookup_insert_eq.
          eexists; reflexivity.
      + unfold l2. rewrite length_app. cbn [length]. lia.
      + exact Hr. }
  unfold GetTunnel.
  destruct (m_Tunnels s !! id) as [old|] eqn:Eold; cbn [mbind option_bind];
    eexists; (split; [reflexivity|]);
    (edestruct Hnext as (H1 & H2 & H3 & H4);
     [| | | |split; [exact H1|]; split; [exact H2|]; split; [exact H3|];
            rewrite H4]); try reflexivity.
  - cbn. rewrite lookup_insert_eq. eexists; reflexivity.
  - cbn. split; [exact Eold|]. intros; reflexivity.
  - cbn. rewrite lookup_insert_eq. eexists; reflexivity.
  - cbn. split; [apply lookup_insert_eq|].
    intros k Hk. apply lookup_insert_ne. congruence.
Qed.

(** X23: [SetMaxNumTransitTunnels] never sets the limit to zero: a
    positive limit stays positive whatever the argument, a positive
    argument becomes the limit, and setting the same value again changes
    nothing. *)
Theorem SetMaxNumTransitTunnels_positive (m_MaxNumTransitTunnels maxNumTransitTunnels : Z) :
  0 < m_MaxNumTransitTunnels -> 0 <= maxNumTransitTunnels ->
  let m' := SetMaxNumTransitTunnels m_MaxNumTransitTunnels maxNumTransitTunnels in
  0 < m'
  /\ (0 < maxNumTransitTunnels -> m' = maxNumTransitTunnels)
  /\ (maxNumTransitTunnels = 0 -> m' = m_MaxNumTransitTunnels)
  /\ SetMaxNumTransitTunnels m' maxNumTransitTunnels = m'.
Proof.
  intros Hm Hn m'. unfold m', SetMaxNumTransitTunnels.
  destruct (Z.ltb_spec 0 maxNumTransitTunnels);
    destruct (Z.eqb_spec m_MaxNumTransitTunnels maxNumTransitTunnels);
    cbn [andb negb]; try subst m_MaxNumTransitTunnels;
    rewrite ?Z.eqb_refl; cbn [andb negb];
    repeat split; intros; lia.
Qed.

(** ** ManagePendingTunnels (ts) *)

Lemma sweep_partition (heap : gmap positive Tunnel) (ts : Z) (l : list (Z * positive)) :
  Forall (live_entry heap) l ->
  (length l
   = length (List.filter (pointee heap (sweep_keeps ts)) l)
     + length (List.filter (pointee heap sweep_succeeds) l)
     + length (List.filter (pointee heap (sweep_fails ts)) l))%nat.
Proof.
  induction l as [|it rest IH]; intros Hlive; [reflexivity|].
  inversion Hlive as [|? ? (t & Hl & _) Hrest]; subst.
  cbn [List.filter length]. rewrite !(pointee_entry heap _ it t Hl).
  specialize (IH Hrest). pose proof (sweep_verdict ts t) as Hv.
  destruct (GetState t); destruct Hv as (-> & -> & _ & ->);
    try destruct (deadline_passed ts (GetCreationTime t));
    cbn [negb length]; lia.
Qed.

(** X24: the sweep of both pending maps counts every entry it erases
    exactly once.  After [ManagePendingTunnels (ts)] the two counters have
    grown together by the number of entries that left the two maps, the
    entries kept are entries that were there, and the events of the
    inbound map come before those of the outbound map. *)
Theorem ManagePendingTunnels_both_counts (s : Tunnels) (ts : Z) (c : Counters) :
  0 <= TUNNEL_CREATION_TIMEOUT ->
  0 <= ts -> ts + TUNNEL_CREATION_TIMEOUT < 2 ^ 64 ->
  Forall (live_entry (tunnel_store s)) (m_PendingInboundTunnels s) ->
  Forall (live_entry (tunnel_store s)) (m_PendingOutboundTunnels s) ->
  exists (s' : Tunnels) (c' : Counters) (evs : list ProfileEvent),
    ManagePendingTunnels_both s ts c = Some (s', c', evs)
    /\ (m_TotalNumSuccesiveTunnelCreations c' - m_TotalNumSuccesiveTunnelCreations c)
       + (m_TotalNumFailedTunnelCreations c' - m_TotalNumFailedTunnelCreations c)
       = Z.of_nat (length (m_PendingInboundTunnels s)
                   - length (m_PendingInboundTunnels s'))
         + Z.of_nat (length (m_PendingOutboundTunnels s)
                     - length (m_PendingOutboundTunnels s'))
    /\ m_TotalNumSuccesiveTunnelCreations c <= m_TotalNumSuccesiveTunnelCreations c'
    /\ m_TotalNumFailedTunnelCreations c <= m_TotalNumFailedTunnelCreations c'
    /\ (forall it, List.In it (m_PendingInboundTunnels s') ->
                   List.In it (m_PendingInboundTunnels s))
    /\ (forall it, List.In it (m_PendingOutboundTunnels s') ->
                   List.In it (m_PendingOutboundTunnels s))
    /\ evs = flat_map (sweep_events (tunnel_store s) ts) (m_PendingInboundTunnels s)
             ++ flat_map (sweep_events (tunnel_store s) ts) (m_PendingOutboundTunnels s)
    /\ tunnel_store s' = tunnel_store s
    /\ m_InboundTunnels s' = m_InboundTunnels s
    /\ m_OutboundTunnels s' = m_OutboundTunnels s.
Proof.
  intros Ht Hts Hsum Hin Hout. unfold ManagePendingTunnels_both.
  rewrite (ManagePendingTunnels_spec _ ts Ht Hts Hsum _ c Hin).
  cbn [mbind option_bind].
  rewrite (ManagePendingTunnels_spec _ ts Ht Hts Hsum _ _ Hout).
  cbn [mbind option_bind].
  eexists _, _, _. split; [reflexivity|].
  cbn [m_TotalNumSuccesiveTunnelCreations m_TotalNumFailedTunnelCreations
       m_PendingInboundTunnels m_PendingOutboundTunnels
       set_m_PendingInboundTunnels set_m_PendingOutboundTunnels
       tunnel_store m_InboundTunnels m_OutboundTunnels].
  pose proof (sweep_partition _ ts _ Hin) as Pi.
  pose proof (sweep_partition _ ts _ Hout) as Po.
  split; [lia|]. split; [lia|]. split; [lia|].
  split; [intros it Hit; apply filter_In in Hit as [Hit _]; exact Hit|].
  split; [intros it Hit; apply filter_In in Hit as [Hit _]; exact Hit|].
  repeat split; reflexivity.
Qed.

(** ** The dispatch loop of Run *)

Lemma dispatch_loop_found (msg : QueuedMessage) (rest : list (option QueuedMessage))
    (st st1 : DispatchState) (calls : list DispatchCall) (tunnel : positive) :
  dispatch_message msg st = (calls, st1, Some tunnel) ->
  dispatch_loop [] (Some msg :: rest) st = calls ++ continue_or_flush tunnel rest st1.
Proof.
  intros H. cbn [dispatch_loop]. rewrite H. destruct rest; reflexivity.
Qed.

Lemma dispatch_message_in_run (reg : gmap Z positive) (id : Z) (tunnel : positive)
    (m : QueuedMessage) (st : DispatchState) :
  handlers_keep_registry ->
  in_run reg id tunnel st ->
  tunnel_message m = true -> payload_tunnelID m = id ->
  exists st1, dispatch_message m st = ([handler_call tunnel m], st1, Some tunnel)
              /\ in_run reg id tunnel st1.
Proof.
  intros Hkeep Hin Hm Hpid. destruct Hin as (Hid & Hprev & Hreg).
  unfold dispatch_message, handler_call, tunnel_message in *.
  destruct (GetTypeID m); try discriminate Hm;
    rewrite Hpid, Hid, Z.eqb_refl, Hprev; cbn;
    eexists; (split; [reflexivity|]); unfold in_run; cbn;
    (split; [reflexivity|]); (split; [reflexivity|]);
    rewrite Hreg; apply Hkeep.
Qed.

Lemma dispatch_message_new_run (reg : gmap Z positive) (id : Z) (tunnel : positive)
    (m : QueuedMessage) (st : DispatchState) :
  handlers_keep_registry ->
  registry st = reg -> reg !! id = Some tunnel ->
  (forall p, prevTunnel st = Some p -> prevTunnelID st <> id) ->
  tunnel_message m = true -> payload_tunnelID m = id ->
  exists st1,
    dispatch_message m st
    = (prev_flush st ++ [CallGetTunnel id; handler_call tunnel m], st1, Some tunnel)
    /\ in_run reg id tunnel st1.
Proof.
  intros Hkeep Hreg Hlook Hprev Hm Hpid.
  unfold dispatch_message, handler_call, tunnel_message, prev_flush in *.
  destruct (prevTunnel st) as [p|] eqn:Ep.
  - assert (Hne : (id =? prevTunnelID st) = false).
    { apply Z.eqb_neq. intros Heq. apply (Hprev p eq_refl). symmetry. exact Heq. }
    destruct (GetTypeID m); try discriminate Hm;
      rewrite Hpid, Hne, Hreg, Hlook; cbn;
      eexists; (split; [reflexivity|]); unfold in_run; cbn;
      (split; [reflexivity|]); (split; [reflexivity|]);
      apply Hkeep.
  - destruct (GetTypeID m); try discriminate Hm;
      rewrite Hpid, Hreg, Hlook; destruct (id =? prevTunnelID st); cbn;
      eexists; (split; [reflexivity|]); unfold in_run; cbn;
      (split; [reflexivity|]); (split; [reflexivity|]);
      apply Hkeep.
Qed.

Lemma continue_run (reg : gmap Z positive) (id : Z) (tunnel : positive)
    (tail : list (option QueuedMessage)) :
  handlers_keep_registry ->
  forall (ms : list QueuedMessage) (st : DispatchState),
    in_run reg id tunnel st ->
    Forall (fun m => tunnel_message m = true /\ payload_tunnelID m = id) ms ->
    exists st2,
      in_run reg id tunnel st2
      /\ continue_or_flush tunnel (map Some ms ++ tail) st
         = map (handler_call tunnel) ms ++ continue_or_flush tunnel tail st2.
Proof.
  intros Hkeep. induction ms as [|m ms IH]; intros st Hin Hall.
  - exists st. split; [exact Hin | reflexivity].
  - apply Forall_cons in Hall as [[Hm Hpid] Hrest].
    destruct (dispatch_message_in_run reg _ tunnel m st Hkeep Hin Hm Hpid)
      as (st1 & Hmsg & Hin1).
    destruct (IH st1 Hin1 Hrest) as (st2 & Hin2 & Heq).
    exists st2. split; [exact Hin2|].
    cbn [map app continue_or_flush].
    rewrite (dispatch_loop_found _ _ _ _ _ _ Hmsg), Heq. reflexivity.
Qed.

Lemma dispatch_runs (reg : gmap Z positive) :
  handlers_keep_registry ->
  forall (runs : list (Z * positive * list QueuedMessage)) (st : DispatchState),
    runs <> [] -> Forall (run_ok reg) runs -> ids_change runs ->
    registry st = reg ->
    (forall p r, prevTunnel st = Some p -> head runs = Some r ->
                 prevTunnelID st <> fst (fst r)) ->
    dispatch_loop [] (flat_map run_messages runs) st
    = prev_flush st ++ flat_map run_calls runs.
Proof.
  intros Hkeep.
  induction runs as [|[[id tunnel] ms] rest IH]; intros st Hne Hok Hch Hreg Hprev;
    [contradiction|].
  apply Forall_cons in Hok as [Hr Hokrest]. cbn in Hr.
  destruct Hr as (Hms & Hlook & Hall).
  destruct ms as [|m ms]; [contradiction|].
  apply Forall_cons in Hall as [[Hm Hpid] Hallrest].
  destruct (dispatch_message_new_run reg _ tunnel m st Hkeep Hreg Hlook)
    as (st1 & Hmsg & Hin1);
    [intros p Hp; apply (Hprev p _ Hp eq_refl) | exact Hm | exact Hpid |].
  destruct (continue_run reg _ tunnel (flat_map run_messages rest) Hkeep ms st1 Hin1 Hallrest)
    as (st2 & Hin2 & Heq).
  cbn [flat_map run_messages snd map app run_calls].
  rewrite (dispatch_loop_found _ _ _ _ _ _ Hmsg), Heq.
  rewrite <- !app_assoc. cbn [app]. do 4 f_equal.
  destruct rest as [|r2 rest2].
  - reflexivity.
  - destruct Hin2 as (Hid2 & Hprev2 & Hreg2).
    assert (Htail : exists x l, flat_map run_messages (r2 :: rest2) = x :: l).
    { apply Forall_cons in Hokrest as [Hr2 _].
      destruct r2 as [[id2 t2] [|m2 ms2]]; [destruct Hr2 as [H _]; contradiction|].
      cbn. eexists _, _. reflexivity. }
    destruct Htail as (x & l & Htail).
    unfold continue_or_flush. rewrite Htail, <- Htail.
    rewrite IH.
    + unfold prev_flush. rewrite Hprev2. reflexivity.
    + discriminate.
    + exact Hokrest.
    + destruct Hch as [_ Hch]. exact Hch.
    + exact Hreg2.
    + intros p r Hp Hr. cbn in Hr. inversion Hr; subst r.
      rewrite Hid2. destruct Hch as [Hch _]. exact Hch.
Qed.

(** X25: the dispatch loop coalesces the messages of one tunnel.  Let the
    queue hold runs of tunnel data and tunnel gateway messages, each run
    for one registered tunnel id and neighbouring runs for different ids,
    and let the handlers of these messages leave the registry alone.  Then
    the loop looks each id up once, at the first message of its run, hands
    every message of the run to that tunnel in order, and flushes the
    tunnel once, after the last message of the run. *)
Theorem dispatch_loop_coalesces (reg : gmap Z positive)
    (runs : list (Z * positive * list QueuedMessage)) :
  handlers_keep_registry ->
  Forall (run_ok reg) runs -> ids_change runs ->
  dispatch_loop [] (flat_map run_messages runs) (dispatch_start reg)
  = flat_map run_calls runs.
Proof.
  intros Hkeep Hok Hch. destruct runs as [|r rest] eqn:E; [reflexivity|].
  rewrite <- E in *.
  rewrite (dispatch_runs reg Hkeep runs (dispatch_start reg)).
  - reflexivity.
  - rewrite E. discriminate.
  - exact Hok.
  - exact Hch.
  - reflexivity.
  - intros p r0 Hp. discriminate Hp.
Qed.

Lemma run_calls_nonempty (runs : list (Z * positive * list QueuedMessage)) :
  runs <> [] -> flat_map run_calls runs <> [].
Proof.
  destruct runs as [|[[id tunnel] ms] rest]; [contradiction|].
  intros _. cbn. discriminate.
Qed.

Lemma dispatch_runs_tail (reg : gmap Z positive) (tail : list (option QueuedMessage)) :
  handlers_keep_registry ->
  forall (runs : list (Z * positive * list QueuedMessage)) (st : DispatchState),
    runs <> [] -> Forall (run_ok reg) runs -> ids_change runs ->
    registry st = reg ->
    (forall p r, prevTunnel st = Some p -> head runs = Some r ->
                 prevTunnelID st <> fst (fst r)) ->
    exists (st2 : DispatchState) (id : Z) (tunnel : positive),
      in_run reg id tunnel st2
      /\ dispatch_loop [] (flat_map run_messages runs ++ tail) st
         = prev_flush st ++ removelast (flat_map run_calls runs)
           ++ continue_or_flush tunnel tail st2.
Proof.
  intros Hkeep.
  induction runs as [|[[id tunnel] ms] rest IH]; intros st Hne Hok Hch Hreg Hprev;
    [contradiction|].
  apply Forall_cons in Hok as [Hr Hokrest]. cbn in Hr.
  destruct Hr as (Hms & Hlook & Hall).
  destruct ms as [|m ms]; [contradiction|].
  apply Forall_cons in Hall as [[Hm Hpid] Hallrest].
  destruct (dispatch_message_new_run reg _ tunnel m st Hkeep Hreg Hlook)
    as (st1 & Hmsg & Hin1);
    [intros p Hp; apply (Hprev p _ Hp eq_refl) | exact Hm | exact Hpid |].
  destruct (continue_run reg _ tunnel (flat_map run_messages rest ++ tail) Hkeep
              ms st1 Hin1 Hallrest) as (st2 & Hin2 & Heq).
  cbn [flat_map run_messages snd map app].
  rewrite <- !app_assoc. cbn [app].
  rewrite (dispatch_loop_found _ _ _ _ _ _ Hmsg), Heq.
  destruct rest as [|r2 rest2].
  - exists st2, id, tunnel. split; [exact Hin2|].
    cbn [flat_map app run_calls]. rewrite app_nil_r.
    change (CallGetTunnel id
            :: map (handler_call tunnel) (m :: ms) ++ [CallFlushTunnelDataMsgs tunnel])
      with ((CallGetTunnel id :: map (handler_call tunnel) (m :: ms))
            ++ [CallFlushTunnelDataMsgs tunnel]).
    rewrite removelast_last, <- !app_assoc. reflexivity.
  - pose proof Hin2 as (Hid2 & Hprev2 & Hreg2).
    assert (Htail : exists x l, flat_map run_messages (r2 :: rest2) ++ tail = x :: l).
    { apply Forall_cons in Hokrest as [Hr2 _].
      destruct r2 as [[id2 t2] [|m2 ms2]]; [destruct Hr2 as [H _]; contradiction|].
      cbn. eexists _, _. reflexivity. }
    destruct Htail as (x & l & Htail).
    destruct (IH st2) as (st3 & id3 & tunnel3 & Hin3 & Heq3).
    + discriminate.
    + exact Hokrest.
    + destruct Hch as [_ Hch]. exact Hch.
    + exact Hreg2.
    + intros p r Hp Hr. cbn in Hr. inversion Hr; subst r.
      rewrite Hid2. destruct Hch as [Hch _]. exact Hch.
    + exists st3, id3, tunnel3. split; [exact Hin3|].
      unfold continue_or_flush at 1. rewrite Htail, <- Htail, Heq3.
      unfold prev_flush at 2. rewrite Hprev2.
      change (flat_map run_calls ((id, tunnel, m :: ms) :: r2 :: rest2))
        with (run_calls (id, tunnel, m :: ms) ++ flat_map run_calls (r2 :: rest2)).
      rewrite removelast_app by (apply run_calls_nonempty; discriminate).
      cbn [run_calls map]. rewrite <- !app_assoc. cbn [app].
      rewrite <- !app_assoc. reflexivity.
Qed.

(** X26: a batch that does not end with a tunnel message leaves the last
    tunnel unflushed.  If the runs of tunnel messages are followed by one
    message of another kind (a build message, a build reply or a message
    the loop only logs), or by a null message, the loop makes the calls it
    makes for the runs but for the flush of the tunnel of the last run,
    then the call for the message that follows; no flush comes after. *)
Theorem dispatch_loop_trailing_message (reg : gmap Z positive)
    (runs : list (Z * positive * list QueuedMessage)) (other : QueuedMessage) :
  handlers_keep_registry ->
  runs <> [] -> Forall (run_ok reg) runs -> ids_change runs ->
  tunnel_message other = false ->
  dispatch_loop [] (flat_map run_messages runs ++ [Some other]) (dispatch_start reg)
  = removelast (flat_map run_calls runs) ++ other_call other
  /\ dispatch_loop [] (flat_map run_messages runs ++ [None]) (dispatch_start reg)
     = removelast (flat_map run_calls runs).
Proof.
  intros Hkeep Hne Hok Hch Hother. split.
  - destruct (dispatch_runs_tail reg [Some other] Hkeep runs (dispatch_start reg)
                Hne Hok Hch eq_refl) as (st2 & id & tunnel & Hin & ->);
      [intros p r Hp; discriminate Hp|].
    cbn [prev_flush dispatch_start prevTunnel app]. f_equal.
    unfold continue_or_flush, other_call. cbn [dispatch_loop].
    unfold dispatch_message, tunnel_message in *.
    destruct (GetTypeID other); try discriminate Hother; reflexivity.
  - destruct (dispatch_runs_tail reg [None] Hkeep runs (dispatch_start reg)
                Hne Hok Hch eq_refl) as (st2 & id & tunnel & Hin & ->);
      [intros p r Hp; discriminate Hp|].
    cbn [prev_flush dispatch_start prevTunnel app].
    unfold continue_or_flush. cbn [dispatch_loop]. apply app_nil_r.
Qed.

End TunnelModel.

(** * The theorems at concrete inputs *)

Lemma HandleTunnelBuildResponse_rejects_bad_header_witness :
  HandleTunnelBuildResponse 218 528 example_LayerDecrypt example_ResponseDecrypt
    example_RetCode (example_tunnel eTunnelStateBuildReplyReceived 1000)
    x09 example_accepted 873
  = Some (false, example_tunnel eTunnelStateBuildReplyReceived 1000, []).
Proof.
  apply (HandleTunnelBuildResponse_rejects_bad_header 218 528
           example_LayerDecrypt example_ResponseDecrypt example_RetCode
           (example_tunnel eTunnelStateBuildReplyReceived 1000) example_config).
  - reflexivity.
  - compute_bounds.
  - left. vm_compute. reflexivity.
Defined.

Lemma HandleTunnelBuildResponse_return_codes_witness :
  exists (codes : list byte) (t' : Tunnel),
    Forall2 (fun hop c => GetRetCode example_RetCode hop example_declined = Some c)
      (hops example_config) codes
    /\ HandleTunnelBuildResponse 218 528 example_LayerDecrypt example_ResponseDecrypt
         example_RetCode (example_tunnel eTunnelStateBuildReplyReceived 1000)
         x04 example_declined 873
       = Some (forallb accepts codes, t',
               omap hop_response_event (zip (hops example_config) codes))
    /\ (m_State t' = eTunnelStateEstablished
        <-> Forall (fun c => byte_to_Z c = 0) codes).
Proof.
  apply (HandleTunnelBuildResponse_return_codes 218 528
           example_LayerDecrypt example_ResponseDecrypt example_RetCode
           (example_tunnel eTunnelStateBuildReplyReceived 1000) example_config
           x04 example_declined example_declined 873).
  - reflexivity.
  - simpl. discriminate.
  - vm_compute. discriminate.
  - compute_bounds.
  - vm_compute. discriminate.
  - vm_compute. reflexivity.
Defined.

Lemma HandleTunnelBuildResponse_established_witness :
  exists cfg : TunnelConfig,
    m_Config (example_tunnel eTunnelStateBuildReplyReceived 1000) = Some cfg
    /\ length (m_Hops example_established) = length (hops cfg)
    /\ m_Hops example_established = map runtime_hop (rev (hops cfg))
    /\ m_IsShortBuildMessage example_established = IsShort cfg
    /\ m_FarEndTransports example_established = GetFarEndTransports cfg
    /\ m_Config example_established = None
    /\ m_State example_established = eTunnelStateEstablished.
Proof.
  apply (HandleTunnelBuildResponse_established 218 528
           example_LayerDecrypt example_ResponseDecrypt example_RetCode
           (example_tunnel eTunnelStateBuildReplyReceived 1000) example_established
           x04 example_accepted 873
           [(10%N, TunnelBuildResponse x00); (11%N, TunnelBuildResponse x00);
            (12%N, TunnelBuildResponse x00)]).
  vm_compute. reflexivity.
Defined.

Lemma GetPendingTunnel_at_most_once_witness :
  (GetState (example_tunnel eTunnelStatePending 1000) = eTunnelStatePending ->
   let heap' :=
     <[1%positive := SetState (example_tunnel eTunnelStatePending 1000)
                       eTunnelStateBuildReplyReceived]> example_pending_heap in
   GetPendingTunnel 7 example_pending example_pending_heap = Some (Some 1%positive, heap')
   /\ GetPendingTunnel 7 example_pending heap' = Some (None, heap'))
  /\ (GetState (example_tunnel eTunnelStatePending 1000) <> eTunnelStatePending ->
      GetPendingTunnel 7 example_pending example_pending_heap
      = Some (None, example_pending_heap)).
Proof.
  apply (GetPendingTunnel_at_most_once 7 example_pending example_pending_heap
           1%positive (example_tunnel eTunnelStatePending 1000)).
  - simpl. repeat (constructor; [simpl; lia|]). constructor.
  - simpl. left. reflexivity.
  - vm_compute. reflexivity.
Defined.

Lemma periodic_maintenance_schedules_witness :
  let s' := fst (periodic_maintenance 15 5 120 true 110 example_schedules) in
  let tasks := snd (periodic_maintenance 15 5 120 true 110 example_schedules) in
  (List.In (ManageTunnels 110) tasks
     <-> interval_passed_or_clock_behind 15 110 (lastTs example_schedules))
  /\ (List.In (ManageTunnelPools 110) tasks
     <-> interval_passed_or_clock_behind 5 110 (lastPoolsTs example_schedules))
  /\ (List.In CleanUpMemoryPools tasks
     <-> interval_passed_or_clock_behind 120 110 (lastMemoryPoolTs example_schedules))
  /\ (List.In (ManageTunnels 110) tasks -> lastTs s' = 110)
  /\ (~ List.In (ManageTunnels 110) tasks -> lastTs s' = lastTs example_schedules)
  /\ (List.In (ManageTunnelPools 110) tasks -> lastPoolsTs s' = 110)
  /\ (~ List.In (ManageTunnelPools 110) tasks
      -> lastPoolsTs s' = lastPoolsTs example_schedules)
  /\ (List.In CleanUpMemoryPools tasks -> lastMemoryPoolTs s' = 110)
  /\ (~ List.In CleanUpMemoryPools tasks
      -> lastMemoryPoolTs s' = lastMemoryPoolTs example_schedules).
Proof.
  apply (periodic_maintenance_schedules 15 5 120 110 example_schedules);
    compute_bounds.
Defined.

(** C8: the schedules are meant to run a task when [ts - last >= interval]
    or [ts + interval < last].  At [ts = 99] with [last = 100] and the
    intervals 15, 5 and 120 neither comparison holds on the integers (the
    clock stepped back by one second, within every interval), yet all three
    tasks run and every [last] becomes 99: [ts - last] is evaluated on
    [uint64_t] and wraps around. *)
Lemma periodic_maintenance_small_backward_jump :
  periodic_maintenance 15 5 120 true 99 example_schedules
  = ({| lastTs := 99; lastPoolsTs := 99; lastMemoryPoolTs := 99 |},
     [ManageTunnels 99; ManageTunnelPools 99; CleanUpMemoryPools])
  /\ ~ (99 - lastTs example_schedules >= 15 \/ 99 + 15 < lastTs example_schedules)
  /\ ~ (99 - lastPoolsTs example_schedules >= 5
        \/ 99 + 5 < lastPoolsTs example_schedules)
  /\ ~ (99 - lastMemoryPoolTs example_schedules >= 120
        \/ 99 + 120 < lastMemoryPoolTs example_schedules).
Proof.
  split; [vm_compute; reflexivity|]. simpl. lia.
Qed.

Lemma ManagePendingTunnels_sweep_witness :
  exists (m : list (Z * positive)) (c' : Counters) (evs : list ProfileEvent),
    ManagePendingTunnels 30 example_pending_heap example_pending 1031 example_counters
    = Some (m, c', evs)
    /\ evs = flat_map (sweep_events 30 example_pending_heap 1031) example_pending
    /\ m_TotalNumFailedTunnelCreations c'
       = m_TotalNumFailedTunnelCreations example_counters
         + Z.of_nat (length (List.filter (pointee example_pending_heap (sweep_fails 30 1031))
                               example_pending))
    /\ m_TotalNumSuccesiveTunnelCreations c'
       = m_TotalNumSuccesiveTunnelCreations example_counters
         + Z.of_nat (length (List.filter (pointee example_pending_heap sweep_succeeds)
                               example_pending))
    /\ forall (it : Z * positive) (t : Tunnel),
         List.In it example_pending -> example_pending_heap !! snd it = Some t ->
         (GetState t = eTunnelStatePending ->
          GetCreationTime t + 30 < 1031 \/ 1031 + 30 < GetCreationTime t ->
          ~ List.In it m
          /\ sweep_events 30 example_pending_heap 1031 it
             = omap hop_non_replied (config_hops t)
          /\ pointee example_pending_heap (sweep_fails 30 1031) it = true
          /\ pointee example_pending_heap sweep_succeeds it = false)
         /\ (GetState t = eTunnelStateBuildReplyReceived ->
             List.In it m
             /\ sweep_events 30 example_pending_heap 1031 it = []
             /\ pointee example_pending_heap (sweep_fails 30 1031) it = false
             /\ pointee example_pending_heap sweep_succeeds it = false)
         /\ (GetState t = eTunnelStateEstablished ->
             ~ List.In it m
             /\ sweep_events 30 example_pending_heap 1031 it = []
             /\ pointee example_pending_heap (sweep_fails 30 1031) it = false
             /\ pointee example_pending_heap sweep_succeeds it = true).
Proof.
  apply (ManagePendingTunnels_sweep 30 example_pending_heap example_pending 1031
           example_counters).
  - compute_bounds.
  - compute_bounds.
  - compute_bounds.
  - repeat constructor.
    + exists (example_tunnel eTunnelStatePending 1000).
      split; [vm_compute; reflexivity | compute_bounds].
    + exists (example_tunnel eTunnelStateBuildReplyReceived 1000).
      split; [vm_compute; reflexivity | compute_bounds].
    + exists (example_tunnel eTunnelStateEstablished 1000).
      split; [vm_compute; reflexivity | compute_bounds].
Defined.

Lemma GetNextOutboundTunnel_selection_witness :
  let est := established_tunnels example_heap example_outbound in
  let n := length example_outbound in
  let k := length est in
  (forall r : Z, 0 <= r ->
     GetNextOutboundTunnel example_heap example_outbound r
     = Some (est !! Nat.min (Z.to_nat (r mod Z.of_nat n)) (k - 1)))
  /\ (forall (j : nat) (p : positive),
        est !! j = Some p ->
        residues_selecting example_heap example_outbound p
        = if decide (j = k - 1)%nat then (n - k + 1)%nat else 1%nat).
Proof.
  apply (GetNextOutboundTunnel_selection example_heap example_outbound).
  - repeat constructor.
    + exists (example_tunnel eTunnelStateEstablished 1000). vm_compute. reflexivity.
    + exists (example_tunnel eTunnelStateEstablished 1000). vm_compute. reflexivity.
    + exists (example_tunnel eTunnelStatePending 1000). vm_compute. reflexivity.
  - unfold example_outbound. repeat (constructor; [simpl; lia|]). constructor.
  - compute_bounds.
Defined.

(** On the list of three tunnels of which the first two are established
    the residues 0, 1, 2 select the tunnels 1, 2, 2: the first established
    tunnel has one residue and the second has two. *)
Lemma GetNextOutboundTunnel_not_uniform :
  established_tunnels example_heap example_outbound = [1%positive; 2%positive]
  /\ GetNextOutboundTunnel example_heap example_outbound 0 = Some (Some 1%positive)
  /\ GetNextOutboundTunnel example_heap example_outbound 1 = Some (Some 2%positive)
  /\ GetNextOutboundTunnel example_heap example_outbound 2 = Some (Some 2%positive)
  /\ residues_selecting example_heap example_outbound 1%positive = 1%nat
  /\ residues_selecting example_heap example_outbound 2%positive = 2%nat
  /\ ~ (forall p q : positive,
          List.In p (established_tunnels example_heap example_outbound) ->
          List.In q (established_tunnels example_heap example_outbound) ->
          residues_selecting example_heap example_outbound p
          = residues_selecting example_heap example_outbound q).
Proof.
  repeat (split; [vm_compute; reflexivity|]).
  intros H. specialize (H 1%positive 2%positive).
  assert (H1 : List.In 1%positive (established_tunnels example_heap example_outbound))
    by (vm_compute; tauto).
  assert (H2 : List.In 2%positive (established_tunnels example_heap example_outbound))
    by (vm_compute; tauto).
  specialize (H H1 H2). vm_compute in H. discriminate H.
Qed.

Lemma example_shuffle_permutes (g : Z) (l : list Z) :
  Permutation (example_shuffle g l) l.
Proof. unfold example_shuffle. apply Permutation_sym, Permutation_rev. Defined.

Lemma Build_records_witness :
  let H := length (hops example_config) in
  let size := Z.to_nat (GetRecordSize 218 528 example_config) in
  exists (t' : Tunnel) (out : BuildOutput) (cfg' : TunnelConfig),
    Build 218 528 example_RequestRecord example_LayerDecrypt example_short_message
      example_message example_entropy example_shuffle
      (example_tunnel eTunnelStatePending 1000) 3735928559 0 0
    = Some (t', out)
    /\ m_Config t' = Some cfg'
    /\ out_numRecords out
       = (if GetNumHops example_config <=? STANDARD_NUM_RECORDS
          then STANDARD_NUM_RECORDS else MAX_NUM_RECORDS)
    /\ len (out_msg out)
       = len (new_message example_short_message example_message example_config)
         + (1 + out_numRecords out * GetRecordSize 218 528 example_config)
    /\ byte_to_Z (payload0 (out_msg out)) = out_numRecords out
    /\ Permutation (out_recordIndicies out)
         (map Z.of_nat (seq 0 (Z.to_nat (out_numRecords out))))
    /\ length (hops cfg') = H
    /\ map recordIndex (hops cfg') = take H (out_recordIndicies out)
    /\ NoDup (map recordIndex (hops cfg'))
    /\ (forall i : nat,
          (H <= i < Z.to_nat (out_numRecords out))%nat ->
          exists idx : Z,
            out_recordIndicies out !! i = Some idx
            /\ Forall (fun hop => recordIndex hop <> idx) (hops cfg')
            /\ records (out_msg out) !! Z.to_nat idx
               = Some (RAND_bytes example_entropy
                         (0 + 4 * (H - 1) + (i - H) * size) size)).
Proof.
  apply (Build_records 218 528 example_RequestRecord example_LayerDecrypt
           example_short_message example_message example_entropy example_shuffle
           (example_tunnel eTunnelStatePending 1000) example_config 3735928559 0 0).
  - exact example_shuffle_permutes.
  - reflexivity.
  - compute_bounds.
  - compute_bounds.
  - compute_bounds.
  - compute_bounds.
  - compute_bounds.
Defined.

Lemma Build_reply_message_ids_witness :
  let H := length (hops example_config) in
  exists (t' : Tunnel) (out : BuildOutput) (cfg' : TunnelConfig),
    Build 218 528 example_RequestRecord example_LayerDecrypt example_short_message
      example_message example_entropy example_shuffle
      (example_tunnel eTunnelStatePending 1000) 3735928559 0 0
    = Some (t', out)
    /\ m_Config t' = Some cfg'
    /\ length (out_requests out) = H
    /\ (forall (k : nat) (hop : TunnelHopConfig) (msgID : Z),
          out_requests out !! k = Some (hop, msgID) ->
          hops cfg' !! k = Some hop
          /\ (k = (H - 1)%nat -> msgID = 3735928559)
          /\ ((k < H - 1)%nat ->
              msgID = uint32_of_bytes (RAND_bytes example_entropy (0 + 4 * k) 4))
          /\ out_filled out !! Z.to_nat (recordIndex hop)
             = Some (example_RequestRecord hop msgID)).
Proof.
  apply (Build_reply_message_ids 218 528 example_RequestRecord example_LayerDecrypt
           example_short_message example_message example_entropy example_shuffle
           (example_tunnel eTunnelStatePending 1000) example_config 3735928559 0 0).
  - exact example_shuffle_permutes.
  - reflexivity.
  - compute_bounds.
  - compute_bounds.
Defined.

(** The build of the example at a glance: four records, the permutation
    [3; 2; 1; 0], the hops A, B, C in the slots 3, 2, 1, the caller's id
    in the record of C and the fake record in slot 0. *)
Example Build_example :
  match Build 218 528 example_RequestRecord example_LayerDecrypt example_short_message
          example_message example_entropy example_shuffle
          (example_tunnel eTunnelStatePending 1000) 3735928559 0 0 with
  | Some (t', out) =>
      out_numRecords out = 4
      /\ out_recordIndicies out = [3; 2; 1; 0]
      /\ option_map (fun cfg' => map recordIndex (hops cfg')) (m_Config t') = Some [3; 2; 1]
      /\ map snd (out_requests out) = [50462976; 117835012; 3735928559]
      /\ len (out_msg out) = 16 + 1 + 4 * 218
      /\ length <$> records (out_msg out) !! 0%nat = Some 218%nat
  | None => False
  end.
Proof. vm_compute. repeat split; reflexivity. Qed.

(** Outside one to [MAX_NUM_RECORDS] hops [Build] has no defined result:
    without a hop it dereferences the null [GetLastHop ()], with nine hops
    it reads [recordIndicies[8]] of a vector of eight. *)
Example Build_outside_its_domain :
  Build 218 528 example_RequestRecord example_LayerDecrypt example_short_message
    example_message example_entropy example_shuffle (example_tunnel_of 0) 3735928559 0 0
  = None
  /\ Build 218 528 example_RequestRecord example_LayerDecrypt example_short_message
       example_message example_entropy example_shuffle (example_tunnel_of 9) 3735928559 0 0
     = None.
Proof. split; vm_compute; reflexivity. Qed.

(** * The further properties at concrete inputs *)

Lemma AddTunnel_keeps_first_registration_witness :
  ∃ (added : bool) (s' : Tunnels),
  AddTunnel example_state (Some 1%positive) = Some (added, s')
  ∧ (added = true
     ↔ GetTunnel example_state
         (GetTunnelID (example_members 101 false (Some 1%positive) 50)) =
       None)
    ∧ GetTunnel s' (GetTunnelID (example_members 101 false (Some 1%positive) 50)) =
      Some
        (default 1%positive
           (GetTunnel example_state
              (GetTunnelID (example_members 101 false (Some 1%positive) 50))))
      ∧ ∀ id : Z,
          id ≠ GetTunnelID (example_members 101 false (Some 1%positive) 50)
          → GetTunnel s' id = GetTunnel example_state id.
Proof.
  apply (AddTunnel_keeps_first_registration example_state 1%positive
           (example_members 101 false (Some 1%positive) 50)).
  - reflexivity.
Defined.

Lemma RemoveTunnel_frees_id_witness :
  let s1 :=
    RemoveTunnel example_state
      (GetTunnelID (example_members 102 true (Some 1%positive) 20))
    in
  GetTunnel s1 (GetTunnelID (example_members 102 true (Some 1%positive) 20)) = None
  ∧ (∀ id : Z,
       id ≠ GetTunnelID (example_members 102 true (Some 1%positive) 20)
       → GetTunnel s1 id = GetTunnel example_state id)
    ∧ ∃ s2 : Tunnels,
        AddTunnel s1 (Some 2%positive) = Some (true, s2)
        ∧ GetTunnel s2 (GetTunnelID (example_members 102 true (Some 1%positive) 20)) =
          Some 2%positive.
Proof.
  apply (RemoveTunnel_frees_id example_state 2%positive (example_members 102 true
           (Some 1%positive) 20)).
  - reflexivity.
Defined.

Lemma GetNextInboundTunnel_least_loaded_witness :
  let est :=
    established_tunnels (tunnel_store example_state) (m_InboundTunnels example_state) in
  (est = [] → GetNextInboundTunnel example_state = Some None)
  ∧ (est ≠ []
     → ∃ (p : positive) (before after : list positive),
         GetNextInboundTunnel example_state = Some (Some p)
         ∧ est = before ++ p :: after
           ∧ (∀ q : positive,
                In q before
                → received_bytes (member_store example_state) p <
                  received_bytes (member_store example_state) q)
             ∧ ∀ q : positive,
                 In q after
                 → received_bytes (member_store example_state) p
                   ≤ received_bytes (member_store example_state) q).
Proof.
  apply (GetNextInboundTunnel_least_loaded example_state).
  - repeat (constructor; [vm_compute; eexists; reflexivity|]); constructor.
Defined.

Lemma AddPendingTunnel_last_writer_wins_witness :
  let marked :=
    <[3%positive:=SetState (example_tunnel eTunnelStatePending 1000)
                    eTunnelStateBuildReplyReceived]>
      (tunnel_store example_state)
    in
  let so := AddPendingOutboundTunnel example_state 7 3 in
  let si := AddPendingInboundTunnel example_state 7 3 in
  GetPendingOutboundTunnel so 7 = Some (Some 3%positive, set_tunnel_store so marked)
  ∧ GetPendingInboundTunnel si 7 = Some (Some 3%positive, set_tunnel_store si marked)
    ∧ (∀ id : Z,
         id ≠ 7
         → find (λ e : Z * positive, e.1 =? id) (m_PendingOutboundTunnels so) =
           find (λ e : Z * positive, e.1 =? id)
             (m_PendingOutboundTunnels example_state)
           ∧ find (λ e : Z * positive, e.1 =? id) (m_PendingInboundTunnels si) =
             find (λ e : Z * positive, e.1 =? id)
               (m_PendingInboundTunnels example_state))
      ∧ (increasing_keys (m_PendingOutboundTunnels example_state)
         → increasing_keys (m_PendingOutboundTunnels so))
        ∧ (increasing_keys (m_PendingInboundTunnels example_state)
           → increasing_keys (m_PendingInboundTunnels si)).
Proof.
  apply (AddPendingTunnel_last_writer_wins example_state 7 3%positive
           (example_tunnel eTunnelStatePending 1000)).
  - reflexivity.
  - reflexivity.
Defined.

Lemma HandleTunnelBuildReplyMsg_outcome_witness :
  ∃ (s' : Tunnels) (calls : list PoolCall),
  HandleTunnelBuildReplyMsg 218 528 example_LayerDecrypt
    example_ResponseDecrypt example_RetCode example_state 7 x04
    example_accepted 873 =
  Some (s', example_accepted_events, calls)
  ∧ tunnel_store s' =
    <[3%positive:=SetState example_established eTunnelStateEstablished]>
      (tunnel_store example_state)
    ∧ m_OutboundTunnels s' =
      m_OutboundTunnels example_state ++ [3%positive]
      ∧ calls =
        match
          active_pool example_state
            (example_members 103 false (Some 1%positive) 0)
        with
        | Some pool => [TunnelCreated pool 3]
        | None => []
        end
        ∧ member_store s' =
          match
            active_pool example_state
              (example_members 103 false (Some 1%positive) 0)
          with
          | Some _ => member_store example_state
          | None =>
              <[3%positive:=SetTunnelPool
                              (example_members 103 false 
                                 (Some 1%positive) 0)
                              None]>
                (member_store example_state)
          end
          ∧ m_PendingOutboundTunnels s' =
            m_PendingOutboundTunnels example_state
            ∧ m_PendingInboundTunnels s' =
              m_PendingInboundTunnels example_state
              ∧ m_InboundTunnels s' = m_InboundTunnels example_state
                ∧ m_Tunnels s' = m_Tunnels example_state
                  ∧ pool_store s' = pool_store example_state.
Proof.
  apply (HandleTunnelBuildReplyMsg_outcome 218 528 example_LayerDecrypt
           example_ResponseDecrypt example_RetCode example_state 7 x04
           example_accepted 873 3%positive (example_tunnel eTunnelStatePending 1000)
           example_established (example_members 103 false (Some 1%positive) 0) true
           example_accepted_events).
  - repeat (constructor; [simpl; intros H; exact H|]); constructor.
  - left; reflexivity.
  - reflexivity.
  - reflexivity.
  - reflexivity.
  - intros pool Hp; vm_compute in Hp; inversion Hp; subst; vm_compute; eexists; reflexivity.
  - vm_compute; reflexivity.
Defined.

Lemma HandleTunnelBuildReplyMsg_at_most_once_witness :
  HandleTunnelBuildReplyMsg 218 528 example_LayerDecrypt example_ResponseDecrypt
    example_RetCode
    (set_tunnel_store example_state
       (<[3%positive:=SetState
                        (example_tunnel eTunnelStateBuildReplyReceived 1000)
                        eTunnelStateBuildFailed]>
          (tunnel_store example_state)))
    7 x04 example_accepted 873 =
  Some
    (set_tunnel_store example_state
       (<[3%positive:=SetState
                        (example_tunnel eTunnelStateBuildReplyReceived 1000)
                        eTunnelStateBuildFailed]>
          (tunnel_store example_state)),
     [], [])
  ∧ ∀ id : Z,
      find (λ e : Z * positive, e.1 =? id)
        (m_PendingOutboundTunnels example_state) =
      None
      → HandleTunnelBuildReplyMsg 218 528 example_LayerDecrypt
          example_ResponseDecrypt example_RetCode example_state id x04
          example_accepted 873 =
        Some (example_state, [], []).
Proof.
  apply (HandleTunnelBuildReplyMsg_at_most_once 218 528 example_LayerDecrypt
           example_ResponseDecrypt example_RetCode example_state (set_tunnel_store
           example_state (<[3%positive := SetState (example_tunnel
           eTunnelStateBuildReplyReceived 1000) eTunnelStateBuildFailed]>
           (tunnel_store example_state))) 7 x04 x04 example_declined
           example_accepted 873 873 3%positive (example_tunnel eTunnelStatePending
           1000) [(10%N, TunnelBuildResponse x00); (11%N, TunnelBuildResponse x00);
           (12%N, TunnelBuildResponse x1e)] []).
  - repeat (constructor; [simpl; intros H; exact H|]); constructor.
  - left; reflexivity.
  - reflexivity.
  - reflexivity.
  - vm_compute; reflexivity.
Defined.

Lemma HandleTunnelBuildReplyMsg_then_sweep_witness :
  ∃ (s' : Tunnels) (calls : list PoolCall)
  (m : list (Z * positive)) (c' : Counters) 
  (evs' : list ProfileEvent),
  HandleTunnelBuildReplyMsg 218 528 example_LayerDecrypt
    example_ResponseDecrypt example_RetCode example_state 7 x04
    example_accepted 873 =
  Some (s', example_accepted_events, calls)
  ∧ ManagePendingTunnels 30 (tunnel_store s')
      (m_PendingOutboundTunnels s') 1031 example_counters =
    Some (m, c', evs')
    ∧ m =
      List.filter
        (λ it : Z * positive,
           negb (it.2 =? 3)%positive &&
           pointee (tunnel_store example_state)
             (sweep_keeps 30 1031) it)
        (m_PendingOutboundTunnels example_state)
      ∧ m_TotalNumSuccesiveTunnelCreations c' =
        m_TotalNumSuccesiveTunnelCreations example_counters +
        Z.of_nat
          (length
             (List.filter
                (λ it : Z * positive,
                   if (it.2 =? 3)%positive
                   then true
                   else
                    pointee (tunnel_store example_state)
                      sweep_succeeds it)
                (m_PendingOutboundTunnels example_state)))
        ∧ m_TotalNumFailedTunnelCreations c' =
          m_TotalNumFailedTunnelCreations example_counters +
          Z.of_nat
            (length
               (List.filter
                  (λ it : Z * positive,
                     if (it.2 =? 3)%positive
                     then negb true
                     else
                      pointee (tunnel_store example_state)
                        (sweep_fails 30 1031) it)
                  (m_PendingOutboundTunnels example_state)))
          ∧ evs' =
            flat_map
              (λ it : Z * positive,
                 if (it.2 =? 3)%positive
                 then []
                 else
                  sweep_events 30 (tunnel_store example_state)
                    1031 it)
              (m_PendingOutboundTunnels example_state).
Proof.
  apply (HandleTunnelBuildReplyMsg_then_sweep 218 528 30 example_LayerDecrypt
           example_ResponseDecrypt example_RetCode example_state 7 x04
           example_accepted 873 3%positive (example_tunnel eTunnelStatePending 1000)
           example_established (example_members 103 false (Some 1%positive) 0) true
           example_accepted_events 1031 example_counters).
  - repeat (constructor; [simpl; intros H; exact H|]); constructor.
  - left; reflexivity.
  - reflexivity.
  - reflexivity.
  - reflexivity.
  - intros pool Hp; vm_compute in Hp; inversion Hp; subst; vm_compute; eexists; reflexivity.
  - vm_compute; reflexivity.
  - repeat (constructor;
      [eexists; split; [reflexivity|];
       split; [vm_compute; discriminate | vm_compute; reflexivity]|]); constructor.
  - lia.
  - lia.
  - compute_bounds.
Defined.

Lemma ManageOutboundTunnels_sweep_outcome_witness :
  ∃ s' : Tunnels,
  ManageOutboundTunnels_sweep 660 90 60 example_state 1610 [] =
  Some
    (s',
     [] ++
     sweep_queued 660 90 false 1610 example_state
       (m_OutboundTunnels example_state),
     sweep_called 660 60 false 1610 example_state
       (m_OutboundTunnels example_state))
  ∧ m_OutboundTunnels s' =
    sweep_kept 660 1610 example_state
      (m_OutboundTunnels example_state)
    ∧ (∀ q : positive,
         tunnel_store s' !! q =
         (if bool_decide (q ∈ m_OutboundTunnels example_state)
          then
           mark_expiring 660 60 1610 <$>
           tunnel_store example_state !! q
          else tunnel_store example_state !! q))
      ∧ (∀ c : SweepCall,
           c
           ∈ sweep_called 660 60 false 1610 example_state
               (m_OutboundTunnels example_state)
           → ∃ pool q : positive, c = CallPool (TunnelExpired pool q))
        ∧ m_Tunnels s' = m_Tunnels example_state
          ∧ m_InboundTunnels s' = m_InboundTunnels example_state
            ∧ m_PendingInboundTunnels s' =
              m_PendingInboundTunnels example_state
              ∧ m_PendingOutboundTunnels s' =
                m_PendingOutboundTunnels example_state
                ∧ member_store s' = member_store example_state
                  ∧ pool_store s' = pool_store example_state.
Proof.
  apply (ManageOutboundTunnels_sweep_outcome 660 90 60 example_state 1610 []).
  - lia.
  - lia.
  - lia.
  - lia.
  - compute_bounds.
  - compute_bounds.
  - compute_bounds.
  - apply (bool_decide_unpack _); vm_compute; exact I.
  - repeat (constructor;
      [eexists _, _; split; [reflexivity|];
       split; [vm_compute; discriminate|];
       split; [vm_compute; reflexivity|];
       intros pool Hp; vm_compute in Hp; inversion Hp; subst;
       vm_compute; eexists; reflexivity|]); constructor.
Defined.

Lemma ManageInboundTunnels_sweep_outcome_witness :
  ∃ s' : Tunnels,
  ManageInboundTunnels_sweep 660 90 60 example_state 1580 [] =
  Some
    (s',
     [] ++
     sweep_queued 660 90 true 1580 example_state
       (m_InboundTunnels example_state),
     sweep_called 660 60 true 1580 example_state
       (m_InboundTunnels example_state))
  ∧ m_InboundTunnels s' =
    sweep_kept 660 1580 example_state (m_InboundTunnels example_state)
    ∧ (∀ q : positive,
         tunnel_store s' !! q =
         (if bool_decide (q ∈ m_InboundTunnels example_state)
          then
           mark_expiring 660 60 1580 <$>
           tunnel_store example_state !! q
          else tunnel_store example_state !! q))
      ∧ (∀ id : Z,
           GetTunnel s' id =
           (if
             sweep_erases_id 660 1580 example_state
               (m_InboundTunnels example_state) id
            then None
            else GetTunnel example_state id))
        ∧ (∀ (q : positive) (t : Tunnel) (mb : TunnelMembers),
             q ∈ m_InboundTunnels example_state
             → object (tunnel_store example_state)
                 (member_store example_state) q =
               Some (t, mb)
               → CallCleanup q
                 ∈ sweep_called 660 60 true 1580 example_state
                     (m_InboundTunnels example_state)
                 ↔ swept 660 1580 t = false
                   ∧ IsEstablished t = true
                     ∧ marked_expiring 660 60 1580 t = false)
          ∧ m_OutboundTunnels s' = m_OutboundTunnels example_state
            ∧ m_PendingInboundTunnels s' =
              m_PendingInboundTunnels example_state
              ∧ m_PendingOutboundTunnels s' =
                m_PendingOutboundTunnels example_state
                ∧ member_store s' = member_store example_state
                  ∧ pool_store s' = pool_store example_state.
Proof.
  apply (ManageInboundTunnels_sweep_outcome 660 90 60 example_state 1580 []).
  - lia.
  - lia.
  - lia.
  - lia.
  - compute_bounds.
  - compute_bounds.
  - compute_bounds.
  - apply (bool_decide_unpack _); vm_compute; exact I.
  - repeat (constructor;
      [eexists _, _; split; [reflexivity|];
       split; [vm_compute; discriminate|];
       split; [vm_compute; reflexivity|];
       intros pool Hp; vm_compute in Hp; inversion Hp; subst;
       vm_compute; eexists; reflexivity|]); constructor.
Defined.

Lemma Recreate_at_most_once_witness :
  ∃ (ok : bool) (members1 : gmap positive TunnelMembers) (calls : list PoolCall)
  (mb1 : TunnelMembers),
  Recreate (member_store example_state) 1 = Some (ok, members1, calls)
  ∧ (ok = true
     ↔ IsRecreated (example_members 101 false (Some 1%positive) 50) = false
       ∧ is_Some (GetTunnelPool (example_members 101 false (Some 1%positive) 50)))
    ∧ calls =
      (if ok
       then
        match GetTunnelPool (example_members 101 false (Some 1%positive) 50) with
        | Some pool =>
            [if m_IsInbound (example_members 101 false (Some 1%positive) 50)
             then RecreateInboundTunnel pool 1
             else RecreateOutboundTunnel pool 1]
        | None => []
        end
       else [])
      ∧ members1 !! 1%positive = Some mb1
        ∧ IsRecreated mb1 =
          ok || IsRecreated (example_members 101 false (Some 1%positive) 50)
          ∧ SetRecreated mb1
              (IsRecreated (example_members 101 false (Some 1%positive) 50)) =
            example_members 101 false (Some 1%positive) 50
            ∧ (∀ q : positive,
                 q ≠ 1%positive → members1 !! q = member_store example_state !! q)
              ∧ (is_Some
                   (GetTunnelPool (example_members 101 false (Some 1%positive) 50))
                 → Recreate members1 1 = Some (false, members1, [])).
Proof.
  apply (Recreate_at_most_once (member_store example_state) 1%positive
           (example_members 101 false (Some 1%positive) 50)).
  - reflexivity.
Defined.

Lemma ManageOutboundTunnels_sweep_queues_once_witness :
  ∃ (s1 : Tunnels) (queue : list positive)
  (calls1 : list SweepCall) (members2 : 
                             gmap positive TunnelMembers) 
  (calls2 : list PoolCall) (s3 : Tunnels) 
  (queue' : list positive) (calls3 : list SweepCall),
  ManageOutboundTunnels_sweep 660 90 60 example_state 1580
    [] =
  Some (s1, queue, calls1)
  ∧ [1%positive] ≡ₚ queue
    ∧ recreate_loop (member_store s1) [1%positive] =
      Some (members2, calls2)
      ∧ length calls2 = length queue
        ∧ ManageOutboundTunnels_sweep 660 90 60
            (set_member_store s1 members2) 1590 [] =
          Some (s3, queue', calls3)
          ∧ ∀ q : positive, q ∈ queue → q ∉ queue'.
Proof.
  apply (ManageOutboundTunnels_sweep_queues_once 660 90 60 example_state 1580 1590
           [1%positive]).
  - lia.
  - lia.
  - lia.
  - lia.
  - compute_bounds.
  - compute_bounds.
  - compute_bounds.
  - lia.
  - compute_bounds.
  - compute_bounds.
  - compute_bounds.
  - apply (bool_decide_unpack _); vm_compute; exact I.
  - repeat (constructor;
      [eexists _, _; split; [reflexivity|];
       split; [vm_compute; discriminate|];
       split; [vm_compute; reflexivity|];
       intros pool Hp; vm_compute in Hp; inversion Hp; subst;
       vm_compute; eexists; reflexivity|]); constructor.
  - vm_compute; reflexivity.
Defined.

Lemma GetNextOutboundTunnel_after_sweep_witness :
  ∃ (s' : Tunnels) (queue : list positive)
  (calls : list SweepCall) (next : option positive),
  ManageOutboundTunnels_sweep 660 90 60 example_state 1580 [] =
  Some (s', queue, calls)
  ∧ GetNextOutboundTunnel (tunnel_store s') 
      (m_OutboundTunnels s') 5 =
    Some next
    ∧ match next with
      | Some p =>
          ∃ t : Tunnel,
            p ∈ m_OutboundTunnels example_state
            ∧ tunnel_store example_state !! p = Some t
              ∧ IsFailed t = false
                ∧ expired 660 1580 t = false
                  ∧ IsEstablished t = true
                    ∧ 1580 + 60 ≤ GetCreationTime t + 660
      | None =>
          ∀ (q : positive) (t : Tunnel),
            q ∈ m_OutboundTunnels example_state
            → tunnel_store example_state !! q = Some t
              → fresh_at 660 60 1580 t = false
      end.
Proof.
  apply (GetNextOutboundTunnel_after_sweep 660 90 60 example_state 1580 5 []).
  - lia.
  - lia.
  - lia.
  - lia.
  - compute_bounds.
  - compute_bounds.
  - compute_bounds.
  - apply (bool_decide_unpack _); vm_compute; exact I.
  - repeat (constructor;
      [eexists _, _; split; [reflexivity|];
       split; [vm_compute; discriminate|];
       split; [vm_compute; reflexivity|];
       intros pool Hp; vm_compute in Hp; inversion Hp; subst;
       vm_compute; eexists; reflexivity|]); constructor.
  - compute_bounds.
  - lia.
Defined.

Lemma EncryptTunnelMsg_after_build_witness :
  ∃ cfg : TunnelConfig,
  m_Config (example_tunnel eTunnelStateBuildReplyReceived 1000) = Some cfg
  ∧ ∀ inPayload outPayload : list byte,
      EncryptTunnelMsg example_Decrypt example_established inPayload outPayload =
      match hops cfg with
      | [] => outPayload
      | _ :: _ =>
          foldr
            (λ (hop : TunnelHopConfig) (p : list byte),
               example_Decrypt (hop_keys hop) p)
            inPayload (hops cfg)
      end.
Proof.
  apply (EncryptTunnelMsg_after_build 218 528 example_LayerDecrypt
           example_ResponseDecrypt example_RetCode example_Decrypt (example_tunnel
           eTunnelStateBuildReplyReceived 1000) example_established x04
           example_accepted 873 example_accepted_events).
  - vm_compute; reflexivity.
Defined.

Lemma HandleTunnelDataMsg_alive_witness :
  ∃ (s' : Tunnels) (calls : list PoolCall),
  HandleTunnelDataMsg example_Decrypt example_state 4 [x2a%byte] =
  Some
    (s', calls,
     fold_left
       (λ (p : list byte) (it : TunnelHop), example_Decrypt (decryption it) p)
       (m_Hops (example_tunnel eTunnelStateFailed 1000)) [x2a%byte])
  ∧ tunnel_store s' =
    <[4%positive:=SetState (example_tunnel eTunnelStateFailed 1000)
                    (if
                      bool_decide
                        (GetState (example_tunnel eTunnelStateFailed 1000) =
                         eTunnelStateExpiring)
                     then eTunnelStateExpiring
                     else eTunnelStateEstablished)]>
      (tunnel_store example_state)
    ∧ (calls ≠ []
       → GetState (example_tunnel eTunnelStateFailed 1000) ≠ eTunnelStateEstablished
         ∧ GetState (example_tunnel eTunnelStateFailed 1000) ≠ eTunnelStateExpiring)
      ∧ (∀ c : PoolCall,
           c ∈ calls
           → ∃ (pool : positive) (pl : TunnelPool),
               GetTunnelPool (example_members 104 true None 0) = Some pool
               ∧ pool_store example_state !! pool = Some pl
                 ∧ ∃ dest : positive,
                     GetLocalDestination pl = Some dest
                     ∧ c = SetLeaseSetUpdated dest)
        ∧ (∀ payload' : list byte,
             HandleTunnelDataMsg example_Decrypt s' 4 payload' =
             Some
               (s', [],
                fold_left
                  (λ (p : list byte) (it : TunnelHop),
                     example_Decrypt (decryption it) p)
                  (m_Hops (example_tunnel eTunnelStateFailed 1000)) payload'))
          ∧ set_tunnel_store s' (tunnel_store example_state) = example_state.
Proof.
  apply (HandleTunnelDataMsg_alive example_Decrypt example_state 4%positive
           (example_tunnel eTunnelStateFailed 1000) (example_members 104 true None
           0) [x2a]).
  - reflexivity.
  - intros pool Hp; discriminate Hp.
Defined.

Lemma ZeroHopsOutboundTunnel_SendTunnelDataMsgs_batch_witness :
  ∃ ds : list Delivery,
  ZeroHopsOutboundTunnel_SendTunnelDataMsgs 1000 example_batch =
  Some (1000 + batch_bytes example_batch, ds)
  ∧ Forall2
      (λ (msg : TunnelMessageBlock) (d : Delivery),
         ∃ m : Message, data msg = Some m ∧ delivery_of msg m = Some d)
      (with_data example_batch) ds.
Proof.
  apply (ZeroHopsOutboundTunnel_SendTunnelDataMsgs_batch 1000 example_batch).
  - vm_compute;
    repeat (constructor;
      [vm_compute; first [exact I | split; eexists; reflexivity]|]); constructor.
  - lia.
  - compute_bounds.
Defined.

Lemma HandleTunnelGatewayMsg_bounds_witness :
  let header := 16 + 6 in
  let fits :=
    msg_offset example_gateway_message + header +
    gateway_length example_gateway_message <=?
    msg_len example_gateway_message in
  ∃ msg' : Message,
    HandleTunnelGatewayMsg 16 6 (Some 2%positive) example_gateway_message =
    (msg', if fits then Some (2%positive, msg') else None)
    ∧ msg_offset msg' = msg_offset example_gateway_message + header
      ∧ (fits = true
         → msg_len msg' =
           msg_offset msg' + gateway_length example_gateway_message
           ∧ msg_len msg' ≤ msg_len example_gateway_message
             ∧ GetLength msg' = gateway_length example_gateway_message
               ∧ ZeroHopsInboundTunnel_SendTunnelDataMsg 20 (Some msg') =
                 (20 + gateway_length example_gateway_message,
                  [HandleI2NPMessage msg']))
        ∧ (fits = false → msg_len msg' = msg_len example_gateway_message).
Proof.
  apply (HandleTunnelGatewayMsg_bounds 16 6 2%positive example_gateway_message 20).
  - lia.
  - lia.
  - compute_bounds.
  - compute_bounds.
  - compute_bounds.
  - compute_bounds.
  - compute_bounds.
Defined.

Lemma CreateTunnel_pending_under_reply_id_witness :
  let H := length (hops example_config) in
  let replyMsgID := uint32_of_bytes (RAND_bytes example_entropy 0 4) in
  ∃ (s' : Tunnels) (out : BuildOutput) (t' : Tunnel) (mb : TunnelMembers),
    CreateTunnel 218 528 example_RequestRecord example_LayerDecrypt
      example_short_message example_message example_entropy example_shuffle false
      example_state 9 example_config 109 1000 (Some 1%positive) 0 0 =
    Some (s', out)
    ∧ object (tunnel_store s') (member_store s') 9 = Some (t', mb)
      ∧ GetState t' = eTunnelStatePending
        ∧ GetCreationTime t' = 1000
          ∧ GetTunnelPool mb = Some 1%positive
            ∧ GetTunnelID mb = 109
              ∧ IsRecreated mb = false
                ∧ GetPendingOutboundTunnel s' replyMsgID =
                  Some
                    (Some 9%positive,
                     set_tunnel_store s'
                       (<[9%positive:=SetState t' eTunnelStateBuildReplyReceived]>
                          (tunnel_store s')))
                  ∧ (∃ hop : TunnelHopConfig,
                       out_requests out !! (H - 1)%nat = Some (hop, replyMsgID))
                    ∧ (∀ (k : nat) (hop : TunnelHopConfig) (msgID : Z),
                         (k < H - 1)%nat
                         → out_requests out !! k = Some (hop, msgID)
                           → msgID =
                             uint32_of_bytes
                               (RAND_bytes example_entropy (0 + 4 + 4 * k) 4))
                      ∧ m_InboundTunnels s' = m_InboundTunnels example_state
                        ∧ m_OutboundTunnels s' = m_OutboundTunnels example_state
                          ∧ m_Tunnels s' = m_Tunnels example_state.
Proof.
  apply (CreateTunnel_pending_under_reply_id 218 528 example_RequestRecord
           example_LayerDecrypt example_short_message example_message
           example_entropy example_shuffle false example_state 9%positive
           example_config 109 1000 (Some 1%positive) 0 0%nat).
  - exact example_shuffle_permutes.
  - compute_bounds.
  - compute_bounds.
Defined.

Lemma AddInboundTunnel_registers_witness :
  ∃ (s' : Tunnels) (calls : list PoolCall),
  AddInboundTunnel 218 528 example_RequestRecord example_LayerDecrypt
    example_short_message example_message example_entropy example_shuffle
    example_symmetric_TunnelConfig example_state 6 example_creation =
  Some (s', calls, None)
  ∧ match
      GetTunnel example_state
        (GetTunnelID (example_members 106 true (Some 1%positive) 0))
    with
    | Some old =>
        s' = example_state
        ∧ calls = []
          ∧ GetTunnel s'
              (GetTunnelID (example_members 106 true (Some 1%positive) 0)) =
            Some old
    | None =>
        GetTunnel s' (GetTunnelID (example_members 106 true (Some 1%positive) 0)) =
        Some 6%positive
        ∧ (∀ id : Z,
             id ≠ GetTunnelID (example_members 106 true (Some 1%positive) 0)
             → GetTunnel s' id = GetTunnel example_state id)
          ∧ m_InboundTunnels s' = m_InboundTunnels example_state ++ [6%positive]
            ∧ calls = (if IsActive example_pool then [TunnelCreated 1 6] else [])
              ∧ member_store s' !! 6%positive =
                Some
                  (if IsActive example_pool
                   then example_members 106 true (Some 1%positive) 0
                   else
                    SetTunnelPool (example_members 106 true (Some 1%positive) 0)
                      None)
                ∧ tunnel_store s' = tunnel_store example_state
                  ∧ m_OutboundTunnels s' = m_OutboundTunnels example_state
    end.
Proof.
  apply (AddInboundTunnel_registers 218 528 example_RequestRecord
           example_LayerDecrypt example_short_message example_message
           example_entropy example_shuffle example_symmetric_TunnelConfig
           example_state 6%positive example_creation (example_tunnel
           eTunnelStateEstablished 1000) (example_members 106 true (Some 1%positive)
           0) 1%positive example_pool).
  - reflexivity.
  - reflexivity.
  - reflexivity.
Defined.

Lemma HandleVariableTunnelBuildMsg_outcome_witness :
  (∃ (s' : Tunnels) (calls : list PoolCall),
     HandleVariableTunnelBuildMsg 218 528 example_RequestRecord
       example_LayerDecrypt example_ResponseDecrypt example_RetCode
       example_short_message example_message example_entropy example_shuffle
       example_symmetric_TunnelConfig example_state 8 x04 example_accepted
       873 example_creation =
     Some (s', example_accepted_events, calls, None, InboundReply)
     ∧ HandleShortTunnelBuildMsg 218 528 example_RequestRecord
         example_LayerDecrypt example_ResponseDecrypt example_RetCode
         example_short_message example_message example_entropy
         example_shuffle example_symmetric_TunnelConfig example_state
         (Some (8, x04%byte, example_accepted, 873)) example_creation =
       Some (s', example_accepted_events, calls, None, Some InboundReply)
       ∧ tunnel_store s' =
         <[7%positive:=SetState example_established eTunnelStateEstablished]>
           (tunnel_store example_state)
         ∧ m_InboundTunnels s' =
           m_InboundTunnels example_state ++
           (if
             true &&
             negb
               (bool_decide
                  (is_Some
                     (GetTunnel example_state
                        (GetTunnelID
                           (example_members 107 true (Some 1%positive) 0)))))
            then [7%positive]
            else [])
           ∧ GetTunnel s'
               (GetTunnelID (example_members 107 true (Some 1%positive) 0)) =
             Some
               (default 7%positive
                  (GetTunnel example_state
                     (GetTunnelID
                        (example_members 107 true (Some 1%positive) 0))))
             ∧ m_PendingInboundTunnels s' =
               m_PendingInboundTunnels example_state
               ∧ m_OutboundTunnels s' = m_OutboundTunnels example_state)
  ∧ (∀ id : Z,
       find (λ e : Z * positive, e.1 =? id)
         (m_PendingInboundTunnels example_state) =
       None
       → HandleVariableTunnelBuildMsg 218 528 example_RequestRecord
           example_LayerDecrypt example_ResponseDecrypt example_RetCode
           example_short_message example_message example_entropy
           example_shuffle example_symmetric_TunnelConfig example_state id
           x04 example_accepted 873 example_creation =
         Some (example_state, [], [], None, PostTransitTunnelBuildMsg))
    ∧ HandleShortTunnelBuildMsg 218 528 example_RequestRecord
        example_LayerDecrypt example_ResponseDecrypt example_RetCode
        example_short_message example_message example_entropy
        example_shuffle example_symmetric_TunnelConfig example_state None
        example_creation =
      Some (example_state, [], [], None, None).
Proof.
  apply (HandleVariableTunnelBuildMsg_outcome 218 528 example_RequestRecord
           example_LayerDecrypt example_ResponseDecrypt example_RetCode
           example_short_message example_message example_entropy example_shuffle
           example_symmetric_TunnelConfig example_state 8 x04 example_accepted 873
           example_creation 7%positive (example_tunnel eTunnelStatePending 1000)
           example_established (example_members 107 true (Some 1%positive) 0)
           1%positive example_pool true example_accepted_events).
  - repeat (constructor; [simpl; intros H; exact H|]); constructor.
  - left; reflexivity.
  - reflexivity.
  - reflexivity.
  - reflexivity.
  - reflexivity.
  - vm_compute; reflexivity.
Defined.

Lemma CreateZeroHops_tunnels_usable_witness :
  ∃ s1 : Tunnels,
  CreateZeroHopsInboundTunnel example_empty_state 1 11 1000 None = Some s1
  ∧ (let s2 := CreateZeroHopsOutboundTunnel s1 2 12 1000 None in
     m_InboundTunnels s2 = [1%positive]
     ∧ GetNextInboundTunnel s2 = Some (Some 1%positive)
       ∧ (∃ q : positive,
            GetNextOutboundTunnel (tunnel_store s2) (m_OutboundTunnels s2) 5 =
            Some (Some q))
         ∧ GetTunnel s2 11 =
           Some (default 1%positive (GetTunnel example_empty_state 11))
           ∧ ∀ k : Z,
               k ≠ 11 → GetTunnel s2 k = GetTunnel example_empty_state k).
Proof.
  apply (CreateZeroHops_tunnels_usable example_empty_state 1%positive 2%positive 11
           12 1000 None None 5).
  - reflexivity.
  - discriminate.
  - constructor.
  - compute_bounds.
  - lia.
Defined.

Lemma SetMaxNumTransitTunnels_positive_witness :
  let m' := SetMaxNumTransitTunnels 10000 5000 in
  0 < m'
  ∧ (0 < 5000 → m' = 5000)
    ∧ (5000 = 0 → m' = 10000) ∧ SetMaxNumTransitTunnels m' 5000 = m'.
Proof.
  apply (SetMaxNumTransitTunnels_positive 10000 5000).
  - lia.
  - lia.
Defined.

Lemma ManagePendingTunnels_both_counts_witness :
  ∃ (s' : Tunnels) (c' : Counters) (evs : list ProfileEvent),
  ManagePendingTunnels_both 30 example_state 1031 example_counters =
  Some (s', c', evs)
  ∧ m_TotalNumSuccesiveTunnelCreations c' -
    m_TotalNumSuccesiveTunnelCreations example_counters +
    (m_TotalNumFailedTunnelCreations c' -
     m_TotalNumFailedTunnelCreations example_counters) =
    Z.of_nat
      (length (m_PendingInboundTunnels example_state) -
       length (m_PendingInboundTunnels s')) +
    Z.of_nat
      (length (m_PendingOutboundTunnels example_state) -
       length (m_PendingOutboundTunnels s'))
    ∧ m_TotalNumSuccesiveTunnelCreations example_counters
      ≤ m_TotalNumSuccesiveTunnelCreations c'
      ∧ m_TotalNumFailedTunnelCreations example_counters
        ≤ m_TotalNumFailedTunnelCreations c'
        ∧ (∀ it : Z * positive,
             In it (m_PendingInboundTunnels s')
             → In it (m_PendingInboundTunnels example_state))
          ∧ (∀ it : Z * positive,
               In it (m_PendingOutboundTunnels s')
               → In it (m_PendingOutboundTunnels example_state))
            ∧ evs =
              flat_map (sweep_events 30 (tunnel_store example_state) 1031)
                (m_PendingInboundTunnels example_state) ++
              flat_map (sweep_events 30 (tunnel_store example_state) 1031)
                (m_PendingOutboundTunnels example_state)
              ∧ tunnel_store s' = tunnel_store example_state
                ∧ m_InboundTunnels s' = m_InboundTunnels example_state
                  ∧ m_OutboundTunnels s' = m_OutboundTunnels example_state.
Proof.
  apply (ManagePendingTunnels_both_counts 30 example_state 1031 example_counters).
  - lia.
  - lia.
  - compute_bounds.
  - repeat (constructor;
      [eexists; split; [reflexivity|];
       split; [vm_compute; discriminate | vm_compute; reflexivity]|]); constructor.
  - repeat (constructor;
      [eexists; split; [reflexivity|];
       split; [vm_compute; discriminate | vm_compute; reflexivity]|]); constructor.
Defined.

Lemma dispatch_loop_coalesces_witness :
  dispatch_loop 256 example_registry_after [] (flat_map run_messages example_runs)
    (dispatch_start (m_Tunnels example_state)) =
  flat_map run_calls example_runs.
Proof.
  apply (dispatch_loop_coalesces 256 example_registry_after (m_Tunnels
           example_state) example_runs).
  - intros t m r; split; reflexivity.
  - repeat (constructor;
      [cbn; split; [discriminate|]; split; [reflexivity|];
       repeat (constructor; [split; reflexivity|]); constructor|]); constructor.
  - vm_compute; split; [discriminate | exact I].
Defined.

Lemma dispatch_loop_trailing_message_witness :
  dispatch_loop 256 example_registry_after []
    (flat_map run_messages example_runs ++
     [Some (example_queued eI2NPShortTunnelBuild 0 4)])
    (dispatch_start (m_Tunnels example_state)) =
  removelast (flat_map run_calls example_runs) ++
  other_call (example_queued eI2NPShortTunnelBuild 0 4)
  ∧ dispatch_loop 256 example_registry_after []
      (flat_map run_messages example_runs ++ [None])
      (dispatch_start (m_Tunnels example_state)) =
    removelast (flat_map run_calls example_runs).
Proof.
  apply (dispatch_loop_trailing_message 256 example_registry_after (m_Tunnels
           example_state) example_runs (example_queued eI2NPShortTunnelBuild 0 4)).
  - intros t m r; split; reflexivity.
  - discriminate.
  - repeat (constructor;
      [cbn; split; [discriminate|]; split; [reflexivity|];
       repeat (constructor; [split; reflexivity|]); constructor|]); constructor.
  - vm_compute; split; [discriminate | exact I].
  - reflexivity.
Defined.
